(** * The research agent of [backend/src/agent]: a shallow embedding

    The development follows [graph.py] (the nodes and routers of the
    research graph), [utils.py] (the citation helpers),
    [configuration.py] (how the configuration is read) and the two entry
    points [run_agent.py] and [examples/cli_research.py].  Python
    integers are [Z], strings are [string], JSON-like objects are
    [gmap string string], exceptions and [print] are explicit effects. *)

From Stdlib Require Import ZArith String Ascii List Lia Sorted.
From stdpp Require Import gmap strings list pretty sorting.
Import ListNotations.

Open Scope string_scope.
Open Scope list_scope.
Open Scope Z_scope.

(** ** Python primitives used by the agent *)

Module Py.

(** [sub in s] on strings. *)
Fixpoint contains (sub s : string) : bool :=
  match s with
  | EmptyString => String.prefix sub s
  | String _ s' => String.prefix sub s || contains sub s'
  end.

(** The scan of [str.replace] for a non-empty pattern: [skip] counts the
    characters of an occurrence that are still to be passed over. *)
Fixpoint replace_from (old new : string) (skip : nat) (s : string) : string :=
  match s with
  | EmptyString => EmptyString
  | String c s' =>
      match skip with
      | S k => replace_from old new k s'
      | O =>
          if String.prefix old s
          then new +:+ replace_from old new (String.length old - 1) s'
          else String c (replace_from old new 0 s')
      end
  end.

(** With an empty pattern Python puts [new] around every character. *)
Fixpoint replace_empty (new s : string) : string :=
  match s with
  | EmptyString => new
  | String c s' => new +:+ String c (replace_empty new s')
  end.

(** [s.replace(old, new)]: all non-overlapping occurrences, leftmost first. *)
Definition replace (old new s : string) : string :=
  match old with
  | EmptyString => replace_empty new s
  | String _ _ => replace_from old new 0 s
  end.

(** [d.get(k, dflt)] on a dict with string values. *)
Definition get (d : gmap string string) (k dflt : string) : string :=
  default dflt (d !! k).

(** [l[:k]] on a list. *)
Definition slice_to {A} (l : list A) (k : Z) : list A :=
  if k <? 0
  then firstn (length l - Z.to_nat (- k)) l
  else firstn (Z.to_nat k) l.

(** [a or b] on integers that may be absent ([None] and [0] are falsy). *)
Definition or_int (a : option Z) (b : Z) : Z :=
  match a with
  | Some v => if v =? 0 then b else v
  | None => b
  end.

(** [a or b] on strings that may be absent ([None] and [''] are falsy). *)
Definition or_str (a : option string) (b : string) : string :=
  match a with
  | Some EmptyString | None => b
  | Some v => v
  end.

Definition nl : string := String (ascii_of_nat 10) EmptyString.

End Py.

(** ** [utils.py]: citation markers *)

(** The marker [[i]] and the link that replaces it. *)
Definition marker_pattern (i : nat) : string := "[" +:+ pretty i +:+ "]".

Definition link_replacement (i : nat) (source : gmap string string) : string :=
  let title := Py.get source "title" ("Source " +:+ pretty i) in
  let url := Py.get source "url" "#" in
  "[" +:+ title +:+ "](" +:+ url +:+ ")".

(** One iteration of the loop of [insert_citation_markers]; [i] is the
    1-based position that [enumerate(sources, 1)] gives to [source]. *)
Definition citation_step (modified_text : string) (i : nat)
    (source : gmap string string) : string :=
  if Py.contains (marker_pattern i) modified_text
  then Py.replace (marker_pattern i) (link_replacement i source) modified_text
  else modified_text.

Fixpoint citation_loop (i : nat) (sources : list (gmap string string))
    (modified_text : string) : string :=
  match sources with
  | [] => modified_text
  | source :: rest => citation_loop (S i) rest (citation_step modified_text i source)
  end.

Definition insert_citation_markers (text : string)
    (sources : list (gmap string string)) : string :=
  match sources with
  | [] => text
  | _ :: _ => citation_loop 1 sources text
  end.

(** A source dict as [web_research] builds it. *)
Definition source_info (url title snippet : string) : gmap string string :=
  <["url" := url]> (<["title" := title]> (<["snippet" := snippet]> ∅)).

(** *** The substitution as the specification words it

    The text is read once, from left to right.  Where the marker of a
    source starts, the link of that source is written and reading goes on
    behind the marker; any other character is copied.  A link that has
    been written is not read again. *)

(** The markers and links of a source list, numbered from [i]. *)
Fixpoint citation_table (i : nat) (sources : list (gmap string string))
    : list (string * string) :=
  match sources with
  | [] => []
  | source :: rest =>
      (marker_pattern i, link_replacement i source) :: citation_table (S i) rest
  end.

(** The first entry of the table whose marker starts [s]. *)
Fixpoint entry_at (table : list (string * string)) (s : string) : option (string * string) :=
  match table with
  | [] => None
  | (marker, link) :: rest =>
      if String.prefix marker s then Some (marker, link) else entry_at rest s
  end.

Fixpoint rewrite_once_from (table : list (string * string)) (skip : nat) (s : string) : string :=
  match s with
  | EmptyString => EmptyString
  | String c s' =>
      match skip with
      | S k => rewrite_once_from table k s'
      | O =>
          match entry_at table s with
          | Some (marker, link) =>
              link +:+ rewrite_once_from table (String.length marker - 1) s'
          | None => String c (rewrite_once_from table 0 s')
          end
      end
  end.

Definition spec_single_pass (text : string) (sources : list (gmap string string)) : string :=
  rewrite_once_from (citation_table 1 sources) 0 text.

(** No link contains the marker of a later source. *)
Fixpoint no_later_marker (i : nat) (sources : list (gmap string string)) : Prop :=
  match sources with
  | [] => True
  | source :: rest =>
      (forall j, (i < j <= i + length rest)%nat ->
         Py.contains (marker_pattern j) (link_replacement i source) = false) /\
      no_later_marker (S i) rest
  end.

(** [s] does not contain the character [x]. *)
Fixpoint no_char (x : ascii) (s : string) : Prop :=
  match s with
  | EmptyString => True
  | String c s' => c <> x /\ no_char x s'
  end.

(** A marker is a bracketed number, a link starts with a bracket and ends
    with a parenthesis. *)
Definition marker_shape (m : string) : Prop :=
  exists d, m = String "[" (d +:+ "]") /\ no_char "[" d /\ no_char "]" d /\ no_char ")" d.

Definition link_shape (l : string) : Prop :=
  exists body, l = String "[" (body +:+ ")").

(** ** [utils.py]: the other helpers *)

(** The message classes that [get_research_topic] tells apart with
    [isinstance], and every other class of [AnyMessage] (system, tool,
    ...), which its loop passes over. *)
Inductive AnyMessage : Type :=
  | human_message (text : string)
  | ai_message (text : string)
  | other_message (text : string).

Definition message_content (message : AnyMessage) : string :=
  match message with
  | human_message c | ai_message c | other_message c => c
  end.

(** The loop of [get_research_topic] over a history. *)
Fixpoint topic_loop (messages : list AnyMessage) (research_topic : string) : string :=
  match messages with
  | [] => research_topic
  | message :: rest =>
      topic_loop rest
        (match message with
         | human_message c => research_topic +:+ ("User: " +:+ c +:+ Py.nl)
         | ai_message c => research_topic +:+ ("Assistant: " +:+ c +:+ Py.nl)
         | other_message _ => research_topic
         end)
  end.

Definition get_research_topic (messages : list AnyMessage) : string :=
  match messages with
  | [message] => message_content message
  | _ => topic_loop messages ""
  end.

(** [f"{prefix}{id}-{idx}"] in [create_short_urls]. *)
Definition short_url (id : Z) (idx : nat) : string :=
  "https://search-results.com/id/" +:+ pretty id +:+ "-" +:+ pretty idx.

(** The loop of [create_short_urls] over [enumerate(sources)]. *)
Fixpoint short_urls_loop (id : Z) (idx : nat) (sources : list (gmap string string))
    (resolved_map : gmap string string) : gmap string string :=
  match sources with
  | [] => resolved_map
  | source :: rest =>
      let url := Py.get source "url" "" in
      short_urls_loop id (S idx) rest
        (match url with
         | EmptyString => resolved_map
         | String _ _ =>
             match resolved_map !! url with
             | Some _ => resolved_map
             | None => <[url := short_url id idx]> resolved_map
             end
         end)
  end.

Definition create_short_urls (sources : list (gmap string string)) (id : Z)
    : gmap string string :=
  short_urls_loop id 0 sources ∅.

(** [resolve_urls = create_short_urls] *)
Definition resolve_urls := create_short_urls.

(** [f"[{i}] [{title}]({url})"] in [format_sources_for_citation]. *)
Definition citation_line (i : nat) (source : gmap string string) : string :=
  let title := Py.get source "title" ("Source " +:+ pretty i) in
  let url := Py.get source "url" "#" in
  "[" +:+ pretty i +:+ "] [" +:+ title +:+ "](" +:+ url +:+ ")".

(** The loop of [format_sources_for_citation] over [enumerate(sources, 1)]. *)
Fixpoint citations_loop (i : nat) (sources : list (gmap string string))
    (citations : list string) : list string :=
  match sources with
  | [] => citations
  | source :: rest => citations_loop (S i) rest (citations ++ [citation_line i source])
  end.

Definition format_sources_for_citation (sources : list (gmap string string)) : string :=
  match sources with
  | [] => ""
  | _ :: _ => String.concat Py.nl (citations_loop 1 sources [])
  end.

(** The value stored under [i] by [create_citation_mapping]. *)
Definition citation_entry (i : nat) (source : gmap string string) : gmap string string :=
  <["title" := Py.get source "title" ("Source " +:+ pretty i)]>
    (<["url" := Py.get source "url" "#"]>
       (<["snippet" := Py.get source "snippet" ""]> ∅)).

(** The loop of [create_citation_mapping] over [enumerate(sources, 1)]. *)
Fixpoint citation_mapping_loop (i : nat) (sources : list (gmap string string))
    (mapping : gmap nat (gmap string string)) : gmap nat (gmap string string) :=
  match sources with
  | [] => mapping
  | source :: rest => citation_mapping_loop (S i) rest (<[i := citation_entry i source]> mapping)
  end.

Definition create_citation_mapping (sources : list (gmap string string))
    : gmap nat (gmap string string) :=
  citation_mapping_loop 1 sources ∅.

(** ** Data of the graph ([state.py], [tools_and_schemas.py], [configuration.py]) *)

Inductive Message : Type :=
  | HumanMessage (content : string)
  | AIMessage (content : string).

Definition content (m : Message) : string :=
  match m with HumanMessage c | AIMessage c => c end.

(** One record of the search capability, as [search_web] builds it. *)
Record SearchResult : Type := mkSearchResult {
  title : string;
  url : string;
  snippet : string
}.

(** An element of the [sources_gathered] list: [finalize_answer] tells
    dicts from lists with [isinstance]. *)
Inductive gathered : Type :=
  | source_dict (d : gmap string string)
  | source_list (l : list (gmap string string)).

(** Modelled from the spec: [state.py], which declares [OverallState], is
    not part of the sources.  The keys are those that [graph.py] reads and
    writes: the evidence lists of the spec's research state, the round
    count and the request parameters.  A key read with [state.get] may be
    absent ([None]); a node's return value is a partial state, where an
    absent list is []. *)
Record OverallState : Type := mkOverallState {
  messages : list Message;
  search_query : list string;
  web_research_result : list string;
  sources_gathered : list gathered;
  initial_search_query_count : option Z;
  max_research_loops : option Z;
  research_loop_count : option Z;
  reasoning_model : option string
}.

(** Modelled from the spec: [WebSearchState] of [state.py], the payload of
    a [Send]: a query text and its dispatch index. *)
Record WebSearchState : Type := mkWebSearchState {
  ws_search_query : string;
  ws_id : Z
}.

Record Send : Type := mkSend {
  send_node : string;
  send_arg : WebSearchState
}.

(** Modelled from the spec: [ReflectionState] of [state.py], as
    [evaluate_research] reads it: the five keys that [reflection] returns
    (the verdict, the round count, the number of queries run), and
    [max_research_loops], read with [state.get]. *)
Record ReflectionState : Type := mkReflectionState {
  is_sufficient : bool;
  knowledge_gap : string;
  follow_up_queries : list string;
  rs_research_loop_count : Z;
  number_of_ran_queries : Z;
  rs_max_research_loops : option Z
}.

(** Modelled from the spec: [Reflection] of [tools_and_schemas.py], the
    structured verdict of the reflection model. *)
Record Reflection : Type := mkReflection {
  r_is_sufficient : bool;
  r_knowledge_gap : string;
  r_follow_up_queries : list string
}.

(** The fields of [Configuration] that the graph reads. *)
Record Configuration : Type := mkConfiguration {
  query_generator_model : string;
  reflection_model : string;
  answer_model : string;
  number_of_initial_queries : Z;
  cfg_max_research_loops : Z
}.

(** The [params] of the request that [search_web] sends. *)
Record SearchParams : Type := mkSearchParams {
  engine : string;
  q : string;
  num : Z
}.

(** The decoded response; [organic_results] may be missing from it. *)
Record SearchData : Type := mkSearchData {
  organic_results : option (list (gmap string string))
}.

(** What a conditional edge returns: a node name or a list of [Send]. *)
Inductive Route : Type :=
  | to_finalize_answer
  | to_sends (sends : list Send).

(** How a run of the graph ends. *)
Inductive RunResult : Type :=
  | Finalized (st : OverallState) (answer : OverallState)
  | Halted (st : OverallState)
  | OutOfFuel.

(** The dispatch index carried by a [Send]. *)
Definition send_id (s : Send) : Z := ws_id (send_arg s).

(** A dispatch log in which every entry carries the number of entries
    before it. *)
Definition consecutive (log : list Send) : Prop :=
  map send_id log = map Z.of_nat (seq 0 (length log)).

(** The index of the query at position [k] of the dispatch log when
    [search_query] holds [p] entries at the first dispatch: the position
    for the first [p] queries, the position plus [p] from then on. *)
Definition index_at (p k : nat) : Z :=
  Z.of_nat (if (k <? p)%nat then k else p + k).

Definition planned_then_shifted (p : nat) (log : list Send) : Prop :=
  map send_id log = map (index_at p) (seq 0 (length log)).

(** A dispatch log whose indices are natural numbers and increase. *)
Definition numbered (log : list Send) : Prop :=
  StronglySorted Z.lt (map send_id log) /\ forall s, In s log -> 0 <= send_id s.

(** ** [configuration.py]: [Configuration.from_runnable_config]

    The method gathers one raw value per field of the model, from the
    process environment or from the [configurable] entry of the config,
    and hands those that are not [None] to the constructor of the pydantic
    model, which validates them and fills in the defaults. *)

(** A Python value of a config dict. *)
Inductive value : Type :=
  | v_none
  | v_str (s : string)
  | v_int (z : Z)
  | v_dict (items : list (string * Z)).

(** [v is None] *)
Definition is_none (v : value) : bool :=
  match v with v_none => true | _ => false end.

(** [cls.model_fields.keys()]: the fields in the order of declaration. *)
Definition model_fields : list string :=
  ["query_generator_model"; "reflection_model"; "answer_model"; "search_model";
   "number_of_initial_queries"; "max_research_loops"; "search_results_per_query";
   "max_tokens_per_model"].

(** [str.upper] on ASCII text, which the field names are. *)
Definition upper_ascii (c : ascii) : ascii :=
  let n := nat_of_ascii c in
  if ((97 <=? n) && (n <=? 122))%nat then ascii_of_nat (n - 32) else c.

Fixpoint upper (s : string) : string :=
  match s with
  | EmptyString => EmptyString
  | String c s' => String (upper_ascii c) (upper s')
  end.

(** A [RunnableConfig]: of its keys only ["configurable"] is read, and it
    may be missing. *)
Record RunnableConfig : Type := mkRunnableConfig {
  configurable_entry : option (gmap string value)
}.

(** [config["configurable"] if config and "configurable" in config else {}] *)
Definition configurable_of (config : option RunnableConfig) : gmap string value :=
  match config with
  | Some c =>
      match configurable_entry c with
      | Some d => d
      | None => ∅
      end
  | None => ∅
  end.

(** [os.environ.get(name.upper(), configurable.get(name))] *)
Definition raw_value (environ : gmap string string) (configurable : gmap string value)
    (name : string) : value :=
  match environ !! upper name with
  | Some s => v_str s
  | None => default v_none (configurable !! name)
  end.

(** The dict comprehension over the field names. *)
Fixpoint raw_values_loop (environ : gmap string string) (configurable : gmap string value)
    (names : list string) (raw_values : gmap string value) : gmap string value :=
  match names with
  | [] => raw_values
  | name :: rest =>
      raw_values_loop environ configurable rest
        (<[name := raw_value environ configurable name]> raw_values)
  end.

(** The dict [values], whose entries become the keyword arguments of the
    constructor. *)
Definition from_runnable_config_values (environ : gmap string string)
    (config : option RunnableConfig) : gmap string value :=
  let configurable := configurable_of config in
  let raw_values := raw_values_loop environ configurable model_fields ∅ in
  filter (fun kv => is_none kv.2 = false) raw_values.

(** ** Effects: exceptions, [print], the outside world *)

Inductive outcome (A : Type) : Type :=
  | Return (a : A)
  | Raise (e : string).
Arguments Return {A} a.
Arguments Raise {A} e.

(** [enumerate(l, start)] zipped with a function. *)
Fixpoint enumerate_from {A B} (f : nat -> A -> B) (start : nat) (l : list A) : list B :=
  match l with
  | [] => []
  | x :: rest => f start x :: enumerate_from f (S start) rest
  end.

(** Modelled from the spec: the reducer of a scalar key of [state.py],
    which keeps the last written value. *)
Definition last_value {A} (old new : option A) : option A :=
  match new with Some _ => new | None => old end.

(** Modelled from the spec: the reducers that [state.py] declares for
    [OverallState].  The evidence channels are append-only: [messages],
    [search_query], [web_research_result] and [sources_gathered]
    concatenate (which is why each [web_research] returns one-element
    lists); the other keys keep their last written value. *)
Definition merge (st upd : OverallState) : OverallState :=
  {| messages := messages st ++ messages upd;
     search_query := search_query st ++ search_query upd;
     web_research_result := web_research_result st ++ web_research_result upd;
     sources_gathered := sources_gathered st ++ sources_gathered upd;
     initial_search_query_count :=
       last_value (initial_search_query_count st) (initial_search_query_count upd);
     max_research_loops := last_value (max_research_loops st) (max_research_loops upd);
     research_loop_count := last_value (research_loop_count st) (research_loop_count upd);
     reasoning_model := last_value (reasoning_model st) (reasoning_model upd) |}.

Section Agent.

(** The state of everything outside the program (network, models, clock). *)
Variable World : Type.

(** What a computation can touch: the outside world, the lines printed
    so far, and the [Send] packets handed to the graph so far. *)
Record Env : Type := mkEnv {
  world : World;
  stdout : list string;
  dispatched : list Send
}.

(** A computation runs in an environment and ends by returning or raising;
    what it did to the environment stays done in both cases. *)
Definition M (A : Type) : Type := Env -> outcome A * Env.

Definition ret {A} (a : A) : M A := fun env => (Return a, env).

Definition raise {A} (e : string) : M A := fun env => (Raise e, env).

Definition bind {A B} (m : M A) (k : A -> M B) : M B :=
  fun env =>
    match m env with
    | (Return a, env') => k a env'
    | (Raise e, env') => (Raise e, env')
    end.

(** [try: m except Exception as e: handler(e)] *)
Definition try_except {A} (m : M A) (handler : string -> M A) : M A :=
  fun env =>
    match m env with
    | (Return a, env') => (Return a, env')
    | (Raise e, env') => handler e env'
    end.

Definition print (line : string) : M unit :=
  fun env =>
    (Return tt, {| world := world env; stdout := stdout env ++ [line];
                   dispatched := dispatched env |}).

(** Handing a list of [Send] packets to the graph. *)
Definition launch (sends : list Send) : M unit :=
  fun env =>
    (Return tt, {| world := world env; stdout := stdout env;
                   dispatched := dispatched env ++ sends |}).

(** A call of an outside capability. *)
Definition call {A} (capability : World -> outcome A * World) : M A :=
  fun env =>
    let '(res, w) := capability (world env) in
    (res, {| world := w; stdout := stdout env; dispatched := dispatched env |}).

Notation "x <- m ;; k" := (bind m (fun x => k))
  (at level 100, m at next level, right associativity).
Notation "m ;;; k" := (bind m (fun _ => k))
  (at level 100, right associativity).

(** *** The capabilities

    The requests library, the chat models and the prompt templates of
    [agent/prompts.py] are outside the sources: each call is a parameter
    that receives the values the request or the template is built from,
    and may raise. *)

(** [requests.get(search_url, params)], [raise_for_status], [json()]. *)
Variable search_api : SearchParams -> World -> outcome SearchData * World.

(** [llm.with_structured_output(SearchQueryList).invoke(prompt).query]
    for a model, a research topic and a number of queries. *)
Variable query_writer : string -> string -> Z -> World -> outcome (list string) * World.

(** [llm.invoke([HumanMessage(analysis_prompt)]).content] for a model,
    a research topic and the numbered search content. *)
Variable web_searcher : string -> string -> string -> World -> outcome string * World.

(** [llm.with_structured_output(Reflection).invoke(prompt)] for a model,
    a research topic and the joined summaries. *)
Variable reflector : string -> string -> string -> World -> outcome Reflection * World.

(** [llm.invoke([HumanMessage(prompt)]).content] of the answer model. *)
Variable answer_writer : string -> string -> string -> World -> outcome string * World.

Variable configurable : Configuration.

(** *** [graph.py] *)

(** One entry of [results] in [search_web]. *)
Definition search_result_of (result : gmap string string) : SearchResult :=
  {| title := Py.get result "title" "";
     url := Py.get result "link" "";
     snippet := Py.get result "snippet" "" |}.

Definition search_params (query : string) (num_results : Z) : SearchParams :=
  {| engine := "google"; q := query; num := Z.min num_results 10 |}.

Definition search_web (query : string) (num_results : Z) : M (list SearchResult) :=
  try_except
    (data <- call (search_api (search_params query num_results)) ;;
     ret (match organic_results data with
          | Some items => map search_result_of (Py.slice_to items num_results)
          | None => []
          end))
    (fun e => print ("Search API error: " +:+ e) ;;; ret []).

(** [state["messages"][-1].content] *)
Definition last_content (msgs : list Message) : M string :=
  match last (map content msgs) with
  | Some c => ret c
  | None => raise "IndexError: list index out of range"
  end.

Definition generate_query (state : OverallState) : M (list string) :=
  let number_queries :=
    match initial_search_query_count state with
    | Some n => n
    | None => number_of_initial_queries configurable
    end in
  research_topic <- last_content (messages state) ;;
  call (query_writer (query_generator_model configurable) research_topic number_queries).

Definition send_web_research (search_query : string) (id : Z) : Send :=
  {| send_node := "web_research";
     send_arg := {| ws_search_query := search_query; ws_id := id |} |}.

Definition continue_to_web_research (search_queries : list string) : list Send :=
  enumerate_from (fun idx search_query => send_web_research search_query (Z.of_nat idx))
    0 search_queries.

(** The block appended to [search_content] for result number [i]. *)
Definition search_block (i : nat) (result : SearchResult) : string :=
  Py.nl +:+ "[" +:+ pretty i +:+ "] " +:+ title result +:+ Py.nl
  +:+ "URL: " +:+ url result +:+ Py.nl
  +:+ "Snippet: " +:+ snippet result +:+ Py.nl +:+ "---" +:+ Py.nl.

(** The loop over [enumerate(search_results, 1)] in [web_research]. *)
Fixpoint collect_results (i : nat) (search_results : list SearchResult)
    (sources : list (gmap string string)) (search_content : string)
    : list (gmap string string) * string :=
  match search_results with
  | [] => (sources, search_content)
  | result :: rest =>
      collect_results (S i) rest
        (sources ++ [source_info (url result) (title result) (snippet result)])
        (search_content +:+ search_block i result)
  end.

Definition web_research (state : WebSearchState) : M OverallState :=
  search_results <- search_web (ws_search_query state) 8 ;;
  match search_results with
  | [] =>
      ret {| messages := [];
             search_query := [ws_search_query state];
             web_research_result :=
               ["No search results found for: " +:+ ws_search_query state];
             sources_gathered := [];
             initial_search_query_count := None; max_research_loops := None;
             research_loop_count := None; reasoning_model := None |}
  | _ :: _ =>
      let '(sources, search_content) := collect_results 1 search_results [] "" in
      response_text <-
        call (web_searcher (query_generator_model configurable)
                (ws_search_query state) search_content) ;;
      let modified_text := insert_citation_markers response_text sources in
      ret {| messages := [];
             search_query := [ws_search_query state];
             web_research_result := [modified_text];
             sources_gathered := map source_dict sources;
             initial_search_query_count := None; max_research_loops := None;
             research_loop_count := None; reasoning_model := None |}
  end.

Definition reflection (state : OverallState) : M ReflectionState :=
  let research_loop_count' := default 0 (research_loop_count state) + 1 in
  let reasoning_model' := default (reflection_model configurable) (reasoning_model state) in
  research_topic <- last_content (messages state) ;;
  let summaries :=
    String.concat (Py.nl +:+ Py.nl +:+ "---" +:+ Py.nl +:+ Py.nl)
      (web_research_result state) in
  result <- call (reflector reasoning_model' research_topic summaries) ;;
  ret {| is_sufficient := r_is_sufficient result;
         knowledge_gap := r_knowledge_gap result;
         follow_up_queries := r_follow_up_queries result;
         rs_research_loop_count := research_loop_count';
         number_of_ran_queries := Z.of_nat (length (search_query state));
         rs_max_research_loops := None |}.

Definition evaluate_research (state : ReflectionState) : Route :=
  let max_research_loops' :=
    Py.or_int (rs_max_research_loops state) (cfg_max_research_loops configurable) in
  if is_sufficient state || (rs_research_loop_count state >=? max_research_loops')
  then to_finalize_answer
  else
    to_sends
      (enumerate_from
         (fun idx follow_up_query =>
            send_web_research follow_up_query
              (number_of_ran_queries state + Z.of_nat idx))
         0 (follow_up_queries state)).

(** The loop of [finalize_answer] that fills [all_sources]. *)
Fixpoint collect_sources (gathered_sources : list gathered)
    (all_sources : list (gmap string string)) : list (gmap string string) :=
  match gathered_sources with
  | [] => all_sources
  | source_list l :: rest => collect_sources rest (all_sources ++ l)
  | source_dict d :: rest => collect_sources rest (all_sources ++ [d])
  end.

Definition finalize_answer (state : OverallState) : M OverallState :=
  let reasoning_model' := Py.or_str (reasoning_model state) (answer_model configurable) in
  research_topic <- last_content (messages state) ;;
  let summaries :=
    String.concat (Py.nl +:+ "---" +:+ Py.nl +:+ Py.nl) (web_research_result state) in
  result <- call (answer_writer reasoning_model' research_topic summaries) ;;
  let all_sources := collect_sources (sources_gathered state) [] in
  ret {| messages := [AIMessage result];
         search_query := [];
         web_research_result := [];
         sources_gathered := map source_dict all_sources;
         initial_search_query_count := None; max_research_loops := None;
         research_loop_count := None; reasoning_model := None |}.

(** *** The compiled graph

    [START -> generate_query -> web_research* -> reflection], then
    [evaluate_research] routes to [finalize_answer -> END] or to a new
    batch of [web_research].  The batch of a conditional edge is handed
    to the graph, every [web_research] of it runs, and the returns are
    merged into the state before [reflection] starts; a conditional edge
    that returns no [Send] schedules nothing and the run stops there. *)

Definition query_update (queries : list string) : OverallState :=
  {| messages := []; search_query := queries; web_research_result := [];
     sources_gathered := []; initial_search_query_count := None;
     max_research_loops := None; research_loop_count := None;
     reasoning_model := None |}.

(** The key of [reflection]'s return that [OverallState] declares. *)
Definition reflection_update (r : ReflectionState) : OverallState :=
  {| messages := []; search_query := []; web_research_result := [];
     sources_gathered := []; initial_search_query_count := None;
     max_research_loops := None;
     research_loop_count := Some (rs_research_loop_count r);
     reasoning_model := None |}.

(** What [evaluate_research] is given: [reflection]'s return on top of
    the state. *)
Definition reflection_view (st : OverallState) (r : ReflectionState) : ReflectionState :=
  {| is_sufficient := is_sufficient r;
     knowledge_gap := knowledge_gap r;
     follow_up_queries := follow_up_queries r;
     rs_research_loop_count := rs_research_loop_count r;
     number_of_ran_queries := number_of_ran_queries r;
     rs_max_research_loops := max_research_loops st |}.

(** The fan-in of one batch: the returns are merged in dispatch order, and
    an exception of one [web_research] ends the run. *)
Fixpoint await_all (st : OverallState) (sends : list Send) : M OverallState :=
  match sends with
  | [] => ret st
  | s :: rest =>
      upd <- web_research (send_arg s) ;;
      await_all (merge st upd) rest
  end.

(** The rounds of a run, from a batch that a conditional edge has
    returned; one unit of [fuel] is spent per round. *)
Fixpoint research_rounds (fuel : nat) (st : OverallState) (sends : list Send)
    {struct fuel} : M RunResult :=
  match sends with
  | [] => ret (Halted st)
  | _ :: _ =>
      match fuel with
      | O => ret OutOfFuel
      | S fuel' =>
          launch sends ;;;
          st1 <- await_all st sends ;;
          r <- reflection st1 ;;
          let st2 := merge st1 (reflection_update r) in
          match evaluate_research (reflection_view st2 r) with
          | to_finalize_answer =>
              answer <- finalize_answer st2 ;;
              ret (Finalized st2 answer)
          | to_sends next => research_rounds fuel' st2 next
          end
      end
  end.

(** The state once [generate_query] has returned: its return,
    [{"search_query": result.query}], is merged like every return, under
    the key that [web_research] appends to and [reflection] measures. *)
Definition planned_state (input : OverallState) (queries : list string) : OverallState :=
  merge input (query_update queries).

(** [state["search_query"]], as [continue_to_web_research] reads it. *)
Definition planned_queries (input : OverallState) (queries : list string) : list string :=
  search_query (planned_state input queries).

(** [graph.invoke(input)] *)
Definition graph (fuel : nat) (input : OverallState) : M RunResult :=
  queries <- generate_query input ;;
  research_rounds fuel (planned_state input queries)
    (continue_to_web_research (planned_queries input queries)).

(** The input of [run_agent.py]: only the question. *)
Definition run_agent_input (query : string) : OverallState :=
  {| messages := [HumanMessage query]; search_query := [];
     web_research_result := []; sources_gathered := [];
     initial_search_query_count := None; max_research_loops := None;
     research_loop_count := None; reasoning_model := None |}.

(** The input of [examples/cli_research.py]. *)
Definition cli_input (question : string) (initial_queries max_loops : Z)
    (answer_model' : string) : OverallState :=
  {| messages := [HumanMessage question]; search_query := [];
     web_research_result := []; sources_gathered := [];
     initial_search_query_count := Some initial_queries;
     max_research_loops := Some max_loops;
     research_loop_count := None; reasoning_model := Some answer_model' |}.

(** *** Vocabulary of the properties *)

(** A computation is quiet when it hands no [Send] to the graph. *)
Definition quiet {A} (m : M A) : Prop :=
  forall env, dispatched (snd (m env)) = dispatched env.

(** The Finding of a query without search results. *)
Definition no_results_finding (query : string) : OverallState :=
  {| messages := [];
     search_query := [query];
     web_research_result := ["No search results found for: " +:+ query];
     sources_gathered := [];
     initial_search_query_count := None; max_research_loops := None;
     research_loop_count := None; reasoning_model := None |}.

(** The sources that an element of [sources_gathered] stands for. *)
Definition sources_of (g : gathered) : list (gmap string string) :=
  match g with
  | source_dict d => [d]
  | source_list l => l
  end.

(** The URLs of a list of gathered sources, in order. *)
Definition urls_of (gathered_sources : list gathered) : list string :=
  flat_map (fun g => map (fun d => Py.get d "url" "") (sources_of g)) gathered_sources.

(** The number of completed evaluations ([state.get("research_loop_count", 0)]). *)
Definition round_count (st : OverallState) : Z := default 0 (research_loop_count st).

(** The round budget that [evaluate_research] computes. *)
Definition budget (st : OverallState) : Z :=
  Py.or_int (max_research_loops st) (cfg_max_research_loops configurable).

(** The state in which a run ended. *)
Definition final_state (res : RunResult) : option OverallState :=
  match res with
  | Finalized st _ | Halted st => Some st
  | OutOfFuel => None
  end.

(** A capability that answers every call. *)
Definition reliable {A} (capability : World -> outcome A * World) : Prop :=
  forall w, exists a w', capability w = (Return a, w').

(** An evaluator that is never satisfied and always asks for more. *)
Definition never_satisfied : Prop :=
  forall model topic summaries w, exists verdict w',
    reflector model topic summaries w = (Return verdict, w') /\
    r_is_sufficient verdict = false /\ r_follow_up_queries verdict <> [].

(** A planner that always proposes at least one query. *)
Definition plans_something : Prop :=
  forall model topic n w, exists queries w',
    query_writer model topic n w = (Return queries, w') /\ queries <> [].

(** *** [run_agent.py]

    [run_agent] invokes the graph on the question alone and turns the
    final state into the text that is shown; [configurable] is then the
    configuration that the [config] dict of [run_agent] gives. *)

(** [traceback.format_exc()] for the exception that has been caught. *)
Variable format_exc : string -> string.

(** The loop that stops at the first [AIMessage]. *)
Fixpoint first_ai_content (msgs : list Message) : string :=
  match msgs with
  | [] => ""
  | AIMessage c :: _ => c
  | HumanMessage _ :: rest => first_ai_content rest
  end.

(** The loop over [enumerate(sources, 1)] that lists the sources. *)
Fixpoint list_sources (i : nat) (sources : list gathered) (response_content : string)
    : string :=
  match sources with
  | [] => response_content
  | source_dict d :: rest =>
      list_sources (S i) rest
        (response_content +:+ pretty i +:+ ". " +:+ Py.get d "title" "Unknown Title"
           +:+ Py.nl +:+ "   " +:+ Py.get d "url" "No URL" +:+ Py.nl)
  | source_list _ :: rest => list_sources (S i) rest response_content
  end.

(** What [run_agent] makes of the final state [result]. *)
Definition response_of (result : OverallState) : string :=
  let response_content := first_ai_content (messages result) in
  match response_content with
  | EmptyString => "No answer generated."
  | String _ _ =>
      match sources_gathered result with
      | [] => response_content
      | _ :: _ =>
          list_sources 1 (sources_gathered result)
            (response_content +:+ Py.nl +:+ Py.nl +:+ "**Sources:**" +:+ Py.nl)
      end
  end.

(** The final state that [graph.invoke] returns: the return of the last
    node is merged like any other (the reducers of [merge]). *)
Definition invoke_result (res : RunResult) : option OverallState :=
  match res with
  | Finalized st answer => Some (merge st answer)
  | Halted st => Some st
  | OutOfFuel => None
  end.

Definition run_agent (fuel : nat) (query : string) : M (option string) :=
  try_except
    (res <- graph fuel (run_agent_input query) ;;
     ret (option_map response_of (invoke_result res)))
    (fun e =>
       print ("Full error details: " +:+ e) ;;;
       print ("Traceback: " +:+ format_exc e) ;;;
       ret (Some ("Error running agent: " +:+ e))).

(** [main] of [examples/cli_research.py], once the arguments are parsed:
    the run is not guarded, and the content of the last message of the
    final state is printed. *)
Definition cli_main (fuel : nat) (question : string) (initial_queries max_loops : Z)
    (answer_model' : string) : M (option unit) :=
  res <- graph fuel (cli_input question initial_queries max_loops answer_model') ;;
  match invoke_result res with
  | Some result =>
      match last (messages result) with
      | Some message => print (content message) ;;; ret (Some tt)
      | None => ret (Some tt)
      end
  | None => ret None
  end.

(** *** More vocabulary *)

(** An evaluator that answers every call and is satisfied at once. *)
Definition always_satisfied : Prop :=
  forall model topic summaries w, exists verdict w',
    reflector model topic summaries w = (Return verdict, w') /\
    r_is_sufficient verdict = true.

(** An evaluator that is not satisfied and proposes no follow-up query. *)
Definition gives_up : Prop :=
  forall model topic summaries w, exists verdict w',
    reflector model topic summaries w = (Return verdict, w') /\
    r_is_sufficient verdict = false /\ r_follow_up_queries verdict = [].

(** A search capability that fails at every call. *)
Definition search_is_down : Prop :=
  forall params w, exists e w', search_api params w = (Raise e, w').

(** The query texts of a list of [Send] packets, in order. *)
Definition queries_of (sends : list Send) : list string :=
  map (fun s => ws_search_query (send_arg s)) sends.

End Agent.

Arguments mkEnv {World}.
Arguments world {World}.
Arguments stdout {World}.
Arguments dispatched {World}.
Arguments quiet {World A} m.

(** ** A small concrete world, to run the graph on *)

Module Demo.

Definition cfg : Configuration :=
  {| query_generator_model := "gpt-4o-mini"; reflection_model := "gpt-4o-mini";
     answer_model := "gpt-4o"; number_of_initial_queries := 3;
     cfg_max_research_loops := 2 |}.

Definition env0 : Env unit := mkEnv tt [] [].

Definition item (t l : string) : gmap string string :=
  <["title" := t]> (<["link" := l]> ∅).

Definition api_two (p : SearchParams) (w : unit) : outcome SearchData * unit :=
  (Return {| organic_results := Some [item "X" "u1"; item "Y" "u2"] |}, w).
Definition api_notes (p : SearchParams) (w : unit) : outcome SearchData * unit :=
  (Return {| organic_results := Some [item "Notes [2]" "u1"; item "Y" "u2"] |}, w).
Definition api_eight (p : SearchParams) (w : unit) : outcome SearchData * unit :=
  if num p =? 8
  then (Return {| organic_results := Some [item "X" "u1"; item "Y" "u2"] |}, w)
  else (Return {| organic_results := Some [] |}, w).
Definition api_none (p : SearchParams) (w : unit) : outcome SearchData * unit :=
  (Return {| organic_results := Some [] |}, w).
Definition api_down (p : SearchParams) (w : unit) : outcome SearchData * unit :=
  (Raise "503 Server Error", w).

Definition planner (qs : list string) (m t : string) (n : Z) (w : unit)
    : outcome (list string) * unit := (Return qs, w).
Definition summarizer (text : string) (m t c : string) (w : unit)
    : outcome string * unit := (Return text, w).
Definition summarizer_down (m t c : string) (w : unit)
    : outcome string * unit := (Raise "Request timed out.", w).
Definition judge (v : Reflection) (m t s : string) (w : unit)
    : outcome Reflection * unit := (Return v, w).
Definition writer (text : string) (m t s : string) (w : unit)
    : outcome string * unit := (Return text, w).

Definition search_for (query : string) (id : Z) : WebSearchState :=
  {| ws_search_query := query; ws_id := id |}.

Definition src (u : string) : gmap string string := source_info u "" "".

Definition found_twice : OverallState :=
  {| messages := [HumanMessage "question"]; search_query := ["x"];
     web_research_result := ["text"];
     sources_gathered := [source_dict (src "a"); source_dict (src "b"); source_dict (src "a")];
     initial_search_query_count := None; max_research_loops := None;
     research_loop_count := None; reasoning_model := None |}.

Definition more_needed : Reflection :=
  {| r_is_sufficient := false; r_knowledge_gap := "gap"; r_follow_up_queries := ["more"] |}.

Definition answer_with (text : string) (sources : list gathered) : OverallState :=
  {| messages := [AIMessage text]; search_query := []; web_research_result := [];
     sources_gathered := sources;
     initial_search_query_count := None; max_research_loops := None;
     research_loop_count := None; reasoning_model := None |}.

Definition two_placeholders : OverallState :=
  {| messages := [HumanMessage "question"]; search_query := ["a"; "b"];
     web_research_result :=
       ["No search results found for: a"; "No search results found for: b"];
     sources_gathered := [];
     initial_search_query_count := None; max_research_loops := None;
     research_loop_count := None; reasoning_model := None |}.

Definition cited_finding : OverallState :=
  {| messages := []; search_query := ["q"];
     web_research_result := ["See [X](u1) and [Y](u2)."];
     sources_gathered :=
       [source_dict (source_info "u1" "X" ""); source_dict (source_info "u2" "Y" "")];
     initial_search_query_count := None; max_research_loops := None;
     research_loop_count := None; reasoning_model := None |}.

Definition satisfied : Reflection :=
  {| r_is_sufficient := true; r_knowledge_gap := ""; r_follow_up_queries := ["more"] |}.

Definition planner_down (m t : string) (n : Z) (w : unit)
    : outcome (list string) * unit := (Raise "Connection error.", w).

Definition traceback (e : string) : string :=
  "Traceback (most recent call last): " +:+ e.

Definition no_messages : OverallState :=
  {| messages := []; search_query := []; web_research_result := [];
     sources_gathered := []; initial_search_query_count := None;
     max_research_loops := None; research_loop_count := None;
     reasoning_model := None |}.

Definition history : list AnyMessage :=
  [human_message "What is Rocq?"; ai_message "A proof assistant.";
   other_message "tool output"; human_message "Who develops it?"].

Definition cfg_one : Configuration :=
  {| query_generator_model := "gpt-4o-mini"; reflection_model := "gpt-4o-mini";
     answer_model := "gpt-4o"; number_of_initial_queries := 3;
     cfg_max_research_loops := 1 |}.

Definition first_round (question : string) (max_loops : option Z)
    (model : option string) (count : option Z) : OverallState :=
  {| messages := [HumanMessage question]; search_query := ["a"; "a"];
     web_research_result := ["No search results found for: a"];
     sources_gathered := []; initial_search_query_count := count;
     max_research_loops := max_loops; research_loop_count := Some 1;
     reasoning_model := model |}.

Definition found_two : OverallState :=
  {| messages := [HumanMessage "question"]; search_query := ["a"; "a"];
     web_research_result := ["See [X](u1)."];
     sources_gathered :=
       [source_dict (source_info "u1" "X" ""); source_dict (source_info "u2" "Y" "")];
     initial_search_query_count := None; max_research_loops := None;
     research_loop_count := Some 1; reasoning_model := None |}.

Definition stuck : Reflection :=
  {| r_is_sufficient := false; r_knowledge_gap := "gap"; r_follow_up_queries := [] |}.

End Demo.

(** ** Properties *)

(** *** The examples of citation substitution *)

Example citation_two_sources :
  insert_citation_markers "See [1] and [2]."
    [source_info "u1" "X" ""; source_info "u2" "Y" ""]
  = "See [X](u1) and [Y](u2).".
Proof. vm_compute. reflexivity. Qed.

Example citation_unmatched_marker :
  insert_citation_markers "See [1], [2] and [3]."
    [source_info "u1" "X" ""; source_info "u2" "Y" ""]
  = "See [X](u1), [Y](u2) and [3].".
Proof. vm_compute. reflexivity. Qed.

(** *** Strings and lists *)

Lemma prefix_refl (s : string) : String.prefix s s = true.
Proof.
  induction s as [|c s IH]; simpl; [reflexivity|].
  destruct (ascii_dec c c); [exact IH | congruence].
Qed.

Lemma contains_prefix (sub s : string) :
  String.prefix sub s = true -> Py.contains sub s = true.
Proof. destruct s; simpl; intros ->; reflexivity. Qed.

Lemma contains_app_r (sub pre : string) : Py.contains sub (pre +:+ sub) = true.
Proof.
  induction pre as [|c pre IH]; simpl.
  - apply contains_prefix, prefix_refl.
  - rewrite IH. apply orb_true_r.
Qed.

Lemma enumerate_from_length {A B} (f : nat -> A -> B) (start : nat) (l : list A) :
  length (enumerate_from f start l) = length l.
Proof. revert start; induction l as [|x l IH]; intros start; simpl; [|rewrite IH]; reflexivity. Qed.

Lemma enumerate_from_ids {A} (f : nat -> A -> Send) (g : nat -> Z) (start : nat) (l : list A) :
  (forall i x, send_id (f i x) = g i) ->
  map send_id (enumerate_from f start l) = map g (seq start (length l)).
Proof.
  intros Hf. revert start; induction l as [|x l IH]; intros start; simpl.
  - reflexivity.
  - rewrite Hf, IH. reflexivity.
Qed.

(** *** Computations *)

Section Computations.

Context {World : Type}.

Lemma bind_Return_inv {A B} (m : M World A) (k : A -> M World B) env b env' :
  bind World m k env = (Return b, env') ->
  exists a env1, m env = (Return a, env1) /\ k a env1 = (Return b, env').
Proof.
  unfold bind. destruct (m env) as [[a|e] env1]; intros H.
  - exists a, env1. split; [reflexivity | exact H].
  - discriminate H.
Qed.

Lemma bind_Return {A B} (m : M World A) (k : A -> M World B) env a env1 :
  m env = (Return a, env1) -> bind World m k env = k a env1.
Proof. unfold bind. intros ->. reflexivity. Qed.

Lemma bind_Raise {A B} (m : M World A) (k : A -> M World B) env e env1 :
  m env = (Raise e, env1) -> bind World m k env = (Raise e, env1).
Proof. unfold bind. intros ->. reflexivity. Qed.

Lemma quiet_ret {A} (a : A) : quiet (ret World a).
Proof. intros env. reflexivity. Qed.

Lemma quiet_raise {A} (e : string) : quiet (@raise World A e).
Proof. intros env. reflexivity. Qed.

Lemma quiet_print (line : string) : quiet (print World line).
Proof. intros env. reflexivity. Qed.

Lemma quiet_call {A} (capability : World -> outcome A * World) :
  quiet (call World capability).
Proof. intros env. unfold call. destruct (capability (world env)). reflexivity. Qed.

Lemma quiet_bind {A B} (m : M World A) (k : A -> M World B) :
  quiet m -> (forall a, quiet (k a)) -> quiet (bind World m k).
Proof.
  intros Hm Hk env. unfold bind. specialize (Hm env).
  destruct (m env) as [[a|e] env1]; simpl in *.
  - rewrite Hk. exact Hm.
  - exact Hm.
Qed.

Lemma quiet_try_except {A} (m : M World A) (handler : string -> M World A) :
  quiet m -> (forall e, quiet (handler e)) -> quiet (try_except World m handler).
Proof.
  intros Hm Hh env. unfold try_except. specialize (Hm env).
  destruct (m env) as [[a|e] env1]; simpl in *.
  - exact Hm.
  - rewrite Hh. exact Hm.
Qed.

End Computations.

Create HintDb quiet.
#[global] Hint Resolve quiet_ret quiet_raise quiet_print quiet_call : quiet.

(** *** The nodes *)

Section AgentProperties.

Variable World : Type.
Variable search_api : SearchParams -> World -> outcome SearchData * World.
Variable query_writer : string -> string -> Z -> World -> outcome (list string) * World.
Variable web_searcher : string -> string -> string -> World -> outcome string * World.
Variable reflector : string -> string -> string -> World -> outcome Reflection * World.
Variable answer_writer : string -> string -> string -> World -> outcome string * World.
Variable configurable : Configuration.

Local Abbreviation search_web := (search_web World search_api).
Local Abbreviation generate_query := (generate_query World query_writer configurable).
Local Abbreviation web_research := (web_research World search_api web_searcher configurable).
Local Abbreviation reflection := (reflection World reflector configurable).
Local Abbreviation evaluate_research := (evaluate_research configurable).
Local Abbreviation finalize_answer := (finalize_answer World answer_writer configurable).
Local Abbreviation await_all := (await_all World search_api web_searcher configurable).
Local Abbreviation research_rounds :=
  (research_rounds World search_api web_searcher reflector answer_writer configurable).
Local Abbreviation graph :=
  (graph World search_api query_writer web_searcher reflector answer_writer configurable).
Local Abbreviation budget := (budget configurable).
Local Abbreviation reliable := (reliable World).
Local Abbreviation never_satisfied := (never_satisfied World reflector).
Local Abbreviation plans_something := (plans_something World query_writer).

Lemma slice_to_length {A} (l : list A) (k : Z) :
  0 <= k -> (length (Py.slice_to l k) <= Z.to_nat k)%nat.
Proof.
  intros Hk. unfold Py.slice_to.
  destruct (Z.ltb_spec k 0); [lia|]. rewrite length_firstn. lia.
Qed.

Lemma search_web_length query env results env' :
  search_web query 8 env = (Return results, env') -> (length results <= 8)%nat.
Proof.
  unfold search_web, try_except, bind, call, ret, print.
  destruct (search_api _ (world env)) as [[data|e] w]; intros H; inversion H; subst; clear H.
  - destruct (organic_results data) as [items|]; simpl; [|lia].
    rewrite length_map. apply (slice_to_length items 8). lia.
  - simpl. lia.
Qed.

Lemma collect_results_sources i search_results sources search_content :
  fst (collect_results i search_results sources search_content)
  = sources ++ map (fun r => source_info (url r) (title r) (snippet r)) search_results.
Proof.
  revert i sources search_content.
  induction search_results as [|r rest IH]; intros i sources search_content; simpl.
  - rewrite app_nil_r. reflexivity.
  - rewrite IH, <- app_assoc. reflexivity.
Qed.

(** [web_research] on the two branches of [if not search_results]. *)
Lemma web_research_no_results state env env1 :
  search_web (ws_search_query state) 8 env = (Return [], env1) ->
  web_research state env = (Return (no_results_finding (ws_search_query state)), env1).
Proof.
  intros H. unfold web_research. rewrite (bind_Return _ _ _ _ _ H). reflexivity.
Qed.

Lemma web_research_some_results state env r rs env1 :
  search_web (ws_search_query state) 8 env = (Return (r :: rs), env1) ->
  web_research state env =
  bind World
    (call World (web_searcher (query_generator_model configurable) (ws_search_query state)
                   (snd (collect_results 1 (r :: rs) [] ""))))
    (fun response_text =>
       ret World
         {| messages := [];
            search_query := [ws_search_query state];
            web_research_result :=
              [insert_citation_markers response_text
                 (fst (collect_results 1 (r :: rs) [] ""))];
            sources_gathered := map source_dict (fst (collect_results 1 (r :: rs) [] ""));
            initial_search_query_count := None; max_research_loops := None;
            research_loop_count := None; reasoning_model := None |}) env1.
Proof.
  intros H. unfold web_research. rewrite (bind_Return _ _ _ _ _ H).
  destruct (collect_results 1 (r :: rs) [] "") as [sources search_content]. reflexivity.
Qed.

(** Whatever [web_research] returns has one query, one result and no
    other key than the three evidence lists. *)
Lemma web_research_returns state env upd env' :
  web_research state env = (Return upd, env') ->
  search_query upd = [ws_search_query state] /\
  length (web_research_result upd) = 1%nat /\
  (length (sources_gathered upd) <= 8)%nat /\
  messages upd = [] /\
  initial_search_query_count upd = None /\ max_research_loops upd = None /\
  research_loop_count upd = None /\ reasoning_model upd = None.
Proof.
  intros H.
  destruct (search_web (ws_search_query state) 8 env) as [[results|e] env1] eqn:Hs.
  - destruct results as [|r rs].
    + rewrite (web_research_no_results _ _ _ Hs) in H. inversion H; subst; clear H.
      simpl. repeat split; try reflexivity. lia.
    + rewrite (web_research_some_results _ _ _ _ _ Hs) in H.
      apply bind_Return_inv in H as (text & env2 & _ & H).
      inversion H; subst; clear H. cbn [search_query web_research_result sources_gathered
        messages initial_search_query_count max_research_loops research_loop_count
        reasoning_model].
      repeat split; try reflexivity.
      rewrite length_map, collect_results_sources. cbn [app length]. rewrite length_map.
      exact (search_web_length _ _ _ _ Hs).
  - unfold web_research in H. rewrite (bind_Raise _ _ _ _ _ Hs) in H. discriminate H.
Qed.

Lemma quiet_last_content msgs : quiet (last_content World msgs).
Proof. unfold last_content. destruct (last _); auto with quiet. Qed.

Lemma quiet_search_web query num_results : quiet (search_web query num_results).
Proof.
  unfold search_web.
  apply quiet_try_except; intros; apply quiet_bind; intros; auto with quiet.
Qed.

Lemma quiet_web_research state : quiet (web_research state).
Proof.
  unfold web_research. apply quiet_bind; [apply quiet_search_web|].
  intros [|r rs]; [auto with quiet|].
  destruct (collect_results 1 (r :: rs) [] "") as [sources search_content].
  apply quiet_bind; intros; auto with quiet.
Qed.

Lemma quiet_await_all sends : forall st, quiet (await_all st sends).
Proof.
  induction sends as [|s rest IH]; intros st; simpl; [auto with quiet|].
  apply quiet_bind; [apply quiet_web_research | intros; apply IH].
Qed.

Lemma quiet_generate_query state : quiet (generate_query state).
Proof.
  unfold generate_query.
  apply quiet_bind; [apply quiet_last_content | intros; auto with quiet].
Qed.

Lemma quiet_reflection state : quiet (reflection state).
Proof.
  unfold reflection.
  apply quiet_bind; [apply quiet_last_content | intros].
  apply quiet_bind; intros; auto with quiet.
Qed.

Lemma quiet_finalize_answer state : quiet (finalize_answer state).
Proof.
  unfold finalize_answer.
  apply quiet_bind; [apply quiet_last_content | intros].
  apply quiet_bind; intros; auto with quiet.
Qed.

(** What a completed fan-in has done to the state. *)
Lemma await_all_returns sends : forall st env st' env',
  await_all st sends env = (Return st', env') ->
  search_query st' = search_query st ++ map (fun s => ws_search_query (send_arg s)) sends /\
  length (web_research_result st') = (length (web_research_result st) + length sends)%nat /\
  messages st' = messages st /\
  initial_search_query_count st' = initial_search_query_count st /\
  max_research_loops st' = max_research_loops st /\
  research_loop_count st' = research_loop_count st /\
  reasoning_model st' = reasoning_model st.
Proof.
  induction sends as [|s rest IH]; intros st env st' env' H; simpl in H.
  - inversion H; subst; clear H. simpl. rewrite app_nil_r.
    repeat split; try reflexivity. lia.
  - apply bind_Return_inv in H as (upd & env1 & Hw & H).
    apply web_research_returns in Hw
      as (Hq & Hr & _ & Hm & Hi & Hx & Hc & Hrm).
    apply IH in H as (Hq' & Hr' & Hm' & Hi' & Hx' & Hc' & Hrm').
    rewrite Hq', Hr', Hm', Hi', Hx', Hc', Hrm'. simpl.
    rewrite Hq, Hm, Hi, Hx, Hc, Hrm, length_app, Hr, <- app_assoc, app_nil_r. simpl.
    repeat split; try reflexivity. lia.
Qed.

(** C7: a query whose search returns zero results gives a Finding with no
    sources and the non-empty placeholder text that names the query;
    [web_research] returns normally and the fan-in goes on with the next
    query. *)
Theorem zero_results_give_placeholder_finding state env env1
    (Hzero : search_web (ws_search_query state) 8 env = (Return [], env1)) :
  exists finding,
    web_research state env = (Return finding, env1) /\
    sources_gathered finding = [] /\
    web_research_result finding =
      ["No search results found for: " +:+ ws_search_query state] /\
    "No search results found for: " +:+ ws_search_query state <> "" /\
    Py.contains (ws_search_query state)
      ("No search results found for: " +:+ ws_search_query state) = true /\
    forall st s rest,
      send_arg s = state ->
      await_all st (s :: rest) env = await_all (merge st finding) rest env1.
Proof.
  exists (no_results_finding (ws_search_query state)).
  pose proof (web_research_no_results _ _ _ Hzero) as Hw.
  repeat split; try assumption; try reflexivity.
  - discriminate.
  - apply contains_app_r.
  - intros st s rest <-. simpl. rewrite (bind_Return _ _ _ _ _ Hw). reflexivity.
Qed.

(** C8: when the fan-in of a batch completes, the evidence store has
    grown by exactly one finding and one query per dispatched [Send];
    every return of [web_research] carries exactly one of each. *)
Theorem fan_in_adds_one_finding_per_query st sends env st' env'
    (Hdone : await_all st sends env = (Return st', env')) :
  length (web_research_result st') = (length (web_research_result st) + length sends)%nat /\
  length (search_query st') = (length (search_query st) + length sends)%nat /\
  forall state e upd e',
    web_research state e = (Return upd, e') ->
    length (web_research_result upd) = 1%nat /\ length (search_query upd) = 1%nat.
Proof.
  apply await_all_returns in Hdone as (Hq & Hr & _).
  split; [exact Hr|]. split.
  - rewrite Hq, length_app, length_map. reflexivity.
  - intros state e upd e' Hw.
    apply web_research_returns in Hw as (Hq1 & Hr1 & _).
    rewrite Hq1. split; [exact Hr1 | reflexivity].
Qed.

(** C9: the runner asks for 8 results: what [web_research] returns is
    made from the response to the one request
    [{engine: google, q: query, num: 8}].  The sources of the Finding are
    the first eight items of that response (none when the request
    fails), so there are at most 8 of them, and the count of a request is
    clamped to 10 whatever number is asked for. *)
Theorem at_most_eight_sources state env upd env'
    (Hret : web_research state env = (Return upd, env')) :
  (length (sources_gathered upd) <= 8)%nat /\
  match search_api {| engine := "google"; q := ws_search_query state; num := 8 |}
          (world env) with
  | (Return data, w) =>
      sources_gathered upd =
        map (fun item =>
               source_dict
                 (source_info (Py.get item "link" "") (Py.get item "title" "")
                    (Py.get item "snippet" "")))
          (firstn 8 (default [] (organic_results data)))
  | (Raise e, w) =>
      sources_gathered upd = [] /\
      stdout env' = stdout env ++ ["Search API error: " +:+ e]
  end /\
  (forall query num_results,
     num (search_params query num_results) = Z.min num_results 10 /\
     num (search_params query num_results) <= 10).
Proof.
  split; [|split].
  - apply web_research_returns in Hret as (_ & _ & Hlen & _). exact Hlen.
  - change {| engine := "google"; q := ws_search_query state; num := 8 |}
      with (search_params (ws_search_query state) 8).
    destruct (search_api (search_params (ws_search_query state) 8) (world env))
      as [[data|e] w] eqn:Hsearch.
    + assert (Hs : search_web (ws_search_query state) 8 env =
                   (Return (map search_result_of
                              (firstn 8 (default [] (organic_results data)))),
                    {| world := w; stdout := stdout env; dispatched := dispatched env |})).
      { unfold search_web, try_except, bind, call, ret. rewrite Hsearch.
        destruct (organic_results data); reflexivity. }
      destruct (map search_result_of (firstn 8 (default [] (organic_results data))))
        as [|r rs] eqn:Hres.
      * rewrite (web_research_no_results _ _ _ Hs) in Hret.
        inversion Hret; subst; clear Hret. cbn [no_results_finding sources_gathered].
        apply map_eq_nil in Hres. rewrite Hres. reflexivity.
      * rewrite (web_research_some_results _ _ _ _ _ Hs) in Hret.
        apply bind_Return_inv in Hret as (text & env2 & _ & Hret).
        inversion Hret; subst; clear Hret. cbn [sources_gathered].
        rewrite collect_results_sources.
        change ([source_info (url r) (title r) (snippet r)] ++
                map (fun r0 => source_info (url r0) (title r0) (snippet r0)) rs)
          with (map (fun r0 => source_info (url r0) (title r0) (snippet r0)) (r :: rs)).
        rewrite <- Hres, !map_map. reflexivity.
    + assert (Hs : search_web (ws_search_query state) 8 env =
                   (Return [],
                    {| world := w; stdout := stdout env ++ ["Search API error: " +:+ e];
                       dispatched := dispatched env |})).
      { unfold search_web, try_except, bind, call, print, ret. rewrite Hsearch. reflexivity. }
      rewrite (web_research_no_results _ _ _ Hs) in Hret.
      inversion Hret; subst; clear Hret. split; reflexivity.
  - intros query num_results. cbn [search_params num]. split; [reflexivity | lia].
Qed.

(** C3 (amended): a failure of the search call does not abort the run:
    [search_web] catches it and prints the error message, and
    [web_research] returns the same Finding as for zero results, which does
    not carry the message.  A failure of the summarization call is not
    caught: it leaves [web_research], and with it the fan-in of the batch,
    as an exception. *)
Theorem search_failure_degrades_summary_failure_propagates state env e w'
    (Hfail : search_api (search_params (ws_search_query state) 8) (world env)
             = (Raise e, w')) :
  web_research state env =
    (Return (no_results_finding (ws_search_query state)),
     {| world := w';
        stdout := stdout env ++ ["Search API error: " +:+ e];
        dispatched := dispatched env |}) /\
  forall state2 env2 r rs env3 e2 w2,
    search_web (ws_search_query state2) 8 env2 = (Return (r :: rs), env3) ->
    web_searcher (query_generator_model configurable) (ws_search_query state2)
      (snd (collect_results 1 (r :: rs) [] "")) (world env3) = (Raise e2, w2) ->
    fst (web_research state2 env2) = Raise e2 /\
    forall st s rest,
      send_arg s = state2 -> fst (await_all st (s :: rest) env2) = Raise e2.
Proof.
  split.
  - apply web_research_no_results.
    unfold search_web, try_except, bind, call, print, ret.
    rewrite Hfail. reflexivity.
  - intros state2 env2 r rs env3 e2 w2 Hs Hsum.
    assert (Hraise : fst (web_research state2 env2) = Raise e2).
    { rewrite (web_research_some_results _ _ _ _ _ Hs).
      unfold bind, call. rewrite Hsum. reflexivity. }
    split; [exact Hraise|].
    intros st s rest <-. simpl. unfold bind at 1.
    destruct (web_research (send_arg s) env2) as [[upd|e'] env4];
      simpl in Hraise; [discriminate | exact Hraise].
Qed.

(** The two ways in which [evaluate_research] finalizes. *)
Lemma evaluate_research_sufficient (state : ReflectionState) :
  is_sufficient state = true -> evaluate_research state = to_finalize_answer.
Proof. unfold evaluate_research. intros ->. reflexivity. Qed.

Lemma evaluate_research_exhausted (state : ReflectionState) :
  rs_research_loop_count state >=
    Py.or_int (rs_max_research_loops state) (cfg_max_research_loops configurable) ->
  evaluate_research state = to_finalize_answer.
Proof.
  unfold evaluate_research. intros Hge.
  destruct (Z.geb_spec (rs_research_loop_count state)
    (Py.or_int (rs_max_research_loops state) (cfg_max_research_loops configurable))) as [_|Hlt];
    [|lia].
  rewrite orb_true_r. reflexivity.
Qed.

(** C2: a sufficient verdict routes to [finalize_answer] whatever the
    round count, the budget and the follow-up queries are, and so does
    an insufficient verdict once the round count has reached the budget. *)
Theorem sufficiency_then_budget_finalizes (state : ReflectionState)
    (Hverdict :
       is_sufficient state = true \/
       rs_research_loop_count state >=
         Py.or_int (rs_max_research_loops state) (cfg_max_research_loops configurable)) :
  evaluate_research state = to_finalize_answer.
Proof.
  destruct Hverdict as [Hyes | Hge].
  - apply evaluate_research_sufficient, Hyes.
  - apply evaluate_research_exhausted, Hge.
Qed.

Lemma collect_sources_flat gathered_sources all_sources :
  collect_sources gathered_sources all_sources
  = all_sources ++ flat_map sources_of gathered_sources.
Proof.
  revert all_sources.
  induction gathered_sources as [|g rest IH]; intros all_sources; simpl.
  - rewrite app_nil_r. reflexivity.
  - destruct g as [d|l]; rewrite IH, <- app_assoc; reflexivity.
Qed.

Lemma flat_map_source_dict (sources : list (gmap string string)) :
  flat_map sources_of (map source_dict sources) = sources.
Proof. induction sources as [|d rest IH]; simpl; [|rewrite IH]; reflexivity. Qed.

Lemma urls_of_flat (gathered_sources : list gathered) :
  urls_of gathered_sources
  = map (fun d => Py.get d "url" "") (flat_map sources_of gathered_sources).
Proof.
  induction gathered_sources as [|g rest IH]; [reflexivity|].
  unfold urls_of in *. simpl. rewrite IH, map_app. reflexivity.
Qed.

(** C4 (amended): [finalize_answer] returns every gathered source, in
    the order the findings were produced, and drops none: a URL that
    was found twice is listed twice. *)
Theorem finalize_answer_keeps_every_source state env answer env'
    (Hret : finalize_answer state env = (Return answer, env')) :
  sources_gathered answer
    = map source_dict (flat_map sources_of (sources_gathered state)) /\
  urls_of (sources_gathered answer) = urls_of (sources_gathered state) /\
  (forall sources,
     sources_gathered state = map source_dict sources ->
     sources_gathered answer = sources_gathered state).
Proof.
  unfold finalize_answer in Hret.
  apply bind_Return_inv in Hret as (topic & env1 & _ & Hret).
  apply bind_Return_inv in Hret as (text & env2 & _ & Hret).
  inversion Hret; subst; clear Hret. simpl.
  rewrite collect_sources_flat. simpl. split; [reflexivity|]. split.
  - rewrite !urls_of_flat, flat_map_source_dict. reflexivity.
  - intros sources ->. rewrite flat_map_source_dict. reflexivity.
Qed.

(** *** The rounds of a run *)

Lemma reflection_returns st env r env' :
  reflection st env = (Return r, env') ->
  rs_research_loop_count r = round_count st + 1 /\
  number_of_ran_queries r = Z.of_nat (length (search_query st)) /\
  exists verdict,
    is_sufficient r = r_is_sufficient verdict /\
    follow_up_queries r = r_follow_up_queries verdict.
Proof.
  unfold reflection. intros H.
  apply bind_Return_inv in H as (topic & env1 & _ & H).
  apply bind_Return_inv in H as (verdict & env2 & _ & H).
  inversion H; subst; clear H. simpl.
  repeat split. exists verdict. split; reflexivity.
Qed.

Lemma evaluate_research_sends state next :
  evaluate_research state = to_sends next ->
  is_sufficient state = false /\
  rs_research_loop_count state <
    Py.or_int (rs_max_research_loops state) (cfg_max_research_loops configurable) /\
  length next = length (follow_up_queries state) /\
  map send_id next =
    map (fun i => number_of_ran_queries state + Z.of_nat i)
      (seq 0 (length (follow_up_queries state))).
Proof.
  unfold evaluate_research.
  destruct (is_sufficient state); [discriminate|]. simpl.
  destruct (Z.geb_spec (rs_research_loop_count state)
    (Py.or_int (rs_max_research_loops state) (cfg_max_research_loops configurable)))
    as [|Hbelow]; [discriminate|].
  intros Hnext. inversion Hnext; subst; clear Hnext.
  repeat split; [assumption | apply enumerate_from_length |].
  apply enumerate_from_ids. reflexivity.
Qed.

(** The state after [reflection]'s return has been merged. *)
Lemma after_reflection st st1 r :
  max_research_loops st1 = max_research_loops st ->
  research_loop_count st1 = research_loop_count st ->
  rs_research_loop_count r = round_count st1 + 1 ->
  let st2 := merge st1 (reflection_update r) in
  budget st2 = budget st /\
  round_count st2 = round_count st + 1 /\
  rs_research_loop_count (reflection_view st2 r) = round_count st2 /\
  Py.or_int (rs_max_research_loops (reflection_view st2 r))
    (cfg_max_research_loops configurable) = budget st2 /\
  messages st2 = messages st1 /\
  search_query st2 = search_query st1.
Proof.
  intros Hmax Hcount Hinc. unfold budget, round_count in *. simpl.
  rewrite Hmax, Hinc, Hcount, !app_nil_r. repeat split; reflexivity.
Qed.

(** Unfolding one round. *)
Lemma research_rounds_step fuel st s rest env :
  research_rounds (S fuel) st (s :: rest) env =
  bind World (await_all st (s :: rest))
    (fun st1 =>
       bind World (reflection st1)
         (fun r =>
            let st2 := merge st1 (reflection_update r) in
            match evaluate_research (reflection_view st2 r) with
            | to_finalize_answer =>
                bind World (finalize_answer st2) (fun answer => ret World (Finalized st2 answer))
            | to_sends next => research_rounds fuel st2 next
            end))
    {| world := world env; stdout := stdout env;
       dispatched := dispatched env ++ s :: rest |}.
Proof. reflexivity. Qed.

(** The budget invariant of the loop: a round starts below the budget
    and every state the loop ends in is within it. *)
Lemma research_rounds_within_budget fuel : forall st sends env res env' st',
  round_count st < budget st ->
  research_rounds fuel st sends env = (Return res, env') ->
  final_state res = Some st' ->
  round_count st <= round_count st' <= budget st /\ budget st' = budget st.
Proof.
  induction fuel as [|fuel IH]; intros st sends env res env' st' Hlt Hrun Hfin.
  - destruct sends; simpl in Hrun; inversion Hrun; subst; clear Hrun;
      simpl in Hfin; inversion Hfin; subst. split; [lia | reflexivity].
  - destruct sends as [|s rest].
    + simpl in Hrun. inversion Hrun; subst; clear Hrun.
      simpl in Hfin. inversion Hfin; subst. split; [lia | reflexivity].
    + rewrite research_rounds_step in Hrun.
      apply bind_Return_inv in Hrun as (st1 & env1 & Hawait & Hrun).
      apply bind_Return_inv in Hrun as (r & env2 & Hrefl & Hrun).
      apply await_all_returns in Hawait as (_ & _ & _ & _ & Hmax & Hcount & _).
      apply reflection_returns in Hrefl as (Hinc & _).
      destruct (after_reflection st st1 r Hmax Hcount Hinc) as (Hb2 & Hc2 & Hr & Hm & _).
      cbv zeta in Hrun, Hb2, Hc2, Hr, Hm.
      set (st2 := merge st1 (reflection_update r)) in *. clearbody st2.
      destruct (evaluate_research (reflection_view st2 r)) as [|next] eqn:Heval.
      * apply bind_Return_inv in Hrun as (answer & env3 & _ & Hrun).
        inversion Hrun; subst; clear Hrun. simpl in Hfin. inversion Hfin; subst.
        split; [lia | exact Hb2].
      * apply evaluate_research_sends in Heval as (_ & Hbelow & _).
        rewrite Hr, Hm in Hbelow.
        assert (Hlt2 : round_count st2 < budget st2) by lia.
        destruct (IH _ _ _ _ _ _ Hlt2 Hrun Hfin) as [Hle Hb].
        split; [lia | congruence].
Qed.

(** The loop never runs out of fuel when given one unit per round left. *)
Lemma research_rounds_enough_fuel fuel : forall st sends env,
  round_count st < budget st ->
  (Z.to_nat (budget st - round_count st) <= fuel)%nat ->
  fst (research_rounds fuel st sends env) <> Return OutOfFuel.
Proof.
  induction fuel as [|fuel IH]; intros st sends env Hlt Hfuel; [lia|].
  destruct sends as [|s rest]; [simpl; discriminate|].
  rewrite research_rounds_step. unfold bind at 1.
  destruct (await_all st (s :: rest) _) as [[st1|e] env1] eqn:Hawait; [|simpl; discriminate].
  unfold bind at 1.
  destruct (reflection st1 env1) as [[r|e] env2] eqn:Hrefl; [|simpl; discriminate].
  apply await_all_returns in Hawait as (_ & _ & _ & _ & Hmax & Hcount & _).
  apply reflection_returns in Hrefl as (Hinc & _).
  destruct (after_reflection st st1 r Hmax Hcount Hinc) as (Hb2 & Hc2 & Hr & Hm & _).
  cbv zeta in Hb2, Hc2, Hr, Hm |- *.
  set (st2 := merge st1 (reflection_update r)) in *. clearbody st2.
  destruct (evaluate_research (reflection_view st2 r)) as [|next] eqn:Heval.
  - unfold bind. destruct (finalize_answer st2 env2) as [[answer|e] env3]; simpl; discriminate.
  - apply evaluate_research_sends in Heval as (_ & Hbelow & _).
    rewrite Hr, Hm in Hbelow.
    apply IH; lia.
Qed.

(** *** Runs in which the capabilities answer *)

Lemma call_Return {A} (capability : World -> outcome A * World) env a w' :
  capability (world env) = (Return a, w') ->
  call World capability env
  = (Return a, {| world := w'; stdout := stdout env; dispatched := dispatched env |}).
Proof. unfold call. intros ->. reflexivity. Qed.

Lemma search_web_total query num_results env :
  exists results env', search_web query num_results env = (Return results, env').
Proof.
  unfold search_web, try_except, bind, call, ret, print.
  destruct (search_api _ (world env)) as [[data|e] w]; eauto.
Qed.

Lemma web_research_total state env :
  (forall model topic found, reliable (web_searcher model topic found)) ->
  exists upd env', web_research state env = (Return upd, env').
Proof.
  intros Hsum.
  destruct (search_web_total (ws_search_query state) 8 env) as (results & env1 & Hs).
  destruct results as [|r rs].
  - rewrite (web_research_no_results _ _ _ Hs). eauto.
  - rewrite (web_research_some_results _ _ _ _ _ Hs).
    destruct (Hsum (query_generator_model configurable) (ws_search_query state)
                (snd (collect_results 1 (r :: rs) [] "")) (world env1)) as (text & w' & Hc).
    rewrite (bind_Return _ _ _ _ _ (call_Return _ _ _ _ Hc)). unfold ret. eauto.
Qed.

Lemma await_all_total sends :
  (forall model topic found, reliable (web_searcher model topic found)) ->
  forall st env, exists st' env', await_all st sends env = (Return st', env').
Proof.
  intros Hsum. induction sends as [|s rest IH]; intros st env; simpl.
  - unfold ret. eauto.
  - destruct (web_research_total (send_arg s) env Hsum) as (upd & env1 & Hw).
    rewrite (bind_Return _ _ _ _ _ Hw). apply IH.
Qed.

Lemma last_content_total msgs :
  msgs <> [] -> exists c, last_content World msgs = ret World c.
Proof.
  intros Hne. unfold last_content.
  destruct (last (map content msgs)) as [c|] eqn:Hlast; [eauto|].
  apply last_None in Hlast. destruct msgs; [congruence | discriminate Hlast].
Qed.

Lemma reflection_never_satisfied st env :
  never_satisfied -> messages st <> [] ->
  exists r env',
    reflection st env = (Return r, env') /\
    is_sufficient r = false /\ follow_up_queries r <> [].
Proof.
  intros Hjudge Hmsg. unfold reflection.
  destruct (last_content_total _ Hmsg) as (topic & ->).
  rewrite (bind_Return _ _ _ topic env eq_refl).
  match goal with
  | |- context [call World (reflector ?m ?t ?s)] =>
      destruct (Hjudge m t s (world env)) as (verdict & w' & Hc & Hins & Hfu)
  end.
  rewrite (bind_Return _ _ _ _ _ (call_Return _ _ _ _ Hc)).
  unfold ret. eexists _, _. split; [reflexivity|]. simpl. split; assumption.
Qed.

Lemma finalize_answer_total st env :
  (forall model topic summaries, reliable (answer_writer model topic summaries)) ->
  messages st <> [] ->
  exists answer env', finalize_answer st env = (Return answer, env').
Proof.
  intros Hans Hmsg. unfold finalize_answer.
  destruct (last_content_total _ Hmsg) as (topic & ->).
  rewrite (bind_Return _ _ _ topic env eq_refl).
  match goal with
  | |- context [call World (answer_writer ?m ?t ?s)] =>
      destruct (Hans m t s (world env)) as (text & w' & Hc)
  end.
  rewrite (bind_Return _ _ _ _ _ (call_Return _ _ _ _ Hc)).
  unfold ret. eauto.
Qed.

(** With an evaluator that is never satisfied the loop spends the whole
    budget and then finalizes. *)
Lemma research_rounds_spend_budget fuel : forall st sends env,
  never_satisfied ->
  (forall model topic found, reliable (web_searcher model topic found)) ->
  (forall model topic summaries, reliable (answer_writer model topic summaries)) ->
  messages st <> [] -> sends <> [] ->
  round_count st < budget st ->
  (Z.to_nat (budget st - round_count st) <= fuel)%nat ->
  exists st' answer env',
    research_rounds fuel st sends env = (Return (Finalized st' answer), env') /\
    round_count st' = budget st.
Proof.
  induction fuel as [|fuel IH];
    intros st sends env Hjudge Hsum Hans Hmsg Hne Hlt Hfuel; [lia|].
  destruct sends as [|s rest]; [congruence|].
  rewrite research_rounds_step.
  match goal with
  | |- context [bind World (await_all st (s :: rest)) _ ?e] =>
      destruct (await_all_total (s :: rest) Hsum st e) as (st1 & env1 & Hawait)
  end.
  rewrite (bind_Return _ _ _ _ _ Hawait).
  apply await_all_returns in Hawait as (_ & _ & Hmsg1 & _ & Hmax & Hcount & _).
  assert (Hmsg1' : messages st1 <> []) by (rewrite Hmsg1; exact Hmsg).
  destruct (reflection_never_satisfied st1 env1 Hjudge Hmsg1')
    as (r & env2 & Hrefl & Hins & Hfu).
  rewrite (bind_Return _ _ _ _ _ Hrefl).
  apply reflection_returns in Hrefl as (Hinc & _).
  destruct (after_reflection st st1 r Hmax Hcount Hinc) as (Hb2 & Hc2 & Hr & Hm & Hmsg2 & _).
  cbv zeta in Hb2, Hc2, Hr, Hm, Hmsg2 |- *.
  set (st2 := merge st1 (reflection_update r)) in *. clearbody st2.
  assert (Hmsg2' : messages st2 <> []) by (rewrite Hmsg2; exact Hmsg1').
  destruct (evaluate_research (reflection_view st2 r)) as [|next] eqn:Heval.
  - destruct (finalize_answer_total st2 env2 Hans Hmsg2') as (answer & env3 & Hfin).
    rewrite (bind_Return _ _ _ _ _ Hfin). unfold ret.
    exists st2, answer, env3. split; [reflexivity|].
    unfold evaluate_research in Heval.
    rewrite Hr, Hm in Heval. simpl in Heval. rewrite Hins in Heval. simpl in Heval.
    destruct (Z.geb_spec (round_count st2) (budget st2)); [lia | discriminate].
  - apply evaluate_research_sends in Heval as (_ & Hbelow & Hlen & _).
    rewrite Hr, Hm in Hbelow. simpl in Hlen.
    assert (Hnext : next <> []).
    { intros ->. simpl in Hlen. destruct (follow_up_queries r); [congruence | discriminate]. }
    destruct (IH st2 next env2 Hjudge Hsum Hans Hmsg2' Hnext) as (st' & answer & env' & Hrun & Hend);
      [lia | lia |].
    exists st', answer, env'. split; [exact Hrun | lia].
Qed.

(** *** The dispatch indices of a run *)

Lemma offsets_increase (base : Z) (start n : nat) :
  StronglySorted Z.lt (map (fun i => base + Z.of_nat i) (seq start n)).
Proof.
  revert start. induction n as [|n IH]; intros start; simpl; constructor.
  - apply IH.
  - apply List.Forall_forall. intros x Hx.
    apply in_map_iff in Hx as (i & <- & Hi). apply in_seq in Hi. lia.
Qed.

Lemma increasing_NoDup (l : list Z) : StronglySorted Z.lt l -> NoDup l.
Proof.
  induction 1 as [|x l Hs IH Hall]; constructor; [|exact IH].
  intros Hin. rewrite List.Forall_forall in Hall.
  apply list_elem_of_In in Hin. specialize (Hall x Hin). lia.
Qed.

Lemma numbered_app_l (log1 log2 : list Send) : numbered (log1 ++ log2) -> numbered log1.
Proof.
  intros [Hsorted Hnat]. split.
  - rewrite map_app in Hsorted. apply StronglySorted_app in Hsorted. tauto.
  - intros s Hs. apply Hnat, in_or_app. left. exact Hs.
Qed.

(** In such a log an index is never below the number of entries before it. *)
Lemma numbered_position (log : list Send) : forall base k s,
  StronglySorted Z.lt (map send_id log) ->
  (forall s', In s' log -> base <= send_id s') ->
  log !! k = Some s -> base + Z.of_nat k <= send_id s.
Proof.
  induction log as [|s0 log IH]; intros base k s Hsorted Hbase Hk; [discriminate Hk|].
  destruct k as [|k]; simpl in Hk.
  - inversion Hk; subst. specialize (Hbase s (or_introl eq_refl)). lia.
  - simpl in Hsorted. apply StronglySorted_inv in Hsorted as [Hsorted Hall].
    rewrite List.Forall_forall in Hall.
    assert (Hnext : base + 1 + Z.of_nat k <= send_id s).
    { apply IH; [exact Hsorted | | exact Hk].
      intros s' Hs'. specialize (Hall _ (in_map send_id _ _ Hs')).
      specialize (Hbase s0 (or_introl eq_refl)). lia. }
    lia.
Qed.

(** The dispatch invariant of the loop: the indices handed out so far,
    followed by those of the pending batch, are natural numbers that
    increase, and all of them lie below the length that [search_query] has
    once the batch is done. *)
Lemma research_rounds_dispatch fuel : forall st sends env,
  numbered (dispatched env ++ sends) ->
  (forall s, In s (dispatched env ++ sends) ->
     send_id s < Z.of_nat (length (search_query st) + length sends)) ->
  numbered (dispatched (snd (research_rounds fuel st sends env))).
Proof.
  induction fuel as [|fuel IH]; intros st sends env Hnum Hbound.
  - destruct sends; simpl.
    + rewrite app_nil_r in Hnum. exact Hnum.
    + apply numbered_app_l in Hnum. exact Hnum.
  - destruct sends as [|s rest].
    { simpl. rewrite app_nil_r in Hnum. exact Hnum. }
    rewrite research_rounds_step. unfold bind at 1.
    match goal with
    | |- context [await_all st (s :: rest) ?e] =>
        pose proof (quiet_await_all (s :: rest) st e) as Hq1;
        destruct (await_all st (s :: rest) e) as [[st1|e1] env1] eqn:Hawait
    end; simpl in Hq1; [|simpl; rewrite Hq1; exact Hnum].
    unfold bind at 1.
    pose proof (quiet_reflection st1 env1) as Hq2.
    destruct (reflection st1 env1) as [[r|e2] env2] eqn:Hrefl; simpl in Hq2;
      [|simpl; rewrite Hq2, Hq1; exact Hnum].
    apply await_all_returns in Hawait as (Hsq & _ & _ & _ & Hmax & Hcount & _).
    apply reflection_returns in Hrefl as (Hinc & Hran & _).
    destruct (after_reflection st st1 r Hmax Hcount Hinc) as (_ & _ & _ & _ & _ & Hsq2).
    cbv zeta in Hsq2 |- *.
    set (st2 := merge st1 (reflection_update r)) in *. clearbody st2.
    assert (Hlen : length (search_query st2)
                   = (length (search_query st) + length (s :: rest))%nat).
    { rewrite Hsq2, Hsq, length_app, length_map. reflexivity. }
    destruct (evaluate_research (reflection_view st2 r)) as [|next] eqn:Heval.
    + match goal with
      | |- context [bind World ?m ?k env2] =>
          assert (Hq3 : quiet (bind World m k))
            by (apply quiet_bind; [apply quiet_finalize_answer | intros; apply quiet_ret]);
          rewrite (Hq3 env2)
      end.
      rewrite Hq2, Hq1. exact Hnum.
    + apply evaluate_research_sends in Heval as (_ & _ & Hnext_len & Hnext).
      simpl in Hnext_len, Hnext. rewrite Hran, Hsq, length_app, length_map in Hnext.
      destruct Hnum as [Hsorted Hnat].
      apply IH.
      * rewrite Hq2, Hq1. split.
        -- rewrite map_app. apply StronglySorted_app. split; [|split].
           ++ intros x1 x2 Hx1 Hx2.
              apply list_elem_of_In, in_map_iff in Hx1 as (s1 & <- & Hs1).
              apply Hbound in Hs1.
              rewrite Hnext in Hx2.
              apply list_elem_of_In, in_map_iff in Hx2 as (i & <- & Hi). lia.
           ++ exact Hsorted.
           ++ rewrite Hnext. apply offsets_increase.
        -- intros s' Hs'. apply in_app_or in Hs' as [Hold|Hnew]; [apply Hnat, Hold|].
           apply (in_map send_id) in Hnew. rewrite Hnext in Hnew.
           apply in_map_iff in Hnew as (i & Hi & _). lia.
      * intros s' Hs'. rewrite Hq2, Hq1 in Hs'. apply in_app_or in Hs' as [Hold|Hnew].
        -- apply Hbound in Hold. lia.
        -- apply (in_map send_id) in Hnew. rewrite Hnext in Hnew.
           apply in_map_iff in Hnew as (i & Hi & Hseq). apply in_seq in Hseq.
           rewrite <- Hi, Hlen, Hnext_len. simpl. lia.
Qed.

Lemma offsets_shift (base start n : nat) :
  map (fun i => Z.of_nat base + Z.of_nat i) (seq start n)
  = map Z.of_nat (seq (base + start) n).
Proof.
  revert start. induction n as [|n IH]; intros start; simpl; [reflexivity|].
  rewrite IH, Nat2Z.inj_add, Nat.add_succ_r. reflexivity.
Qed.

Lemma shifted_app_l (p : nat) (log1 log2 : list Send) :
  planned_then_shifted p (log1 ++ log2) -> planned_then_shifted p log1.
Proof.
  unfold planned_then_shifted. rewrite map_app, length_app, seq_app, map_app. intros H.
  apply app_inj_1 in H; [tauto|]. rewrite !length_map, length_seq. reflexivity.
Qed.

Lemma index_at_early (p n : nat) :
  (n <= p)%nat -> map (index_at p) (seq 0 n) = map Z.of_nat (seq 0 n).
Proof.
  intros Hn. apply map_ext_in. intros k Hk. apply in_seq in Hk. unfold index_at.
  destruct (Nat.ltb_spec k p); [reflexivity | lia].
Qed.

Lemma index_at_late (p start n : nat) :
  (p <= start)%nat ->
  map (index_at p) (seq start n)
  = map (fun i => Z.of_nat (p + start) + Z.of_nat i) (seq 0 n).
Proof.
  intros Hp. rewrite offsets_shift, Nat.add_0_r, <- (offsets_shift p start n).
  apply map_ext_in. intros k Hk. apply in_seq in Hk. unfold index_at.
  destruct (Nat.ltb_spec k p); [lia|]. lia.
Qed.

Lemma shifted_app (p : nat) (log next : list Send) :
  planned_then_shifted p log ->
  (p <= length log)%nat ->
  map send_id next
  = map (fun i => Z.of_nat (p + length log) + Z.of_nat i) (seq 0 (length next)) ->
  planned_then_shifted p (log ++ next).
Proof.
  unfold planned_then_shifted. intros Hlog Hp Hnext.
  rewrite map_app, length_app, seq_app, map_app, Hlog, Hnext, Nat.add_0_l.
  rewrite (index_at_late p (length log) (length next) Hp). reflexivity.
Qed.

(** The returns of [generate_query] and of every [web_research] are
    appended to [search_query]: at an evaluation its length is the number
    of queries dispatched so far plus the length it had at the first
    dispatch, and the follow-up queries are numbered from there. *)
Lemma research_rounds_shifted fuel : forall st sends env p,
  planned_then_shifted p (dispatched env ++ sends) ->
  length (search_query st) = (p + length (dispatched env))%nat ->
  (p <= length (dispatched env ++ sends))%nat ->
  planned_then_shifted p (dispatched (snd (research_rounds fuel st sends env))).
Proof.
  induction fuel as [|fuel IH]; intros st sends env p Hlog Hlen Hp.
  - destruct sends; simpl.
    + rewrite app_nil_r in Hlog. exact Hlog.
    + apply shifted_app_l in Hlog. exact Hlog.
  - destruct sends as [|s rest].
    { simpl. rewrite app_nil_r in Hlog. exact Hlog. }
    rewrite research_rounds_step. unfold bind at 1.
    match goal with
    | |- context [await_all st (s :: rest) ?e] =>
        pose proof (quiet_await_all (s :: rest) st e) as Hq1;
        destruct (await_all st (s :: rest) e) as [[st1|e1] env1] eqn:Hawait
    end; simpl in Hq1; [|simpl; rewrite Hq1; exact Hlog].
    unfold bind at 1.
    pose proof (quiet_reflection st1 env1) as Hq2.
    destruct (reflection st1 env1) as [[r|e2] env2] eqn:Hrefl; simpl in Hq2;
      [|simpl; rewrite Hq2, Hq1; exact Hlog].
    apply await_all_returns in Hawait as (Hsq & _ & _ & _ & Hmax & Hcount & _).
    apply reflection_returns in Hrefl as (Hinc & Hran & _).
    destruct (after_reflection st st1 r Hmax Hcount Hinc) as (_ & _ & _ & _ & _ & Hsq2).
    cbv zeta in Hsq2 |- *.
    set (st2 := merge st1 (reflection_update r)) in *. clearbody st2.
    assert (Hlen2 : length (search_query st2) = (p + length (dispatched env2))%nat).
    { rewrite Hsq2, Hsq, Hq2, Hq1, !length_app, length_map, Hlen. lia. }
    destruct (evaluate_research (reflection_view st2 r)) as [|next] eqn:Heval.
    + match goal with
      | |- context [bind World ?m ?k env2] =>
          assert (Hq3 : quiet (bind World m k))
            by (apply quiet_bind; [apply quiet_finalize_answer | intros; apply quiet_ret]);
          rewrite (Hq3 env2)
      end.
      rewrite Hq2, Hq1. exact Hlog.
    + apply evaluate_research_sends in Heval as (_ & _ & Hnext_len & Hnext).
      simpl in Hnext_len, Hnext.
      apply IH; [|exact Hlen2|rewrite Hq2, Hq1, length_app; lia].
      apply shifted_app; [rewrite Hq2, Hq1; exact Hlog | rewrite Hq2, Hq1; exact Hp |].
      rewrite Hnext, Hran, Hnext_len, <- Hsq2, Hlen2. reflexivity.
Qed.

Lemma continue_to_web_research_ids queries :
  map send_id (continue_to_web_research queries)
  = map Z.of_nat (seq 0 (length queries)).
Proof. apply enumerate_from_ids. reflexivity. Qed.

(** The state in which the first batch is dispatched. *)
Lemma graph_unfold fuel input env queries env1 :
  generate_query input env = (Return queries, env1) ->
  graph fuel input env =
  research_rounds fuel (planned_state input queries)
    (continue_to_web_research (planned_queries input queries)) env1.
Proof. intros H. unfold graph. rewrite (bind_Return _ _ _ _ _ H). reflexivity. Qed.

Lemma planned_state_facts input queries :
  round_count (planned_state input queries) = round_count input /\
  budget (planned_state input queries) = budget input /\
  messages (planned_state input queries) = messages input.
Proof.
  unfold planned_state, round_count, budget. simpl.
  rewrite app_nil_r. repeat split.
Qed.

Lemma planned_queries_app input queries :
  planned_queries input queries = search_query input ++ queries.
Proof. reflexivity. Qed.

Lemma planned_queries_some input queries :
  queries <> [] -> continue_to_web_research (planned_queries input queries) <> [].
Proof.
  intros Hne Hnil. apply (f_equal (@length Send)) in Hnil.
  unfold continue_to_web_research in Hnil.
  rewrite enumerate_from_length, planned_queries_app, length_app in Hnil.
  destruct queries; simpl in Hnil; [congruence | lia].
Qed.


(** C6 (amended): over a whole run the dispatch indices handed to the
    graph increase strictly, so none is used twice, and an index is never
    below the number of queries dispatched before it; the first batch
    numbers its queries from 0, and a follow-up batch numbers its queries
    from [number_of_ran_queries], the length of [search_query] at the
    evaluation before it.  That length counts the planned list as well as
    the queries that have been run: with [p] entries in [search_query] at
    the first dispatch, the first [p] queries carry their position in the
    dispatch log and every later query its position plus [p]. *)
Theorem dispatch_indices_increase fuel input env (Hstart : dispatched env = []) :
  StronglySorted Z.lt (map send_id (dispatched (snd (graph fuel input env)))) /\
  NoDup (map send_id (dispatched (snd (graph fuel input env)))) /\
  (forall k s,
     dispatched (snd (graph fuel input env)) !! k = Some s ->
     Z.of_nat k <= send_id s) /\
  (forall queries env1,
     generate_query input env = (Return queries, env1) ->
     planned_then_shifted (length (search_query input ++ queries))
       (dispatched (snd (graph fuel input env)))) /\
  (forall queries,
     map send_id (continue_to_web_research queries)
     = map Z.of_nat (seq 0 (length queries))) /\
  (forall state next,
     evaluate_research state = to_sends next ->
     map send_id next
     = map (fun idx => number_of_ran_queries state + Z.of_nat idx)
         (seq 0 (length (follow_up_queries state)))) /\
  (forall st e r e',
     reflection st e = (Return r, e') ->
     number_of_ran_queries r = Z.of_nat (length (search_query st))).
Proof.
  assert (Hnum : numbered (dispatched (snd (graph fuel input env)))).
  { unfold graph, bind.
    pose proof (quiet_generate_query input env) as Hq.
    destruct (generate_query input env) as [[queries|e] env1]; simpl in Hq.
    - apply research_rounds_dispatch; rewrite Hq, Hstart; simpl.
      + split.
        * rewrite continue_to_web_research_ids. apply (offsets_increase 0 0).
        * intros s Hs. apply (in_map send_id) in Hs.
          rewrite continue_to_web_research_ids in Hs.
          apply in_map_iff in Hs as (i & <- & _). lia.
      + intros s Hs. apply (in_map send_id) in Hs.
        rewrite continue_to_web_research_ids in Hs.
        apply in_map_iff in Hs as (i & <- & Hi). apply in_seq in Hi.
        unfold continue_to_web_research. rewrite enumerate_from_length. lia.
    - simpl. rewrite Hq, Hstart. split; [constructor | intros s []]. }
  destruct Hnum as [Hsorted Hnat].
  split; [exact Hsorted|]. split; [apply increasing_NoDup, Hsorted|].
  split; [|split; [|split; [apply continue_to_web_research_ids|split]]].
  - intros k s Hk. apply (numbered_position _ 0 k s Hsorted Hnat Hk).
  - intros queries env1 Hgen.
    pose proof (quiet_generate_query input env) as Hq.
    rewrite Hgen in Hq. cbn [snd] in Hq.
    rewrite (graph_unfold _ _ _ _ _ Hgen), planned_queries_app.
    assert (Hbatch : length (continue_to_web_research (search_query input ++ queries))
                     = length (search_query input ++ queries))
      by apply enumerate_from_length.
    apply research_rounds_shifted; rewrite Hq, Hstart; cbn [app length].
    + unfold planned_then_shifted.
      rewrite continue_to_web_research_ids, Hbatch. symmetry. apply index_at_early. lia.
    + rewrite Nat.add_0_r. reflexivity.
    + rewrite Hbatch. lia.
  - intros state next Heval. apply evaluate_research_sends in Heval. tauto.
  - intros st e r e' Hrefl. apply reflection_returns in Hrefl. tauto.
Qed.

(** *** More on the nodes and on a run *)

Variable format_exc : string -> string.

Local Abbreviation run_agent :=
  (run_agent World search_api query_writer web_searcher reflector answer_writer configurable
     format_exc).
Local Abbreviation always_satisfied := (always_satisfied World reflector).

(** X1: [search_web] never raises, whatever the search call does and
    whatever number of results is asked for: a response gives its
    [organic_results] (none when the key is missing), cut to the number
    asked for and read field by field, in order, and prints nothing; a
    failure gives the empty list and prints one line with the message. *)
Theorem search_web_never_raises query num_results env :
  exists results env',
    search_web query num_results env = (Return results, env') /\
    dispatched env' = dispatched env /\
    match search_api (search_params query num_results) (world env) with
    | (Return data, w) =>
        world env' = w /\ stdout env' = stdout env /\
        results =
          map search_result_of (Py.slice_to (default [] (organic_results data)) num_results)
    | (Raise e, w) =>
        world env' = w /\ results = [] /\
        stdout env' = stdout env ++ ["Search API error: " +:+ e]
    end.
Proof.
  unfold search_web, try_except, bind, call, ret, print.
  destruct (search_api _ (world env)) as [[data|e] w].
  - eexists _, _. split; [reflexivity|]. cbn [dispatched world stdout].
    repeat split.
    destruct (organic_results data) as [items|]; [reflexivity|].
    unfold Py.slice_to. cbn [default]. destruct (num_results <? 0); rewrite firstn_nil; reflexivity.
  - eexists _, _. split; [reflexivity|]. cbn [dispatched world stdout]. repeat split.
Qed.

Lemma enumerate_from_queries {A} (f : nat -> A -> Send) (g : A -> string) :
  (forall i x, ws_search_query (send_arg (f i x)) = g x) ->
  (forall i x, send_node (f i x) = "web_research") ->
  forall start l,
    queries_of (enumerate_from f start l) = map g l /\
    Forall (fun s => send_node s = "web_research") (enumerate_from f start l).
Proof.
  intros Hq Hn start l. revert start.
  induction l as [|x l IH]; intros start; cbn [enumerate_from queries_of map].
  - split; [reflexivity | constructor].
  - destruct (IH (S start)) as [IHq IHn]. split.
    + rewrite Hq. f_equal. exact IHq.
    + constructor; [apply Hn | exact IHn].
Qed.

(** X2: both routers hand on every query they are given, once and in
    order, and address every packet to [web_research]:
    [continue_to_web_research] the planner's queries, and
    [evaluate_research], when it does not finalize, all the follow-up
    queries of the verdict, however many they are. *)
Theorem fan_out_keeps_queries :
  (forall queries,
     queries_of (continue_to_web_research queries) = queries /\
     Forall (fun s => send_node s = "web_research") (continue_to_web_research queries)) /\
  (forall state,
     match evaluate_research state with
     | to_finalize_answer => True
     | to_sends next =>
         queries_of next = follow_up_queries state /\
         Forall (fun s => send_node s = "web_research") next
     end).
Proof.
  split.
  - intros queries. unfold continue_to_web_research.
    rewrite <- (map_id queries) at 2.
    apply enumerate_from_queries; reflexivity.
  - intros state. unfold evaluate_research.
    destruct (is_sufficient state || _); [exact I|].
    rewrite <- (map_id (follow_up_queries state)) at 2.
    apply enumerate_from_queries; reflexivity.
Qed.

(** X3: [evaluate_research] finalizes exactly when the verdict is
    sufficient or the round count has reached the budget; in every other
    case it returns a batch, even an empty one. *)
Theorem evaluate_research_finalizes_exactly_when (state : ReflectionState) :
  evaluate_research state = to_finalize_answer <->
  (is_sufficient state = true \/
   rs_research_loop_count state >=
     Py.or_int (rs_max_research_loops state) (cfg_max_research_loops configurable)).
Proof.
  split.
  - intros Heval.
    destruct (is_sufficient state) eqn:Hs; [left; reflexivity | right].
    destruct (Z_ge_lt_dec (rs_research_loop_count state)
      (Py.or_int (rs_max_research_loops state) (cfg_max_research_loops configurable)))
      as [Hge|Hlt]; [exact Hge|].
    exfalso. unfold evaluate_research in Heval. rewrite Hs in Heval.
    destruct (Z.geb_spec (rs_research_loop_count state)
      (Py.or_int (rs_max_research_loops state) (cfg_max_research_loops configurable)));
      [lia | discriminate Heval].
  - intros [Hs|Hge].
    + apply evaluate_research_sufficient, Hs.
    + apply evaluate_research_exhausted, Hge.
Qed.

(** A round after which [evaluate_research] has to finalize is the last
    one. *)
Lemma research_rounds_last_round fuel st sends env :
  (forall model topic found, reliable (web_searcher model topic found)) ->
  (forall model topic summaries, reliable (answer_writer model topic summaries)) ->
  messages st <> [] -> sends <> [] ->
  (forall st1 env1, messages st1 = messages st ->
     exists r env2,
       reflection st1 env1 = (Return r, env2) /\
       (is_sufficient r = true \/ round_count st + 1 >= budget st)) ->
  exists st' answer env',
    research_rounds (S fuel) st sends env = (Return (Finalized st' answer), env') /\
    round_count st' = round_count st + 1 /\
    dispatched env' = dispatched env ++ sends.
Proof.
  intros Hsum Hans Hmsg Hne Hjudge.
  destruct sends as [|s rest]; [congruence|].
  rewrite research_rounds_step.
  match goal with
  | |- context [bind World (await_all st (s :: rest)) _ ?e] =>
      pose proof (quiet_await_all (s :: rest) st e) as Hq1;
      destruct (await_all_total (s :: rest) Hsum st e) as (st1 & env1 & Hawait)
  end.
  rewrite Hawait in Hq1. cbn [snd dispatched] in Hq1.
  rewrite (bind_Return _ _ _ _ _ Hawait).
  apply await_all_returns in Hawait as (_ & _ & Hmsg1 & _ & Hmax & Hcount & _).
  destruct (Hjudge st1 env1 Hmsg1) as (r & env2 & Hrefl & Hstop).
  pose proof (quiet_reflection st1 env1) as Hq2.
  rewrite Hrefl in Hq2. cbn [snd] in Hq2.
  rewrite (bind_Return _ _ _ _ _ Hrefl).
  apply reflection_returns in Hrefl as (Hinc & _).
  destruct (after_reflection st st1 r Hmax Hcount Hinc) as (Hb2 & Hc2 & Hr & Hm & Hmsg2 & _).
  cbv zeta in Hb2, Hc2, Hr, Hm, Hmsg2 |- *.
  set (st2 := merge st1 (reflection_update r)) in *. clearbody st2.
  assert (Heval : evaluate_research (reflection_view st2 r) = to_finalize_answer).
  { destruct Hstop as [Hs|Hge].
    - apply evaluate_research_sufficient. exact Hs.
    - apply evaluate_research_exhausted. rewrite Hr, Hm. lia. }
  rewrite Heval.
  assert (Hmsg2' : messages st2 <> []) by (rewrite Hmsg2, Hmsg1; exact Hmsg).
  destruct (finalize_answer_total st2 env2 Hans Hmsg2') as (answer & env3 & Hfin).
  pose proof (quiet_finalize_answer st2 env2) as Hq3.
  rewrite Hfin in Hq3. cbn [snd] in Hq3.
  rewrite (bind_Return _ _ _ _ _ Hfin). unfold ret.
  exists st2, answer, env3. split; [reflexivity|]. split; [exact Hc2|].
  rewrite Hq3, Hq2, Hq1. reflexivity.
Qed.

Lemma generate_query_plans input env :
  plans_something -> messages input <> [] ->
  exists queries env1,
    generate_query input env = (Return queries, env1) /\ queries <> [] /\
    dispatched env1 = dispatched env.
Proof.
  intros Hplan Hmsg.
  pose proof (quiet_generate_query input env) as Hq.
  unfold generate_query in *.
  destruct (last_content_total _ Hmsg) as (topic & Htopic).
  rewrite Htopic in *.
  rewrite (bind_Return _ _ _ topic env eq_refl) in *.
  match goal with
  | |- context [call World (query_writer ?m ?t ?n)] =>
      destruct (Hplan m t n (world env)) as (queries & w' & Hc & Hne)
  end.
  rewrite (call_Return _ _ _ _ Hc) in *. cbn [snd] in Hq. eauto.
Qed.

Lemma reflection_total st env :
  (forall model topic summaries, reliable (reflector model topic summaries)) ->
  messages st <> [] ->
  exists r env', reflection st env = (Return r, env').
Proof.
  intros Hjudge Hmsg. unfold reflection.
  destruct (last_content_total _ Hmsg) as (topic & ->).
  rewrite (bind_Return _ _ _ topic env eq_refl).
  match goal with
  | |- context [call World (reflector ?m ?t ?s)] =>
      destruct (Hjudge m t s (world env)) as (verdict & w' & Hc)
  end.
  rewrite (bind_Return _ _ _ _ _ (call_Return _ _ _ _ Hc)).
  unfold ret. eauto.
Qed.

Lemma reflection_always_satisfied st env :
  always_satisfied -> messages st <> [] ->
  exists r env', reflection st env = (Return r, env') /\ is_sufficient r = true.
Proof.
  intros Hjudge Hmsg. unfold reflection.
  destruct (last_content_total _ Hmsg) as (topic & ->).
  rewrite (bind_Return _ _ _ topic env eq_refl).
  match goal with
  | |- context [call World (reflector ?m ?t ?s)] =>
      destruct (Hjudge m t s (world env)) as (verdict & w' & Hc & Hyes)
  end.
  rewrite (bind_Return _ _ _ _ _ (call_Return _ _ _ _ Hc)).
  unfold ret. eexists _, _. split; [reflexivity | exact Hyes].
Qed.

Lemma generate_query_returned input env queries env1 :
  generate_query input env = (Return queries, env1) ->
  messages input <> [] /\ dispatched env1 = dispatched env.
Proof.
  intros Hgen. pose proof (quiet_generate_query input env) as Hq.
  rewrite Hgen in Hq. cbn [snd] in Hq. split; [|exact Hq].
  intros Hnil. unfold generate_query, last_content in Hgen. rewrite Hnil in Hgen.
  discriminate Hgen.
Qed.

Lemma continue_to_web_research_some (search_queries : list string) :
  search_queries <> [] -> continue_to_web_research search_queries <> [].
Proof.
  intros Hne Hnil. apply (f_equal (@length Send)) in Hnil.
  unfold continue_to_web_research in Hnil. rewrite enumerate_from_length in Hnil.
  destruct search_queries; [congruence | discriminate Hnil].
Qed.

(** X4: when [generate_query] has returned its queries and
    [search_query] is then not empty, an evaluator that is satisfied at
    once (with a summarizer and an answer model that answer) ends the run
    after one round, whatever the budget is: the packets dispatched are
    those of [search_query], that is of the list of the input followed by
    the queries that [generate_query] returned, and no other. *)
Theorem satisfied_evaluator_gives_one_round fuel input env queries env1
    (Hgen : generate_query input env = (Return queries, env1))
    (Hsome : search_query input ++ queries <> [])
    (Hjudge : always_satisfied)
    (Hsum : forall model topic found, reliable (web_searcher model topic found))
    (Hans : forall model topic summaries, reliable (answer_writer model topic summaries)) :
  exists st' answer env',
    graph (S fuel) input env = (Return (Finalized st' answer), env') /\
    round_count st' = round_count input + 1 /\
    dispatched env' =
      dispatched env ++ continue_to_web_research (search_query input ++ queries).
Proof.
  destruct (generate_query_returned _ _ _ _ Hgen) as (Hmsg & Hd).
  rewrite (graph_unfold _ _ _ _ _ Hgen), planned_queries_app.
  destruct (planned_state_facts input queries) as (Hc & Hb & Hm).
  destruct (research_rounds_last_round fuel (planned_state input queries)
              (continue_to_web_research (search_query input ++ queries)) env1)
    as (st' & answer & env' & Hrun & Hcount & Hdisp); try assumption.
  - rewrite Hm. exact Hmsg.
  - apply continue_to_web_research_some, Hsome.
  - intros st1 e1 Hm1.
    assert (Hmsg1 : messages st1 <> []) by (rewrite Hm1, Hm; exact Hmsg).
    destruct (reflection_always_satisfied st1 e1 Hjudge Hmsg1) as (r & e2 & Hrefl & Hyes).
    exists r, e2. split; [exact Hrefl | left; exact Hyes].
  - exists st', answer, env'. split; [exact Hrun|]. split; [lia|].
    rewrite Hdisp, Hd. reflexivity.
Qed.

(** X5: a budget that the first round uses up (one for a fresh run, or
    any number below) does not stop the research before it starts.  When
    [generate_query] has returned its queries, [search_query] is then not
    empty, and the summarizer, the evaluator and the answer model answer,
    the packets of [search_query] are dispatched and evaluated once, and
    the run finalizes right after, whatever the verdict says. *)
Theorem small_budget_gives_one_round fuel input env queries env1
    (Hbudget : budget input <= round_count input + 1)
    (Hgen : generate_query input env = (Return queries, env1))
    (Hsome : search_query input ++ queries <> [])
    (Hjudge : forall model topic summaries, reliable (reflector model topic summaries))
    (Hsum : forall model topic found, reliable (web_searcher model topic found))
    (Hans : forall model topic summaries, reliable (answer_writer model topic summaries)) :
  exists st' answer env',
    graph (S fuel) input env = (Return (Finalized st' answer), env') /\
    round_count st' = round_count input + 1 /\
    dispatched env' =
      dispatched env ++ continue_to_web_research (search_query input ++ queries).
Proof.
  destruct (generate_query_returned _ _ _ _ Hgen) as (Hmsg & Hd).
  rewrite (graph_unfold _ _ _ _ _ Hgen), planned_queries_app.
  destruct (planned_state_facts input queries) as (Hc & Hb & Hm).
  destruct (research_rounds_last_round fuel (planned_state input queries)
              (continue_to_web_research (search_query input ++ queries)) env1)
    as (st' & answer & env' & Hrun & Hcount & Hdisp); try assumption.
  - rewrite Hm. exact Hmsg.
  - apply continue_to_web_research_some, Hsome.
  - intros st1 e1 Hm1.
    assert (Hmsg1 : messages st1 <> []) by (rewrite Hm1, Hm; exact Hmsg).
    destruct (reflection_total st1 e1 Hjudge Hmsg1) as (r & e2 & Hrefl).
    exists r, e2. split; [exact Hrefl | right; lia].
  - exists st', answer, env'. split; [exact Hrun|]. split; [lia|].
    rewrite Hdisp, Hd. reflexivity.
Qed.

Lemma await_all_sources sends : forall st env st' env',
  await_all st sends env = (Return st', env') ->
  (length (sources_gathered st') <= length (sources_gathered st) + 8 * length sends)%nat.
Proof.
  induction sends as [|s rest IH]; intros st env st' env' H; simpl in H.
  - inversion H; subst; clear H. lia.
  - apply bind_Return_inv in H as (upd & env1 & Hw & H).
    apply web_research_returns in Hw as (_ & _ & Hlen & _).
    apply IH in H. cbn [merge sources_gathered] in H. rewrite length_app in H.
    cbn [length]. lia.
Qed.

(** What a run that has ended has done to the evidence lists. *)
Lemma research_rounds_evidence fuel : forall st sends env res env' st',
  research_rounds fuel st sends env = (Return res, env') ->
  final_state res = Some st' ->
  exists new,
    dispatched env' = dispatched env ++ new /\
    search_query st' = search_query st ++ queries_of new /\
    length (web_research_result st') = (length (web_research_result st) + length new)%nat /\
    messages st' = messages st /\
    (length (sources_gathered st') <= length (sources_gathered st) + 8 * length new)%nat.
Proof.
  induction fuel as [|fuel IH]; intros st sends env res env' st' Hrun Hfin.
  - destruct sends; simpl in Hrun; inversion Hrun; subst; clear Hrun;
      simpl in Hfin; inversion Hfin; subst.
    exists []. rewrite !app_nil_r. cbn [length]. repeat split; lia.
  - destruct sends as [|s rest].
    { simpl in Hrun. inversion Hrun; subst; clear Hrun. simpl in Hfin. inversion Hfin; subst.
      exists []. rewrite !app_nil_r. cbn [length]. repeat split; lia. }
    rewrite research_rounds_step in Hrun.
    apply bind_Return_inv in Hrun as (st1 & env1 & Hawait & Hrun).
    apply bind_Return_inv in Hrun as (r & env2 & Hrefl & Hrun).
    match type of Hawait with
    | await_all st (s :: rest) ?e = _ =>
        pose proof (quiet_await_all (s :: rest) st e) as Hq1
    end.
    rewrite Hawait in Hq1. cbn [snd dispatched] in Hq1.
    pose proof (quiet_reflection st1 env1) as Hq2.
    rewrite Hrefl in Hq2. cbn [snd] in Hq2.
    pose proof (await_all_sources _ _ _ _ _ Hawait) as Hsrc.
    apply await_all_returns in Hawait as (Hsq & Hwr & Hmsg1 & _ & Hmax & Hcount & _).
    apply reflection_returns in Hrefl as (Hinc & _).
    destruct (after_reflection st st1 r Hmax Hcount Hinc) as (_ & _ & _ & _ & Hmsg2 & Hsq2).
    assert (Hwr2 : web_research_result (merge st1 (reflection_update r))
                   = web_research_result st1) by (simpl; apply app_nil_r).
    assert (Hsrc2 : sources_gathered (merge st1 (reflection_update r))
                    = sources_gathered st1) by (simpl; apply app_nil_r).
    cbv zeta in Hrun, Hmsg2, Hsq2.
    set (st2 := merge st1 (reflection_update r)) in *. clearbody st2.
    destruct (evaluate_research (reflection_view st2 r)) as [|next] eqn:Heval.
    + apply bind_Return_inv in Hrun as (answer & env3 & Hfinal & Hrun).
      pose proof (quiet_finalize_answer st2 env2) as Hq3.
      rewrite Hfinal in Hq3. cbn [snd] in Hq3.
      inversion Hrun; subst; clear Hrun. simpl in Hfin. inversion Hfin; subst.
      exists (s :: rest). rewrite Hq3, Hq2, Hq1, Hsq2, Hsq, Hwr2, Hwr, Hmsg2, Hmsg1, Hsrc2.
      repeat split. exact Hsrc.
    + destruct (IH _ _ _ _ _ _ Hrun Hfin) as (new & Hd & Hq & Hw & Hm & Hs).
      exists ((s :: rest) ++ new).
      rewrite Hd, Hq2, Hq1, Hq, Hsq2, Hsq, Hw, Hwr2, Hwr, Hm, Hmsg2, Hmsg1, <- !app_assoc.
      rewrite Hsrc2 in Hs.
      unfold queries_of. rewrite map_app, !length_app. repeat split; lia.
Qed.

(** X8: when [generate_query] fails, the run fails with the same
    exception before anything is dispatched, searched or printed; a
    state without messages is one such case, and there no model is called
    either. *)
Theorem planning_failure_ends_the_run fuel input env e env1
    (Hfail : generate_query input env = (Raise e, env1)) :
  graph fuel input env = (Raise e, env1) /\
  dispatched env1 = dispatched env /\
  stdout env1 = stdout env /\
  (messages input = [] -> e = "IndexError: list index out of range" /\ env1 = env).
Proof.
  split; [unfold graph; apply (bind_Raise _ _ _ _ _ Hfail)|].
  unfold generate_query, last_content, bind, call, raise, ret in Hfail.
  destruct (last (map content (messages input))) as [topic|] eqn:Hlast.
  - destruct (query_writer _ _ _ (world env)) as [[queries|e'] w']; [discriminate|].
    inversion Hfail; subst; clear Hfail. cbn [dispatched stdout].
    split; [reflexivity|]. split; [reflexivity|].
    intros Hnil. rewrite Hnil in Hlast. discriminate Hlast.
  - inversion Hfail; subst; clear Hfail.
    split; [reflexivity|]. split; [reflexivity|]. intros _. split; reflexivity.
Qed.

(** X9: the sources of a Finding are the items of the response in
    their order, at most the first eight: the ['link'] of an item becomes
    the ['url'] of its source, and a field that the item lacks is the
    empty string, so that the three keys are always there. *)
Theorem web_research_sources_follow_results state env data w upd env'
    (Hsearch : search_api (search_params (ws_search_query state) 8) (world env)
               = (Return data, w))
    (Hret : web_research state env = (Return upd, env')) :
  sources_gathered upd =
    map (fun item =>
           source_dict
             (source_info (Py.get item "link" "") (Py.get item "title" "")
                (Py.get item "snippet" "")))
      (firstn 8 (default [] (organic_results data))) /\
  search_query upd = [ws_search_query state].
Proof.
  assert (Hs : search_web (ws_search_query state) 8 env =
               (Return (map search_result_of (firstn 8 (default [] (organic_results data)))),
                {| world := w; stdout := stdout env; dispatched := dispatched env |})).
  { unfold search_web, try_except, bind, call, ret. rewrite Hsearch.
    destruct (organic_results data); reflexivity. }
  destruct (map search_result_of (firstn 8 (default [] (organic_results data))))
    as [|r rs] eqn:Hres.
  - rewrite (web_research_no_results _ _ _ Hs) in Hret.
    inversion Hret; subst; clear Hret. cbn [no_results_finding sources_gathered search_query].
    apply map_eq_nil in Hres. rewrite Hres. split; reflexivity.
  - rewrite (web_research_some_results _ _ _ _ _ Hs) in Hret.
    apply bind_Return_inv in Hret as (text & env2 & _ & Hret).
    inversion Hret; subst; clear Hret. cbn [sources_gathered search_query].
    split; [|reflexivity].
    rewrite collect_results_sources.
    change ([source_info (url r) (title r) (snippet r)] ++
            map (fun r0 => source_info (url r0) (title r0) (snippet r0)) rs)
      with (map (fun r0 => source_info (url r0) (title r0) (snippet r0)) (r :: rs)).
    rewrite <- Hres, !map_map. reflexivity.
Qed.

(** One unit of fuel per round left is enough, and one unit is enough
    when the budget is spent before the first round. *)
Lemma research_rounds_fuel fuel st sends env :
  (1 <= fuel)%nat ->
  (Z.to_nat (budget st - round_count st) <= fuel)%nat ->
  fst (research_rounds fuel st sends env) <> Return OutOfFuel.
Proof.
  intros Hone Hfuel. destruct fuel as [|fuel]; [lia|].
  destruct sends as [|s rest]; [simpl; discriminate|].
  rewrite research_rounds_step. unfold bind at 1.
  destruct (await_all st (s :: rest) _) as [[st1|e] env1] eqn:Hawait; [|simpl; discriminate].
  unfold bind at 1.
  destruct (reflection st1 env1) as [[r|e] env2] eqn:Hrefl; [|simpl; discriminate].
  apply await_all_returns in Hawait as (_ & _ & _ & _ & Hmax & Hcount & _).
  apply reflection_returns in Hrefl as (Hinc & _).
  destruct (after_reflection st st1 r Hmax Hcount Hinc) as (Hb2 & Hc2 & Hr & Hm & _).
  cbv zeta in Hb2, Hc2, Hr, Hm |- *.
  set (st2 := merge st1 (reflection_update r)) in *. clearbody st2.
  destruct (evaluate_research (reflection_view st2 r)) as [|next] eqn:Heval.
  - unfold bind. destruct (finalize_answer st2 env2) as [[answer|e] env3]; simpl; discriminate.
  - apply evaluate_research_sends in Heval as (_ & Hbelow & _).
    rewrite Hr, Hm in Hbelow.
    apply research_rounds_enough_fuel; lia.
Qed.

(** The answer of a finalized run is what [finalize_answer] returned on
    the state the run ended in. *)
Lemma research_rounds_finalized fuel : forall st sends env st' answer env',
  research_rounds fuel st sends env = (Return (Finalized st' answer), env') ->
  exists env2, finalize_answer st' env2 = (Return answer, env').
Proof.
  induction fuel as [|fuel IH]; intros st sends env st' answer env' Hrun.
  - destruct sends; simpl in Hrun; inversion Hrun.
  - destruct sends as [|s rest]; [simpl in Hrun; inversion Hrun|].
    rewrite research_rounds_step in Hrun.
    apply bind_Return_inv in Hrun as (st1 & env1 & _ & Hrun).
    apply bind_Return_inv in Hrun as (r & env2 & _ & Hrun).
    cbv zeta in Hrun.
    destruct (evaluate_research _) as [|next].
    + apply bind_Return_inv in Hrun as (answer' & env3 & Hfin & Hrun).
      inversion Hrun; subst; clear Hrun. exists env2. exact Hfin.
    + apply (IH _ _ _ _ _ _ Hrun).
Qed.

Lemma finalize_answer_message st env answer env' :
  finalize_answer st env = (Return answer, env') ->
  exists text, messages answer = [AIMessage text].
Proof.
  unfold finalize_answer. intros H.
  apply bind_Return_inv in H as (topic & env1 & _ & H).
  apply bind_Return_inv in H as (text & env2 & _ & H).
  inversion H; subst; clear H. exists text. reflexivity.
Qed.

(** The keys of what [finalize_answer] returns. *)
Lemma finalize_answer_returns st env answer env' :
  finalize_answer st env = (Return answer, env') ->
  search_query answer = [] /\ web_research_result answer = [] /\
  sources_gathered answer = map source_dict (flat_map sources_of (sources_gathered st)).
Proof.
  unfold finalize_answer. intros H.
  apply bind_Return_inv in H as (topic & env1 & _ & H).
  apply bind_Return_inv in H as (text & env2 & _ & H).
  inversion H; subst; clear H. cbn [search_query web_research_result sources_gathered].
  rewrite collect_sources_flat. repeat split.
Qed.

(** X6: no dispatched query is lost in the state that [graph.invoke]
    returns, when the run has started with an empty dispatch log and has
    ended: it holds one more finding for each packet handed to the graph,
    and its [search_query] is the list of the input, the queries that
    [generate_query] returned, and the texts of the dispatched queries in
    the order of their dispatch.  Its messages are those of the input,
    followed by the answer of [finalize_answer] when the run was
    finalized. *)
Theorem every_dispatch_is_accounted_for fuel input env queries env1 res env' result
    (Hstart : dispatched env = [])
    (Hgen : generate_query input env = (Return queries, env1))
    (Hrun : graph fuel input env = (Return res, env'))
    (Hend : invoke_result res = Some result) :
  length (web_research_result result) =
    (length (web_research_result input) + length (dispatched env'))%nat /\
  search_query result = search_query input ++ queries ++ queries_of (dispatched env') /\
  match res with
  | Finalized _ answer =>
      exists text,
        messages answer = [AIMessage text] /\
        messages result = messages input ++ [AIMessage text]
  | _ => messages result = messages input
  end.
Proof.
  destruct (generate_query_returned _ _ _ _ Hgen) as (_ & Hq).
  rewrite (graph_unfold _ _ _ _ _ Hgen) in Hrun.
  assert (Hplanned :
    forall st', final_state res = Some st' ->
      length (web_research_result st') =
        (length (web_research_result input) + length (dispatched env'))%nat /\
      search_query st' = search_query input ++ queries ++ queries_of (dispatched env') /\
      messages st' = messages input).
  { intros st' Hfin.
    destruct (research_rounds_evidence _ _ _ _ _ _ _ Hrun Hfin)
      as (new & Hd & Hsq & Hw & Hm & _).
    rewrite Hq, Hstart in Hd. cbn [app] in Hd. subst new.
    rewrite Hw, Hm, Hsq. unfold planned_state.
    cbn [merge query_update web_research_result messages search_query].
    rewrite !app_nil_r, <- app_assoc. repeat split. }
  destruct res as [st answer|st|]; cbn [invoke_result] in Hend; [| |discriminate Hend].
  - injection Hend as <-. destruct (Hplanned st eq_refl) as (Hw & Hsq & Hm).
    apply research_rounds_finalized in Hrun as (env2 & Hfin).
    destruct (finalize_answer_message _ _ _ _ Hfin) as (text & Htext).
    apply finalize_answer_returns in Hfin as (Hsq' & Hw' & _).
    cbn [merge web_research_result search_query messages].
    rewrite Hsq', Hw', !app_nil_r, Hw, Hsq, Hm, Htext.
    split; [reflexivity|]. split; [reflexivity|]. exists text. split; reflexivity.
  - injection Hend as <-. destruct (Hplanned st eq_refl) as (Hw & Hsq & Hm).
    split; [exact Hw|]. split; [exact Hsq | exact Hm].
Qed.

Lemma web_research_dicts state env upd env' :
  web_research state env = (Return upd, env') ->
  exists sources, sources_gathered upd = map source_dict sources.
Proof.
  intros H.
  destruct (search_web (ws_search_query state) 8 env) as [[results|e] env1] eqn:Hs.
  - destruct results as [|r rs].
    + rewrite (web_research_no_results _ _ _ Hs) in H. inversion H; subst; clear H.
      exists []. reflexivity.
    + rewrite (web_research_some_results _ _ _ _ _ Hs) in H.
      apply bind_Return_inv in H as (text & env2 & _ & H).
      inversion H; subst; clear H. eexists. reflexivity.
  - unfold web_research in H. rewrite (bind_Raise _ _ _ _ _ Hs) in H. discriminate H.
Qed.

Lemma await_all_dicts sends : forall st env st' env' sources,
  await_all st sends env = (Return st', env') ->
  sources_gathered st = map source_dict sources ->
  exists sources', sources_gathered st' = map source_dict sources'.
Proof.
  induction sends as [|s rest IH]; intros st env st' env' sources H Hd; simpl in H.
  - inversion H; subst; clear H. exists sources. exact Hd.
  - apply bind_Return_inv in H as (upd & env1 & Hw & H).
    apply web_research_dicts in Hw as (found & Hfound).
    apply (IH _ _ _ _ (sources ++ found)) in H; [exact H|].
    cbn [merge sources_gathered]. rewrite Hd, Hfound, map_app. reflexivity.
Qed.

Lemma research_rounds_dicts fuel : forall st sends env res env' st' sources,
  research_rounds fuel st sends env = (Return res, env') ->
  final_state res = Some st' ->
  sources_gathered st = map source_dict sources ->
  exists sources', sources_gathered st' = map source_dict sources'.
Proof.
  induction fuel as [|fuel IH]; intros st sends env res env' st' sources Hrun Hfin Hd.
  - destruct sends; simpl in Hrun; inversion Hrun; subst; clear Hrun;
      simpl in Hfin; inversion Hfin; subst. exists sources. exact Hd.
  - destruct sends as [|s rest].
    { simpl in Hrun. inversion Hrun; subst; clear Hrun. simpl in Hfin. inversion Hfin; subst.
      exists sources. exact Hd. }
    rewrite research_rounds_step in Hrun.
    apply bind_Return_inv in Hrun as (st1 & env1 & Hawait & Hrun).
    apply bind_Return_inv in Hrun as (r & env2 & _ & Hrun).
    apply (await_all_dicts _ _ _ _ _ sources) in Hawait as (sources1 & Hd1); [|exact Hd].
    assert (Hd2 : sources_gathered (merge st1 (reflection_update r))
                  = map source_dict sources1) by (simpl; rewrite app_nil_r; exact Hd1).
    cbv zeta in Hrun.
    set (st2 := merge st1 (reflection_update r)) in *. clearbody st2.
    destruct (evaluate_research (reflection_view st2 r)) as [|next].
    + apply bind_Return_inv in Hrun as (answer & env3 & _ & Hrun).
      inversion Hrun; subst; clear Hrun. simpl in Hfin. inversion Hfin; subst.
      exists sources1. exact Hd2.
    + apply (IH _ _ _ _ _ _ _ Hrun Hfin Hd2).
Qed.

(** X7: in a run that has started without sources and with an empty
    dispatch log, at most eight sources are gathered for each dispatched
    query; [finalize_answer] returns them all under the key they were
    gathered under, so that the state that [graph.invoke] returns after
    the answer holds each of them twice, at most sixteen for each
    dispatched query. *)
Theorem returned_state_lists_sources_twice fuel input env res env' result
    (Hstart : dispatched env = [])
    (Hfresh : sources_gathered input = [])
    (Hrun : graph fuel input env = (Return res, env'))
    (Hend : invoke_result res = Some result) :
  (length (sources_gathered result) <= 16 * length (dispatched env'))%nat /\
  match res with
  | Finalized st answer =>
      (length (sources_gathered st) <= 8 * length (dispatched env'))%nat /\
      sources_gathered answer = sources_gathered st /\
      sources_gathered result = sources_gathered st ++ sources_gathered st
  | _ => (length (sources_gathered result) <= 8 * length (dispatched env'))%nat
  end.
Proof.
  unfold graph in Hrun.
  apply bind_Return_inv in Hrun as (queries & env1 & Hgen & Hrun).
  destruct (generate_query_returned _ _ _ _ Hgen) as (_ & Hq).
  assert (Hplanned : sources_gathered (planned_state input queries) = map source_dict [])
    by (unfold planned_state; simpl; rewrite Hfresh; reflexivity).
  assert (Hbound :
    forall st', final_state res = Some st' ->
      (length (sources_gathered st') <= 8 * length (dispatched env'))%nat /\
      exists sources, sources_gathered st' = map source_dict sources).
  { intros st' Hfin.
    destruct (research_rounds_evidence _ _ _ _ _ _ _ Hrun Hfin)
      as (new & Hd & _ & _ & _ & Hs).
    rewrite Hq, Hstart in Hd. cbn [app] in Hd. subst new.
    rewrite Hplanned in Hs. cbn [map length] in Hs. split; [lia|].
    apply (research_rounds_dicts _ _ _ _ _ _ _ _ Hrun Hfin Hplanned). }
  destruct res as [st answer|st|]; cbn [invoke_result] in Hend; [| |discriminate Hend].
  - injection Hend as <-. destruct (Hbound st eq_refl) as (Hlen & sources & Hdicts).
    apply research_rounds_finalized in Hrun as (env2 & Hfin).
    apply finalize_answer_returns in Hfin as (_ & _ & Hall).
    rewrite Hdicts, flat_map_source_dict, <- Hdicts in Hall.
    cbn [merge sources_gathered]. rewrite Hall, length_app.
    split; [lia|]. split; [exact Hlen|]. split; reflexivity.
  - injection Hend as <-. destruct (Hbound st eq_refl) as (Hlen & _).
    split; [lia | exact Hlen].
Qed.

(** X10: [run_agent] never raises and always has a text to show, given
    fuel for the rounds of the budget.  An exception of the run is caught,
    printed with its traceback, and returned as the text
    ['Error running agent: ...']; a run that ends without an answer gives
    ['No answer generated.']; a finalized run gives what [response_of]
    makes of the final state, whose first AI message is the answer that
    [finalize_answer] wrote. *)
Theorem run_agent_always_answers fuel query env
    (Hfuel : (1 <= fuel)%nat /\ (Z.to_nat (cfg_max_research_loops configurable) <= fuel)%nat) :
  exists shown env',
    run_agent fuel query env = (Return (Some shown), env') /\
    match graph fuel (run_agent_input query) env with
    | (Raise e, env1) =>
        shown = "Error running agent: " +:+ e /\
        env' = {| world := world env1;
                  stdout := stdout env1
                              ++ ["Full error details: " +:+ e;
                                  "Traceback: " +:+ format_exc e];
                  dispatched := dispatched env1 |}
    | (Return (Finalized st answer), env1) =>
        env' = env1 /\ shown = response_of (merge st answer) /\
        exists text,
          messages answer = [AIMessage text] /\
          first_ai_content (messages (merge st answer)) = text
    | (Return (Halted st), env1) => env' = env1 /\ shown = "No answer generated."
    | (Return OutOfFuel, env1) => False
    end.
Proof.
  destruct Hfuel as [Hone Hfuel].
  unfold run_agent, try_except, bind.
  destruct (graph fuel (run_agent_input query) env) as [[res|e] env1] eqn:Hrun.
  - assert (Hfueled : fst (graph fuel (run_agent_input query) env) <> Return OutOfFuel).
    { unfold graph, bind.
      destruct (generate_query (run_agent_input query) env) as [[queries|e] env0];
        [|simpl; discriminate].
      destruct (planned_state_facts (run_agent_input query) queries) as (Hc & Hb & _).
      apply research_rounds_fuel; [exact Hone|].
      rewrite Hc, Hb. unfold round_count, budget; simpl. lia. }
    rewrite Hrun in Hfueled. cbn [fst] in Hfueled.
    unfold graph in Hrun.
    apply bind_Return_inv in Hrun as (queries & env0 & _ & Hrun).
    destruct (planned_state_facts (run_agent_input query) queries) as (_ & _ & Hm).
    destruct res as [st answer|st|]; [| |congruence].
    + destruct (research_rounds_evidence _ _ _ _ _ _ st Hrun eq_refl)
      as (_ & _ & _ & _ & Hmsg & _).
      apply research_rounds_finalized in Hrun as (env2 & Hfin).
      apply finalize_answer_message in Hfin as (text & Htext).
      eexists _, _. split; [reflexivity|]. split; [reflexivity|]. split; [reflexivity|].
      exists text. split; [exact Htext|].
      cbn [merge messages]. rewrite Hmsg, Hm, Htext. reflexivity.
    + destruct (research_rounds_evidence _ _ _ _ _ _ st Hrun eq_refl)
      as (_ & _ & _ & _ & Hmsg & _).
      eexists _, _. split; [reflexivity|]. split; [reflexivity|].
      unfold response_of. rewrite Hmsg, Hm. reflexivity.
  - unfold print, ret. cbn [world stdout dispatched].
    eexists _, _. split; [reflexivity|]. split; [reflexivity|].
    rewrite <- app_assoc. reflexivity.
Qed.

Local Abbreviation cli_main :=
  (cli_main World search_api query_writer web_searcher reflector answer_writer configurable).

(** X11: [main] of the command-line example prints one line, the content
    of the last message of the final state: the answer when the run was
    finalized, and the question itself when the run ended without an
    answer.  It guards nothing: an exception of the run leaves [main]. *)
Theorem cli_main_prints_last_message fuel question initial_queries max_loops answer_model' env
    (Hfuel : (1 <= fuel)%nat /\
             (Z.to_nat (budget (cli_input question initial_queries max_loops answer_model'))
              <= fuel)%nat) :
  match graph fuel (cli_input question initial_queries max_loops answer_model') env with
  | (Raise e, env1) =>
      cli_main fuel question initial_queries max_loops answer_model' env = (Raise e, env1)
  | (Return (Finalized st answer), env1) =>
      exists text,
        messages answer = [AIMessage text] /\
        cli_main fuel question initial_queries max_loops answer_model' env =
          (Return (Some tt),
           {| world := world env1; stdout := stdout env1 ++ [text];
              dispatched := dispatched env1 |})
  | (Return (Halted st), env1) =>
      cli_main fuel question initial_queries max_loops answer_model' env =
        (Return (Some tt),
         {| world := world env1; stdout := stdout env1 ++ [question];
            dispatched := dispatched env1 |})
  | (Return OutOfFuel, env1) => False
  end.
Proof.
  destruct Hfuel as [Hone Hfuel].
  set (input := cli_input question initial_queries max_loops answer_model') in *.
  assert (Hmain : cli_main fuel question initial_queries max_loops answer_model' env =
    match graph fuel input env with
    | (Return res, env1) =>
        match invoke_result res with
        | Some result =>
            match last (messages result) with
            | Some message =>
                (Return (Some tt),
                 {| world := world env1; stdout := stdout env1 ++ [content message];
                    dispatched := dispatched env1 |})
            | None => (Return (Some tt), env1)
            end
        | None => (Return None, env1)
        end
    | (Raise e, env1) => (Raise e, env1)
    end).
  { unfold cli_main, bind at 1. fold input.
    destruct (graph fuel input env) as [[res|e] env1]; [|reflexivity].
    destruct (invoke_result res) as [result|]; [|reflexivity].
    destruct (last (messages result)); reflexivity. }
  rewrite Hmain. clear Hmain.
  destruct (graph fuel input env) as [[res|e] env1] eqn:Hrun; [|reflexivity].
  assert (Hfueled : fst (graph fuel input env) <> Return OutOfFuel).
  { unfold graph, bind.
    destruct (generate_query input env) as [[queries|e] env0]; [|simpl; discriminate].
    destruct (planned_state_facts input queries) as (Hc & Hb & _).
    apply research_rounds_fuel; [exact Hone|].
    rewrite Hc, Hb. unfold round_count at 1. cbn [input cli_input research_loop_count default].
    fold input. lia. }
  rewrite Hrun in Hfueled. cbn [fst] in Hfueled.
  unfold graph in Hrun.
  apply bind_Return_inv in Hrun as (queries & env0 & _ & Hrun).
  destruct (planned_state_facts input queries) as (_ & _ & Hm).
  destruct res as [st answer|st|]; [| |congruence].
  - destruct (research_rounds_evidence _ _ _ _ _ _ st Hrun eq_refl)
      as (_ & _ & _ & _ & Hmsg & _).
    apply research_rounds_finalized in Hrun as (env2 & Hfin).
    apply finalize_answer_message in Hfin as (text & Htext).
    exists text. split; [exact Htext|].
    cbn [invoke_result merge messages]. rewrite Hmsg, Hm, Htext. reflexivity.
  - destruct (research_rounds_evidence _ _ _ _ _ _ st Hrun eq_refl)
      as (_ & _ & _ & _ & Hmsg & _).
    cbn [invoke_result]. rewrite Hmsg, Hm. reflexivity.
Qed.

Local Abbreviation search_is_down := (search_is_down World search_api).

(** The nodes that call a model print nothing. *)
Lemma generate_query_prints_nothing state env :
  stdout (snd (generate_query state env)) = stdout env.
Proof.
  unfold generate_query, last_content, bind, call, ret, raise.
  destruct (last (map content (messages state))); [|reflexivity].
  destruct (query_writer _ _ _ (world env)) as [[queries|e] w]; reflexivity.
Qed.

Lemma reflection_prints_nothing state env :
  stdout (snd (reflection state env)) = stdout env.
Proof.
  unfold reflection, last_content, bind, call, ret, raise.
  destruct (last (map content (messages state))); [|reflexivity].
  destruct (reflector _ _ _ (world env)) as [[verdict|e] w]; reflexivity.
Qed.

Lemma finalize_answer_prints_nothing state env :
  stdout (snd (finalize_answer state env)) = stdout env.
Proof.
  unfold finalize_answer, last_content, bind, call, ret, raise.
  destruct (last (map content (messages state))); [|reflexivity].
  destruct (answer_writer _ _ _ (world env)) as [[text|e] w]; reflexivity.
Qed.

Lemma web_research_search_down state env :
  search_is_down ->
  exists e w',
    web_research state env =
    (Return (no_results_finding (ws_search_query state)),
     {| world := w'; stdout := stdout env ++ ["Search API error: " +:+ e];
        dispatched := dispatched env |}).
Proof.
  intros Hdown.
  destruct (Hdown (search_params (ws_search_query state) 8) (world env)) as (e & w' & Hfail).
  exists e, w'. apply web_research_no_results.
  unfold search_web, try_except, bind, call, print, ret. rewrite Hfail. reflexivity.
Qed.

Lemma await_all_search_down sends : forall st env st' env',
  search_is_down ->
  await_all st sends env = (Return st', env') ->
  web_research_result st' =
    web_research_result st
    ++ map (fun q => "No search results found for: " +:+ q) (queries_of sends) /\
  sources_gathered st' = sources_gathered st /\
  length (stdout env') = (length (stdout env) + length sends)%nat.
Proof.
  induction sends as [|s rest IH]; intros st env st' env' Hdown H; simpl in H.
  - inversion H; subst; clear H. cbn [queries_of map length]. rewrite app_nil_r.
    repeat split. lia.
  - destruct (web_research_search_down (send_arg s) env Hdown) as (e & w' & Hw).
    rewrite (bind_Return _ _ _ _ _ Hw) in H.
    apply (IH _ _ _ _ Hdown) in H as (Hr & Hs & Hout).
    rewrite Hr, Hs, Hout. cbn [merge no_results_finding web_research_result sources_gathered
      stdout queries_of map length].
    rewrite <- app_assoc, app_nil_r, length_app. cbn [app length]. repeat split. lia.
Qed.

Lemma research_rounds_search_down fuel : forall st sends env res env' st',
  search_is_down ->
  research_rounds fuel st sends env = (Return res, env') ->
  final_state res = Some st' ->
  exists new,
    dispatched env' = dispatched env ++ new /\
    web_research_result st' =
      web_research_result st
      ++ map (fun q => "No search results found for: " +:+ q) (queries_of new) /\
    sources_gathered st' = sources_gathered st /\
    length (stdout env') = (length (stdout env) + length new)%nat.
Proof.
  induction fuel as [|fuel IH]; intros st sends env res env' st' Hdown Hrun Hfin.
  - destruct sends; simpl in Hrun; inversion Hrun; subst; clear Hrun;
      simpl in Hfin; inversion Hfin; subst.
    exists []. cbn [queries_of map length]. rewrite !app_nil_r. repeat split. lia.
  - destruct sends as [|s rest].
    { simpl in Hrun. inversion Hrun; subst; clear Hrun. simpl in Hfin. inversion Hfin; subst.
      exists []. cbn [queries_of map length]. rewrite !app_nil_r. repeat split. lia. }
    rewrite research_rounds_step in Hrun.
    apply bind_Return_inv in Hrun as (st1 & env1 & Hawait & Hrun).
    apply bind_Return_inv in Hrun as (r & env2 & Hrefl & Hrun).
    match type of Hawait with
    | await_all st (s :: rest) ?e = _ =>
        pose proof (quiet_await_all (s :: rest) st e) as Hq1
    end.
    rewrite Hawait in Hq1. cbn [snd dispatched] in Hq1.
    pose proof (quiet_reflection st1 env1) as Hq2.
    pose proof (reflection_prints_nothing st1 env1) as Hp2.
    rewrite Hrefl in Hq2, Hp2. cbn [snd] in Hq2, Hp2.
    apply (await_all_search_down _ _ _ _ _ Hdown) in Hawait as (Hwr & Hsrc & Hout).
    cbn [stdout] in Hout.
    assert (Hwr2 : web_research_result (merge st1 (reflection_update r))
                   = web_research_result st1) by (simpl; apply app_nil_r).
    assert (Hsrc2 : sources_gathered (merge st1 (reflection_update r))
                    = sources_gathered st1) by (simpl; apply app_nil_r).
    cbv zeta in Hrun.
    set (st2 := merge st1 (reflection_update r)) in *. clearbody st2.
    destruct (evaluate_research (reflection_view st2 r)) as [|next] eqn:Heval.
    + apply bind_Return_inv in Hrun as (answer & env3 & Hfinal & Hrun).
      pose proof (quiet_finalize_answer st2 env2) as Hq3.
      pose proof (finalize_answer_prints_nothing st2 env2) as Hp3.
      rewrite Hfinal in Hq3, Hp3. cbn [snd] in Hq3, Hp3.
      inversion Hrun; subst; clear Hrun. simpl in Hfin. inversion Hfin; subst.
      exists (s :: rest). rewrite Hq3, Hq2, Hq1, Hp3, Hp2, Hout, Hwr2, Hwr, Hsrc2, Hsrc.
      repeat split.
    + destruct (IH _ _ _ _ _ _ Hdown Hrun Hfin) as (new & Hd & Hw & Hs & Ho).
      exists ((s :: rest) ++ new).
      rewrite Hd, Hq2, Hq1, Hw, Hwr2, Hwr, Hs, Hsrc2, Hsrc, Ho, Hp2, Hout, <- !app_assoc.
      unfold queries_of. rewrite !map_app, !length_app. repeat split. lia.
Qed.


Local Abbreviation gives_up := (gives_up World reflector).

Lemma run_agent_halted fuel query env st env1 :
  graph fuel (run_agent_input query) env = (Return (Halted st), env1) ->
  messages st = [HumanMessage query] ->
  run_agent fuel query env = (Return (Some "No answer generated."), env1).
Proof.
  intros Hrun Hmsg. unfold run_agent, try_except, bind. rewrite Hrun.
  unfold ret. cbn [invoke_result option_map]. unfold response_of. rewrite Hmsg. reflexivity.
Qed.

(** X14: when the planner proposes no query, nothing is searched,
    evaluated or written: the run of [run_agent] ends right after
    [generate_query], with the state it started from, and the text shown
    is ['No answer generated.']. *)
Theorem no_planned_queries_no_answer fuel query env w'
    (Hplan : query_writer (query_generator_model configurable) query
               (number_of_initial_queries configurable) (world env) = (Return [], w')) :
  graph fuel (run_agent_input query) env =
    (Return (Halted (planned_state (run_agent_input query) [])),
     {| world := w'; stdout := stdout env; dispatched := dispatched env |}) /\
  run_agent fuel query env =
    (Return (Some "No answer generated."),
     {| world := w'; stdout := stdout env; dispatched := dispatched env |}).
Proof.
  assert (Hgen : generate_query (run_agent_input query) env =
                 (Return [], {| world := w'; stdout := stdout env;
                                dispatched := dispatched env |})).
  { unfold generate_query, last_content. cbn [run_agent_input messages map content last
      initial_search_query_count].
    rewrite (bind_Return _ _ _ query env eq_refl). apply call_Return, Hplan. }
  assert (Hrun : graph fuel (run_agent_input query) env =
                 (Return (Halted (planned_state (run_agent_input query) [])),
                  {| world := w'; stdout := stdout env; dispatched := dispatched env |})).
  { rewrite (graph_unfold _ _ _ _ _ Hgen).
    assert (Hnone : continue_to_web_research (planned_queries (run_agent_input query) []) = [])
      by reflexivity.
    rewrite Hnone. destruct fuel; reflexivity. }
  split; [exact Hrun|].
  apply (run_agent_halted _ _ _ _ _ Hrun).
  destruct (planned_state_facts (run_agent_input query) []) as (_ & _ & Hm). exact Hm.
Qed.

Lemma reflection_gives_up st env :
  gives_up -> messages st <> [] ->
  exists r env',
    reflection st env = (Return r, env') /\
    is_sufficient r = false /\ follow_up_queries r = [].
Proof.
  intros Hjudge Hmsg. unfold reflection.
  destruct (last_content_total _ Hmsg) as (topic & ->).
  rewrite (bind_Return _ _ _ topic env eq_refl).
  match goal with
  | |- context [call World (reflector ?m ?t ?s)] =>
      destruct (Hjudge m t s (world env)) as (verdict & w' & Hc & Hins & Hfu)
  end.
  rewrite (bind_Return _ _ _ _ _ (call_Return _ _ _ _ Hc)).
  unfold ret. eexists _, _. split; [reflexivity|]. simpl. split; assumption.
Qed.

(** X15: when the evaluator is not satisfied but proposes no follow-up
    query, and the budget is not reached, [evaluate_research] returns an
    empty batch: the run of [run_agent] stops after the first evaluation
    without [finalize_answer], and the text shown is
    ['No answer generated.'], whatever has been found. *)
Theorem unsatisfied_without_follow_ups_gives_no_answer fuel query env
    (Hbudget : 2 <= cfg_max_research_loops configurable)
    (Hplan : plans_something)
    (Hjudge : gives_up)
    (Hsum : forall model topic found, reliable (web_searcher model topic found)) :
  exists st' env',
    graph (S fuel) (run_agent_input query) env = (Return (Halted st'), env') /\
    round_count st' = 1 /\
    (length (dispatched env') =
       length (dispatched env) + length (web_research_result st'))%nat /\
    run_agent (S fuel) query env = (Return (Some "No answer generated."), env').
Proof.
  assert (Hmsg : messages (run_agent_input query) <> []) by discriminate.
  destruct (generate_query_plans _ env Hplan Hmsg) as (queries & env1 & Hgen & Hne & Hd).
  destruct (planned_state_facts (run_agent_input query) queries) as (Hc & Hb & Hm).
  pose proof (planned_queries_some (run_agent_input query) queries Hne) as Hsends.
  assert (Hrun : exists st' env',
    research_rounds (S fuel) (planned_state (run_agent_input query) queries)
      (continue_to_web_research (planned_queries (run_agent_input query) queries)) env1
    = (Return (Halted st'), env') /\
    round_count st' = 1 /\ messages st' = [HumanMessage query]).
  { destruct (continue_to_web_research _) as [|s rest]; [congruence|].
    rewrite research_rounds_step.
    match goal with
    | |- context [bind World (await_all ?st (s :: rest)) _ ?e] =>
        destruct (await_all_total (s :: rest) Hsum st e) as (st1 & env2 & Hawait)
    end.
    rewrite (bind_Return _ _ _ _ _ Hawait).
    apply await_all_returns in Hawait as (_ & _ & Hmsg1 & _ & Hmax & Hcount & _).
    assert (Hmsg1' : messages st1 <> []) by (rewrite Hmsg1, Hm; exact Hmsg).
    destruct (reflection_gives_up st1 env2 Hjudge Hmsg1') as (r & env3 & Hrefl & Hins & Hfu).
    rewrite (bind_Return _ _ _ _ _ Hrefl).
    apply reflection_returns in Hrefl as (Hinc & _).
    destruct (after_reflection _ st1 r Hmax Hcount Hinc) as (Hb2 & Hc2 & Hr & Hbm & Hmsg2 & _).
    cbv zeta in Hb2, Hc2, Hr, Hbm, Hmsg2 |- *.
    set (st2 := merge st1 (reflection_update r)) in *. clearbody st2.
    assert (Heval : evaluate_research (reflection_view st2 r) = to_sends []).
    { unfold evaluate_research. rewrite Hr, Hbm.
      cbn [reflection_view is_sufficient follow_up_queries]. rewrite Hins, Hfu.
      destruct (Z.geb_spec (round_count st2) (budget st2)) as [Hge|_]; [|reflexivity].
      rewrite Hb2, Hc2, Hb, Hc in Hge. unfold round_count, budget in Hge. simpl in Hge. lia. }
    rewrite Heval. exists st2, env3.
    split; [destruct fuel; reflexivity|]. split.
    - rewrite Hc2, Hc. reflexivity.
    - rewrite Hmsg2, Hmsg1, Hm. reflexivity. }
  destruct Hrun as (st' & env' & Hrun & Hcount & Hmsg').
  assert (Hgraph : graph (S fuel) (run_agent_input query) env = (Return (Halted st'), env'))
    by (rewrite (graph_unfold _ _ _ _ _ Hgen); exact Hrun).
  exists st', env'. split; [exact Hgraph|]. split; [exact Hcount|]. split.
  - destruct (research_rounds_evidence _ _ _ _ _ _ st' Hrun eq_refl)
      as (new & Hdisp & _ & Hfound & _).
    rewrite Hfound, Hdisp, Hd, length_app.
    unfold planned_state. simpl. lia.
  - apply (run_agent_halted _ _ _ _ _ Hgraph Hmsg').
Qed.

End AgentProperties.

(** *** The citation helper *)

Lemma string_app_cons (x : ascii) (a b : string) : String x a +:+ b = String x (a +:+ b).
Proof. reflexivity. Qed.

Lemma string_app_assoc (a b c : string) : (a +:+ b) +:+ c = a +:+ (b +:+ c).
Proof.
  induction a as [|x a IH]; [reflexivity|].
  rewrite !string_app_cons, IH. reflexivity.
Qed.

Lemma string_app_length (a b : string) :
  String.length (a +:+ b) = (String.length a + String.length b)%nat.
Proof.
  induction a as [|x a IH]; [reflexivity|].
  rewrite string_app_cons. cbn [String.length]. rewrite IH. reflexivity.
Qed.

Lemma prefix_nil (s : string) : String.prefix "" s = true.
Proof. destruct s; reflexivity. Qed.

Lemma prefix_app (p Y : string) : String.prefix p (p +:+ Y) = true.
Proof.
  induction p as [|c p IH]; [apply prefix_nil|].
  rewrite string_app_cons. cbn [String.prefix].
  destruct (ascii_dec c c); [exact IH | congruence].
Qed.

Lemma prefix_split (p s : string) : String.prefix p s = true -> exists Y, s = p +:+ Y.
Proof.
  revert s. induction p as [|c p IH]; intros s H.
  - exists s. reflexivity.
  - destruct s as [|c' s]; [discriminate|]. cbn [String.prefix] in H.
    destruct (ascii_dec c c') as [<-|]; [|discriminate].
    destruct (IH _ H) as (Y & ->). exists Y. reflexivity.
Qed.

Lemma prefix_cons (c : ascii) (p : string) (c' : ascii) (s : string) :
  String.prefix (String c p) (String c' s) = true <-> c = c' /\ String.prefix p s = true.
Proof.
  cbn [String.prefix]. destruct (ascii_dec c c'); split; intros H; try tauto; discriminate.
Qed.

Lemma prefix_app_cases (p a X : string) :
  String.prefix p (a +:+ X) = true ->
  String.prefix p a = true \/ exists p2, p = a +:+ p2.
Proof.
  revert p. induction a as [|c a IH]; intros p H.
  - right. exists p. reflexivity.
  - destruct p as [|c' p]; [left; apply prefix_nil|].
    rewrite string_app_cons in H. apply prefix_cons in H as [-> H].
    destruct (IH _ H) as [Hp | (p2 & ->)].
    + left. apply prefix_cons. split; [reflexivity | exact Hp].
    + right. exists p2. reflexivity.
Qed.

Lemma replace_from_skip (old new w s : string) :
  Py.replace_from old new (String.length w) (w +:+ s) = Py.replace_from old new 0 s.
Proof. induction w as [|c w IH]; [destruct s; reflexivity | exact IH]. Qed.

Lemma replace_from_match (c : ascii) (old' new Y : string) :
  Py.replace_from (String c old') new 0 (String c old' +:+ Y)
  = new +:+ Py.replace_from (String c old') new 0 Y.
Proof.
  change (String c old' +:+ Y) with (String c (old' +:+ Y)).
  cbn [Py.replace_from].
  change (String c (old' +:+ Y)) with (String c old' +:+ Y).
  rewrite prefix_app.
  replace (String.length (String c old') - 1)%nat with (String.length old')
    by (cbn [String.length]; lia).
  rewrite replace_from_skip. reflexivity.
Qed.

Lemma replace_from_copy (old new : string) (c : ascii) (s : string) :
  String.prefix old (String c s) = false ->
  Py.replace_from old new 0 (String c s) = String c (Py.replace_from old new 0 s).
Proof. intros H. cbn [Py.replace_from]. rewrite H. reflexivity. Qed.

Lemma rewrite_once_skip table (w s : string) :
  rewrite_once_from table (String.length w) (w +:+ s) = rewrite_once_from table 0 s.
Proof. induction w as [|c w IH]; [destruct s; reflexivity | exact IH]. Qed.

Lemma entry_at_Some table s marker link :
  entry_at table s = Some (marker, link) ->
  In (marker, link) table /\ String.prefix marker s = true.
Proof.
  induction table as [|[m l] rest IH]; simpl; [discriminate|].
  destruct (String.prefix m s) eqn:Hp.
  - intros H. inversion H; subst. split; [left; reflexivity | exact Hp].
  - intros H. destruct (IH H). split; [right; assumption | assumption].
Qed.

Lemma entry_at_None table s :
  entry_at table s = None <-> forall marker link, In (marker, link) table -> String.prefix marker s = false.
Proof.
  induction table as [|[m l] rest IH]; simpl.
  - split; [intros _ ? ? [] | reflexivity].
  - destruct (String.prefix m s) eqn:Hp.
    + split; [discriminate|]. intros H. rewrite (H m l) in Hp; [discriminate | left; reflexivity].
    + rewrite IH. split.
      * intros H marker link [Heq | Hin]; [inversion Heq; subst; exact Hp | eapply H, Hin].
      * intros H marker link Hin. eapply H. right. exact Hin.
Qed.

Lemma entry_at_ext table s s' :
  (forall marker link, In (marker, link) table -> String.prefix marker s = String.prefix marker s') ->
  entry_at table s = entry_at table s'.
Proof.
  induction table as [|[m l] rest IH]; intros H; simpl; [reflexivity|].
  rewrite <- (H m l) by (left; reflexivity).
  destruct (String.prefix m s); [reflexivity|].
  apply IH. intros marker link Hin. eapply H. right. exact Hin.
Qed.

Lemma rewrite_once_match table (c : ascii) (m' link Y : string) :
  entry_at table (String c m' +:+ Y) = Some (String c m', link) ->
  rewrite_once_from table 0 (String c m' +:+ Y) = link +:+ rewrite_once_from table 0 Y.
Proof.
  intros H. change (String c m' +:+ Y) with (String c (m' +:+ Y)) in *.
  cbn [rewrite_once_from]. rewrite H.
  replace (String.length (String c m') - 1)%nat with (String.length m')
    by (cbn [String.length]; lia).
  rewrite rewrite_once_skip. reflexivity.
Qed.

Lemma rewrite_once_copy table (c : ascii) (s : string) :
  entry_at table (String c s) = None ->
  rewrite_once_from table 0 (String c s) = String c (rewrite_once_from table 0 s).
Proof. intros H. cbn [rewrite_once_from]. rewrite H. reflexivity. Qed.

(** Shapes of markers and links. *)

Lemma no_char_app (x : ascii) (a b : string) :
  no_char x (a +:+ b) <-> no_char x a /\ no_char x b.
Proof.
  induction a as [|c a IH]; [simpl; tauto|].
  rewrite string_app_cons. cbn [no_char]. rewrite IH. tauto.
Qed.

Lemma marker_shape_open (m : string) :
  marker_shape m -> exists w, m = String "[" w /\ no_char "[" w.
Proof.
  intros (d & -> & Hopen & _). exists (d +:+ "]"). split; [reflexivity|].
  apply no_char_app. split; [exact Hopen|]. simpl. split; [discriminate | exact I].
Qed.

Lemma marker_shape_no_close (m : string) : marker_shape m -> no_char ")" m.
Proof.
  intros (d & -> & _ & _ & Hclose). cbn [no_char]. split; [discriminate|].
  apply no_char_app. split; [exact Hclose|]. simpl. split; [discriminate | exact I].
Qed.

Lemma number_prefix_unique (d1 : string) : forall d2 Y,
  no_char "]" d1 -> no_char "]" d2 ->
  String.prefix (d1 +:+ "]") (d2 +:+ "]" +:+ Y) = true -> d1 = d2.
Proof.
  induction d1 as [|c d1 IH]; intros d2 Y H1 H2 Hp.
  - destruct d2 as [|c' d2]; [reflexivity|].
    change ("" +:+ "]") with (String "]" "") in Hp. rewrite string_app_cons in Hp.
    apply prefix_cons in Hp as [<- _]. destruct H2 as [H2 _]. congruence.
  - destruct H1 as [Hc H1]. destruct d2 as [|c' d2].
    + change ("" +:+ "]" +:+ Y) with (String "]" Y) in Hp. rewrite string_app_cons in Hp.
      apply prefix_cons in Hp as [-> _]. congruence.
    + rewrite !string_app_cons in Hp. apply prefix_cons in Hp as [<- Hp].
      destruct H2 as [_ H2]. rewrite (IH d2 Y H1 H2 Hp). reflexivity.
Qed.

Lemma marker_prefix_unique (m1 m2 Y : string) :
  marker_shape m1 -> marker_shape m2 ->
  String.prefix m1 (m2 +:+ Y) = true -> m1 = m2.
Proof.
  intros (d1 & -> & _ & H1 & _) (d2 & -> & _ & H2 & _) Hp.
  rewrite string_app_cons in Hp. apply prefix_cons in Hp as [_ Hp].
  rewrite string_app_assoc in Hp.
  rewrite (number_prefix_unique d1 d2 Y H1 H2 Hp). reflexivity.
Qed.

Lemma open_not_prefix (m' : string) (c : ascii) (s : string) :
  c <> "["%char -> String.prefix (String "[" m') (String c s) = false.
Proof.
  intros Hc. destruct (String.prefix (String "[" m') (String c s)) eqn:Hp; [|reflexivity].
  apply prefix_cons in Hp as [<- _]. congruence.
Qed.

Lemma replace_from_copy_no_open (m' new w Y : string) :
  no_char "[" w ->
  Py.replace_from (String "[" m') new 0 (w +:+ Y)
  = w +:+ Py.replace_from (String "[" m') new 0 Y.
Proof.
  induction w as [|c w IH]; intros Hw; [reflexivity|].
  destruct Hw as [Hc Hw]. rewrite !string_app_cons.
  rewrite replace_from_copy by (apply open_not_prefix, Hc).
  rewrite (IH Hw). reflexivity.
Qed.

Lemma prefix_replace_no_open (m' new' : string) (w : string) : forall t,
  no_char "[" w ->
  String.prefix w (Py.replace_from (String "[" m') (String "[" new') 0 t) = true ->
  String.prefix w t = true.
Proof.
  induction w as [|c w IH]; intros t Hw Hp; [apply prefix_nil|].
  destruct Hw as [Hc Hw]. destruct t as [|c' t]; [discriminate Hp|].
  destruct (String.prefix (String "[" m') (String c' t)) eqn:Hm.
  - cbn [Py.replace_from] in Hp. rewrite Hm in Hp. rewrite string_app_cons in Hp.
    apply prefix_cons in Hp as [-> _]. congruence.
  - rewrite (replace_from_copy _ _ _ _ Hm) in Hp. apply prefix_cons in Hp as [-> Hp].
    apply prefix_cons. split; [reflexivity | apply (IH t Hw Hp)].
Qed.

Lemma contains_cons (sub : string) (c : ascii) (s : string) :
  Py.contains sub (String c s) = String.prefix sub (String c s) || Py.contains sub s.
Proof. reflexivity. Qed.

Lemma rewrite_once_copy_link table (pre X : string) :
  (forall marker link, In (marker, link) table ->
     marker_shape marker /\ Py.contains marker (pre +:+ ")") = false) ->
  rewrite_once_from table 0 ((pre +:+ ")") +:+ X)
  = (pre +:+ ")") +:+ rewrite_once_from table 0 X.
Proof.
  induction pre as [|c pre IH]; intros Htable.
  - change (("" +:+ ")") +:+ X) with (String ")" X).
    rewrite rewrite_once_copy; [reflexivity|].
    apply entry_at_None. intros marker link Hin.
    destruct (Htable _ _ Hin) as [Hshape _].
    apply marker_shape_open in Hshape as (w & -> & _).
    apply open_not_prefix. discriminate.
  - rewrite !string_app_cons. rewrite rewrite_once_copy.
    + rewrite IH; [reflexivity|].
      intros marker link Hin. destruct (Htable _ _ Hin) as [Hshape Hno].
      split; [exact Hshape|].
      rewrite string_app_cons, contains_cons in Hno.
      apply orb_false_elim in Hno. tauto.
    + apply entry_at_None. intros marker link Hin.
      destruct (Htable _ _ Hin) as [Hshape Hno].
      rewrite string_app_cons, contains_cons in Hno. apply orb_false_elim in Hno as [Hno _].
      destruct (String.prefix marker (String c ((pre +:+ ")") +:+ X))) eqn:Hp; [|reflexivity].
      rewrite <- string_app_cons in Hp.
      apply prefix_app_cases in Hp as [Hp | (p2 & Hp)]; [congruence|].
      apply marker_shape_no_close in Hshape. rewrite Hp in Hshape.
      apply no_char_app in Hshape as [Hshape _].
      change (String c (pre +:+ ")")) with (String c pre +:+ ")") in Hshape.
      apply no_char_app in Hshape as [_ [Hshape _]]. congruence.
Qed.

(** Replacing one marker everywhere and then reading the text once for the
    other markers is reading it once for all of them. *)

Lemma rewrite_once_after_replace (m l : string) (rest : list (string * string)) :
  marker_shape m -> link_shape l ->
  (forall marker link, In (marker, link) rest ->
     marker_shape marker /\ marker <> m /\ Py.contains marker l = false) ->
  forall text,
    rewrite_once_from rest 0 (Py.replace_from m l 0 text)
    = rewrite_once_from ((m, l) :: rest) 0 text.
Proof.
  intros Hm Hl Hrest text.
  remember (String.length text) as n eqn:Hn. revert text Hn.
  induction n as [n IH] using lt_wf_ind. intros text Hn.
  destruct text as [|c s]; [reflexivity|].
  destruct (marker_shape_open m Hm) as (w & -> & Hw).
  destruct Hl as (body & ->).
  destruct (String.prefix (String "[" w) (String c s)) eqn:Hpm.
  - (* the marker that is being replaced starts here *)
    apply prefix_split in Hpm as (Y & HY). rewrite HY.
    assert (Hlen : (String.length Y < n)%nat).
    { rewrite Hn, HY, string_app_length. cbn [String.length]. lia. }
    rewrite replace_from_match.
    change (String "[" (body +:+ ")")) with (String "[" body +:+ ")").
    rewrite rewrite_once_copy_link.
    + change (String "[" body +:+ ")") with (String "[" (body +:+ ")")).
      rewrite (rewrite_once_match _ _ _ (String "[" (body +:+ ")"))).
      * rewrite (IH _ Hlen Y eq_refl). reflexivity.
      * cbn [entry_at]. rewrite prefix_app. reflexivity.
    + intros marker link Hin. destruct (Hrest _ _ Hin) as (Hs & _ & Hc).
      split; [exact Hs | exact Hc].
  - destruct (entry_at rest (String c s)) as [[mj lj]|] eqn:He.
    + (* another marker starts here *)
      destruct (entry_at_Some _ _ _ _ He) as [Hin Hpj].
      destruct (Hrest _ _ Hin) as (Hsj & Hne & _).
      destruct (marker_shape_open mj Hsj) as (wj & -> & Hwj).
      apply prefix_split in Hpj as (Y & HY).
      assert (Hlen : (String.length Y < n)%nat).
      { rewrite Hn, HY, string_app_length. cbn [String.length]. lia. }
      assert (Hentry : forall Z,
                 entry_at rest (String "[" wj +:+ Z) = Some (String "[" wj, lj)).
      { intros Z. rewrite <- He. apply entry_at_ext. intros marker link Hin'.
        destruct (Hrest _ _ Hin') as (Hs' & _ & _). rewrite HY.
        destruct (String.prefix marker (String "[" wj +:+ Z)) eqn:H1;
          destruct (String.prefix marker (String "[" wj +:+ Y)) eqn:H2; try reflexivity.
        - apply marker_prefix_unique in H1; [|assumption..]. subst marker.
          rewrite prefix_app in H2. discriminate.
        - apply marker_prefix_unique in H2; [|assumption..]. subst marker.
          rewrite prefix_app in H1. discriminate. }
      rewrite HY in Hpm |- *.
      rewrite string_app_cons at 1. rewrite replace_from_copy
        by (rewrite <- string_app_cons; exact Hpm).
      rewrite replace_from_copy_no_open by exact Hwj.
      rewrite <- string_app_cons.
      rewrite (rewrite_once_match _ _ _ lj) by apply Hentry.
      rewrite (rewrite_once_match _ _ _ lj)
        by (cbn [entry_at]; rewrite Hpm; apply Hentry).
      rewrite (IH _ Hlen Y eq_refl). reflexivity.
    + (* no marker starts here *)
      assert (Hlen : (String.length s < n)%nat) by (rewrite Hn; cbn [String.length]; lia).
      rewrite (replace_from_copy _ _ _ _ Hpm).
      rewrite rewrite_once_copy.
      * rewrite rewrite_once_copy by (cbn [entry_at]; rewrite Hpm; exact He).
        rewrite (IH _ Hlen s eq_refl). reflexivity.
      * apply entry_at_None. intros marker link Hin.
        destruct (Hrest _ _ Hin) as (Hs' & _ & _).
        destruct (marker_shape_open marker Hs') as (w' & -> & Hw').
        destruct (String.prefix (String "[" w')
                    (String c (Py.replace_from (String "[" w) (String "[" (body +:+ ")")) 0 s)))
          eqn:Hp; [|reflexivity].
        apply prefix_cons in Hp as [<- Hp].
        apply prefix_replace_no_open in Hp; [|exact Hw'].
        rewrite entry_at_None in He.
        rewrite <- (He _ _ Hin). symmetry. apply prefix_cons. split; [reflexivity | exact Hp].
Qed.

Lemma replace_from_absent (c : ascii) (old' new s : string) :
  Py.contains (String c old') s = false ->
  Py.replace_from (String c old') new 0 s = s.
Proof.
  induction s as [|x s IH]; intros H; [reflexivity|].
  rewrite contains_cons in H. apply orb_false_elim in H as [Hp Hc].
  rewrite (replace_from_copy _ _ _ _ Hp), (IH Hc). reflexivity.
Qed.

Lemma rewrite_once_nil (s : string) : rewrite_once_from [] 0 s = s.
Proof. induction s as [|c s IH]; [reflexivity|]. cbn. rewrite IH. reflexivity. Qed.

Lemma citation_step_replace (text : string) (i : nat) (source : gmap string string) :
  citation_step text i source
  = Py.replace_from (marker_pattern i) (link_replacement i source) 0 text.
Proof.
  unfold citation_step.
  destruct (Py.contains (marker_pattern i) text) eqn:Hc; [reflexivity|].
  symmetry. apply replace_from_absent. exact Hc.
Qed.

Lemma pretty_N_char_plain (x0 : ascii) :
  x0 = "["%char \/ x0 = "]"%char \/ x0 = ")"%char -> forall n, pretty_N_char n <> x0.
Proof.
  intros [-> | [-> | ->]] n; unfold pretty_N_char; repeat case_match; discriminate.
Qed.

Lemma pretty_N_go_no_char (x0 : ascii) (x : N) :
  (forall n, pretty_N_char n <> x0) ->
  forall s, no_char x0 s -> no_char x0 (pretty_N_go x s).
Proof.
  intros Hx0. induction (N.lt_wf_0 x) as [x _ IH]; intros s Hs.
  destruct (decide (x = 0)%N) as [->|Hne]; [rewrite pretty_N_go_0; exact Hs|].
  rewrite pretty_N_go_step by lia.
  apply IH; [apply N.div_lt; lia|]. split; [apply Hx0 | exact Hs].
Qed.

Lemma pretty_nat_no_char (x0 : ascii) (i : nat) :
  x0 = "["%char \/ x0 = "]"%char \/ x0 = ")"%char -> no_char x0 (pretty i).
Proof.
  intros Hx0. pose proof (pretty_N_char_plain x0 Hx0) as Hplain.
  unfold pretty, pretty_nat, pretty, pretty_N.
  case_decide.
  - split; [exact (Hplain 0%N) | exact I].
  - apply pretty_N_go_no_char; [exact Hplain | exact I].
Qed.

Lemma marker_pattern_shape (i : nat) : marker_shape (marker_pattern i).
Proof.
  exists (pretty i). split; [reflexivity|].
  repeat split; apply pretty_nat_no_char; tauto.
Qed.

Lemma marker_pattern_inj (i j : nat) : marker_pattern i = marker_pattern j -> i = j.
Proof.
  unfold marker_pattern. intros H.
  change ("[" +:+ pretty i +:+ "]") with (String "[" (pretty i +:+ "]")) in H.
  change ("[" +:+ pretty j +:+ "]") with (String "[" (pretty j +:+ "]")) in H.
  inversion H as [H'].
  apply (inj pretty).
  apply (number_prefix_unique (pretty i) (pretty j) "").
  - apply pretty_nat_no_char. tauto.
  - apply pretty_nat_no_char. tauto.
  - rewrite H', <- string_app_assoc. apply prefix_app.
Qed.

Lemma link_replacement_shape (i : nat) (source : gmap string string) :
  link_shape (link_replacement i source).
Proof.
  unfold link_replacement.
  exists (Py.get source "title" ("Source " +:+ pretty i) +:+ "](" +:+ Py.get source "url" "#").
  cbv zeta. change ("[" +:+ ?x) with (String "[" x).
  rewrite !string_app_assoc. reflexivity.
Qed.

Lemma citation_table_In (marker link : string) (sources : list (gmap string string)) :
  forall i, In (marker, link) (citation_table i sources) ->
  exists j source, (i <= j < i + length sources)%nat /\
    marker = marker_pattern j /\ link = link_replacement j source.
Proof.
  induction sources as [|source rest IH]; intros i Hin; [destruct Hin|].
  destruct Hin as [Heq | Hin].
  - inversion Heq; subst. exists i, source. cbn [length]. repeat split; lia.
  - apply IH in Hin as (j & source' & Hj & -> & ->).
    exists j, source'. cbn [length]. repeat split; lia.
Qed.

Lemma citation_loop_single_pass (sources : list (gmap string string)) : forall i text,
  no_later_marker i sources ->
  citation_loop i sources text = rewrite_once_from (citation_table i sources) 0 text.
Proof.
  induction sources as [|source rest IH]; intros i text Hno.
  - symmetry. apply rewrite_once_nil.
  - destruct Hno as [Hhere Hrest]. cbn [citation_loop citation_table].
    rewrite (IH _ _ Hrest), citation_step_replace.
    apply rewrite_once_after_replace.
    + apply marker_pattern_shape.
    + apply link_replacement_shape.
    + intros marker link Hin.
      apply citation_table_In in Hin as (j & source' & Hj & -> & ->).
      split; [apply marker_pattern_shape|]. split.
      * intros Heq. apply marker_pattern_inj in Heq. lia.
      * apply Hhere. lia.
Qed.

(** X16: when no link contains the marker of a later source, the loop of
    [insert_citation_markers], which replaces one marker after the other,
    computes the substitution that reads the text once and puts each link
    in the place of its marker. *)
Lemma insert_citation_markers_single_pass (text : string) (sources : list (gmap string string)) :
  no_later_marker 1 sources ->
  insert_citation_markers text sources = spec_single_pass text sources.
Proof.
  intros Hno. unfold insert_citation_markers, spec_single_pass.
  destruct sources as [|source rest].
  - symmetry. apply rewrite_once_nil.
  - apply citation_loop_single_pass, Hno.
Qed.

(** C10: with no sources the text comes back unchanged, markers included. *)
Theorem insert_citation_markers_no_sources (text : string) :
  insert_citation_markers text [] = text.
Proof. reflexivity. Qed.

(** The example of the specification, read through the two definitions. *)
Example citation_two_sources_single_pass :
  no_later_marker 1 [source_info "u1" "X" ""; source_info "u2" "Y" ""] /\
  insert_citation_markers "See [1] and [2]."
    [source_info "u1" "X" ""; source_info "u2" "Y" ""]
  = spec_single_pass "See [1] and [2]."
      [source_info "u1" "X" ""; source_info "u2" "Y" ""].
Proof.
  assert (Hno : no_later_marker 1 [source_info "u1" "X" ""; source_info "u2" "Y" ""]).
  { split; [|split; [|exact I]]; intros j Hj; simpl in Hj.
    - assert (j = 2)%nat as -> by lia. vm_compute. reflexivity.
    - lia. }
  split; [exact Hno | apply insert_citation_markers_single_pass, Hno].
Defined.

(** C5: the markers are replaced one source after the other, in the text
    as modified so far.  When the title of source 1 contains the marker of
    source 2, the link that [1] has just become is rewritten again: [1]
    does not end up as the link to source 1, which the substitution of the
    specification gives. *)
Theorem citation_link_rewritten_by_later_marker :
  insert_citation_markers "See [1]."
    [source_info "u1" "Notes [2]" ""; source_info "u2" "Y" ""]
  = "See [Notes [Y](u2)](u1)."
  /\ spec_single_pass "See [1]."
       [source_info "u1" "Notes [2]" ""; source_info "u2" "Y" ""]
     = "See [Notes [2]](u1).".
Proof. split; vm_compute; reflexivity. Qed.

(** *** Concrete runs *)

Module Runs.

Import Demo.


Lemma sufficiency_then_budget_finalizes_witness :
  evaluate_research cfg
    {| is_sufficient := true; knowledge_gap := "gap"; follow_up_queries := ["more"];
       rs_research_loop_count := 1; number_of_ran_queries := 2;
       rs_max_research_loops := Some 5 |}
  = to_finalize_answer.
Proof. apply sufficiency_then_budget_finalizes. left. reflexivity. Defined.

Lemma search_failure_witness :
  api_down (search_params "q" 8) (world env0) = (Raise "503 Server Error", tt) /\
  web_research unit api_down (summarizer "s") cfg (search_for "q" 0) env0
  = (Return (no_results_finding "q"),
     mkEnv tt ["Search API error: 503 Server Error"] []).
Proof.
  split; [reflexivity|].
  apply (search_failure_degrades_summary_failure_propagates unit api_down (summarizer "s") cfg
           (search_for "q" 0) env0 "503 Server Error" tt).
  reflexivity.
Defined.

Lemma finalize_answer_keeps_every_source_witness :
  finalize_answer unit (writer "answer") cfg found_twice env0
  = (Return (answer_with "answer" (sources_gathered found_twice)), env0) /\
  sources_gathered (answer_with "answer" (sources_gathered found_twice))
  = sources_gathered found_twice.
Proof.
  assert (Hret : finalize_answer unit (writer "answer") cfg found_twice env0
                 = (Return (answer_with "answer" (sources_gathered found_twice)), env0))
    by (vm_compute; reflexivity).
  split; [exact Hret|].
  exact (proj2 (proj2 (finalize_answer_keeps_every_source unit (writer "answer") cfg
                         found_twice env0 _ _ Hret)) [src "a"; src "b"; src "a"] eq_refl).
Defined.

Lemma dispatch_indices_increase_witness :
  dispatched env0 = [] /\
  StronglySorted Z.lt
    (map send_id
       (dispatched
          (snd (graph unit api_none (planner ["a"; "b"]) (summarizer "s") (judge more_needed)
                  (writer "answer") cfg 2 (run_agent_input "question") env0)))) /\
  planned_then_shifted 2
    (dispatched
       (snd (graph unit api_none (planner ["a"; "b"]) (summarizer "s") (judge more_needed)
               (writer "answer") cfg 2 (run_agent_input "question") env0))).
Proof.
  split; [reflexivity|].
  destruct (dispatch_indices_increase unit api_none (planner ["a"; "b"]) (summarizer "s")
              (judge more_needed) (writer "answer") cfg 2 (run_agent_input "question")
              env0 eq_refl) as (Hsorted & _ & _ & Hshifted & _).
  split; [exact Hsorted | apply (Hshifted ["a"; "b"] env0); reflexivity].
Defined.

(** The dispatch indices of a run with two planned queries and one
    follow-up query. *)
Example indices_of_a_run :
  map send_id
    (dispatched
       (snd (graph unit api_none (planner ["a"; "b"]) (summarizer "s") (judge more_needed)
               (writer "answer") cfg 2 (run_agent_input "question") env0)))
  = [0; 1; 4].
Proof. vm_compute. reflexivity. Qed.

(** C6, as stated, fails: after an initial batch of two queries the
    follow-up query is the third to be dispatched, with two queries
    before it, and its index is 4: [search_query] holds the two planned
    queries and the two that were run. *)
Lemma dispatch_index_counterexample :
  dispatched
    (snd (graph unit api_none (planner ["a"; "b"]) (summarizer "s") (judge more_needed)
            (writer "answer") cfg 2 (run_agent_input "question") env0))
  = [send_web_research "a" 0; send_web_research "b" 1; send_web_research "more" 4]
  /\ ~ consecutive
        (dispatched
           (snd (graph unit api_none (planner ["a"; "b"]) (summarizer "s")
                   (judge more_needed) (writer "answer") cfg 2
                   (run_agent_input "question") env0))).
Proof.
  split; [vm_compute; reflexivity|].
  intros Hcons. vm_compute in Hcons. discriminate Hcons.
Qed.


Lemma zero_results_witness :
  search_web unit api_none "q" 8 env0 = (Return [], env0) /\
  exists finding,
    web_research unit api_none (summarizer "s") cfg (search_for "q" 0) env0 = (Return finding, env0) /\
    sources_gathered finding = [] /\
    web_research_result finding = ["No search results found for: q"].
Proof.
  split; [reflexivity|].
  destruct (zero_results_give_placeholder_finding unit api_none (summarizer "s") cfg
              (search_for "q" 0) env0 env0 eq_refl) as (finding & Hret & Hsrc & Htext & _).
  exists finding. split; [exact Hret|]. split; [exact Hsrc | exact Htext].
Defined.

Lemma fan_in_witness :
  await_all unit api_none (summarizer "s") cfg (run_agent_input "question")
    [send_web_research "a" 0; send_web_research "b" 1] env0
  = (Return two_placeholders, env0) /\
  length (web_research_result two_placeholders)
  = (length (web_research_result (run_agent_input "question")) + 2)%nat.
Proof.
  assert (Hdone : await_all unit api_none (summarizer "s") cfg (run_agent_input "question")
                    [send_web_research "a" 0; send_web_research "b" 1] env0
                  = (Return two_placeholders, env0)) by (vm_compute; reflexivity).
  split; [exact Hdone|].
  exact (proj1 (fan_in_adds_one_finding_per_query unit api_none (summarizer "s") cfg
                  _ _ _ _ _ Hdone)).
Defined.

Lemma at_most_eight_sources_witness :
  web_research unit api_eight (summarizer "See [1] and [2].") cfg (search_for "q" 0) env0
  = (Return cited_finding, env0) /\
  (length (sources_gathered cited_finding) <= 8)%nat /\
  sources_gathered cited_finding =
    [source_dict (source_info "u1" "X" ""); source_dict (source_info "u2" "Y" "")].
Proof.
  assert (Hret : web_research unit api_eight (summarizer "See [1] and [2].") cfg
                   (search_for "q" 0) env0
                 = (Return cited_finding, env0)) by (vm_compute; reflexivity).
  split; [exact Hret|].
  destruct (at_most_eight_sources unit api_eight (summarizer "See [1] and [2].") cfg
              _ _ _ _ Hret) as (Hlen & Hsources & _).
  split; [exact Hlen | exact Hsources].
Defined.

(** The rewritten link, as a Finding of [web_research]: the search returns
    a page whose title ends in [[2]] and the summary cites it as [[1]]. *)
Example finding_with_rewritten_link :
  option_map web_research_result
    (match fst (web_research unit api_notes (summarizer "See [1].") cfg
                  (search_for "q" 0) env0) with
     | Return finding => Some finding
     | Raise _ => None
     end)
  = Some ["See [Notes [Y](u2)](u1)."].
Proof. vm_compute. reflexivity. Qed.

(** C3, as stated, fails: a summarization call that times out leaves
    [web_research] as an exception, and the Finding of a failed search
    does not contain the error message. *)
Lemma capability_failure_counterexample :
  fst (web_research unit api_two summarizer_down cfg (search_for "q" 0) env0)
  = Raise "Request timed out."
  /\ ~ (exists finding env',
          web_research unit api_two summarizer_down cfg (search_for "q" 0) env0
          = (Return finding, env'))
  /\ fst (web_research unit api_down (summarizer "s") cfg (search_for "q" 0) env0)
     = Return (no_results_finding "q")
  /\ Py.contains "503 Server Error" "No search results found for: q" = false.
Proof.
  split; [vm_compute; reflexivity|]. split; [|split; vm_compute; reflexivity].
  intros (finding & env' & H). vm_compute in H. discriminate H.
Qed.

(** C4, as stated, fails: a URL gathered twice is listed twice. *)
Lemma deduplication_counterexample :
  finalize_answer unit (writer "answer") cfg found_twice env0
  = (Return (answer_with "answer" (sources_gathered found_twice)), env0) /\
  urls_of (sources_gathered (answer_with "answer" (sources_gathered found_twice)))
  = ["a"; "b"; "a"] /\
  ~ NoDup (urls_of (sources_gathered (answer_with "answer" (sources_gathered found_twice)))).
Proof.
  split; [vm_compute; reflexivity|]. split; [vm_compute; reflexivity|].
  intros Hnodup.
  assert (Hurls : urls_of (sources_gathered (answer_with "answer" (sources_gathered found_twice)))
                  = ["a"; "b"; "a"]) by (vm_compute; reflexivity).
  rewrite Hurls in Hnodup.
  apply NoDup_cons in Hnodup as [Hnotin _]. apply Hnotin.
  apply list_elem_of_In. right. left. reflexivity.
Qed.

End Runs.

(** *** The other helpers of [utils.py] *)

Lemma string_app_inv_head (a b c : string) : a +:+ b = a +:+ c -> b = c.
Proof.
  induction a as [|x a IH]; intros H.
  - exact H.
  - rewrite !string_app_cons in H. injection H as H. auto.
Qed.

Lemma short_url_inj (id : Z) (i j : nat) : short_url id i = short_url id j -> i = j.
Proof.
  unfold short_url. intros H.
  do 3 apply string_app_inv_head in H.
  apply (inj pretty) in H. exact H.
Qed.

Lemma citation_loop_no_marker (sources : list (gmap string string)) : forall i text,
  (forall k, (k < length sources)%nat ->
     Py.contains (marker_pattern (i + k)) text = false) ->
  citation_loop i sources text = text.
Proof.
  induction sources as [|source rest IH]; intros i text Hno.
  - reflexivity.
  - cbn [citation_loop]. unfold citation_step.
    pose proof (Hno 0%nat) as H0. rewrite Nat.add_0_r in H0.
    rewrite H0 by (cbn [length]; lia).
    apply IH. intros k Hk.
    replace (S i + k)%nat with (i + S k)%nat by lia.
    apply Hno. cbn [length]. lia.
Qed.

(** X17: a text in which none of the markers [[1]] ... [[n]] of the [n]
    sources occurs comes back from [insert_citation_markers] unchanged. *)
Theorem insert_citation_markers_without_markers (text : string)
    (sources : list (gmap string string))
    (Habsent : forall i, (1 <= i <= length sources)%nat ->
       Py.contains (marker_pattern i) text = false) :
  insert_citation_markers text sources = text.
Proof.
  unfold insert_citation_markers. destruct sources as [|source rest]; [reflexivity|].
  apply citation_loop_no_marker. intros k Hk. apply Habsent. lia.
Qed.

Lemma short_urls_loop_lookup (id : Z) (sources : list (gmap string string)) :
  forall idx resolved_map u,
  short_urls_loop id idx sources resolved_map !! u =
  match resolved_map !! u with
  | Some s => Some s
  | None =>
      if decide (u = "") then None
      else (fun p => short_url id (idx + p.1)) <$>
             list_find (fun source => Py.get source "url" "" = u) sources
  end.
Proof.
  induction sources as [|source rest IH]; intros idx resolved_map u.
  - cbn. destruct (resolved_map !! u); [reflexivity|]. destruct (decide (u = "")); reflexivity.
  - cbn [short_urls_loop]. rewrite IH. cbn [list_find].
    assert (Hrest : forall o : option (nat * gmap string string),
      (fun p => short_url id (S idx + p.1)) <$> o =
      (fun p => short_url id (idx + p.1)) <$> (prod_map S (@Datatypes.id _) <$> o)).
    { intros [[k x]|]; cbn; [|reflexivity]. do 2 f_equal. lia. }
    destruct (decide (Py.get source "url" "" = u)) as [Hu|Hu].
    + subst u. destruct (Py.get source "url" "") as [|c url'] eqn:Hurl.
      * destruct (resolved_map !! ""); [reflexivity|].
        destruct (decide ("" = "")); [reflexivity|congruence].
      * destruct (resolved_map !! String c url') eqn:Hm.
        -- rewrite Hm. reflexivity.
        -- rewrite lookup_insert_eq.
           destruct (decide (String c url' = "")); [discriminate|].
           cbn. rewrite Nat.add_0_r. reflexivity.
    + assert (Hsame :
        (match Py.get source "url" "" with
         | EmptyString => resolved_map
         | String _ _ =>
             match resolved_map !! Py.get source "url" "" with
             | Some _ => resolved_map
             | None => <[Py.get source "url" "" := short_url id idx]> resolved_map
             end
         end) !! u = resolved_map !! u).
      { destruct (Py.get source "url" "") as [|c url']; [reflexivity|].
        destruct (resolved_map !! String c url'); [reflexivity|].
        apply lookup_insert_ne. exact Hu. }
      rewrite Hsame. destruct (resolved_map !! u); [reflexivity|].
      destruct (decide (u = "")); [reflexivity|]. apply Hrest.
Qed.

(** X18: [create_short_urls] maps exactly the non-empty URLs of the
    sources, each to the short URL numbered with the position of the
    first source that carries it; a source without a ['url'] key, or with
    an empty one, has no entry. *)
Theorem create_short_urls_first_occurrence (sources : list (gmap string string))
    (id : Z) (u : string) :
  create_short_urls sources id !! u =
  if decide (u = "") then None
  else (fun p => short_url id p.1) <$>
         list_find (fun source => Py.get source "url" "" = u) sources.
Proof.
  unfold create_short_urls. rewrite short_urls_loop_lookup, lookup_empty.
  reflexivity.
Qed.

(** X19: within one batch, two different URLs never get the same short
    URL. *)
Theorem create_short_urls_injective (sources : list (gmap string string))
    (id : Z) (u1 u2 s : string)
    (H1 : create_short_urls sources id !! u1 = Some s)
    (H2 : create_short_urls sources id !! u2 = Some s) :
  u1 = u2.
Proof.
  unfold create_short_urls in H1, H2.
  rewrite short_urls_loop_lookup, lookup_empty in H1.
  rewrite short_urls_loop_lookup, lookup_empty in H2.
  destruct (decide (u1 = "")); [discriminate|].
  destruct (decide (u2 = "")); [discriminate|].
  destruct (list_find _ sources) as [[k1 x1]|] eqn:F1 in H1; [|discriminate].
  destruct (list_find _ sources) as [[k2 x2]|] eqn:F2 in H2; [|discriminate].
  assert (Hk : k1 = k2).
  { apply (short_url_inj id). cbn [fmap option_fmap option_map fst] in H1, H2. rewrite !Nat.add_0_l in *. congruence. }
  subst k2.
  apply list_find_Some in F1 as (L1 & P1 & _).
  apply list_find_Some in F2 as (L2 & P2 & _).
  congruence.
Qed.

(** X20: adding sources at the end never changes the short URL that a
    URL already has. *)
Theorem create_short_urls_stable (sources more : list (gmap string string)) (id : Z) :
  create_short_urls sources id ⊆ create_short_urls (sources ++ more) id.
Proof.
  apply map_subseteq_spec. intros u s. unfold create_short_urls.
  rewrite !short_urls_loop_lookup, lookup_empty.
  destruct (decide (u = "")); [discriminate|].
  destruct (list_find _ sources) as [[k x]|] eqn:F; [|discriminate].
  rewrite (list_find_app_l _ _ _ _ _ F). auto.
Qed.

Lemma citation_line_table (i : nat) (source : gmap string string) :
  citation_line i source = marker_pattern i +:+ " " +:+ link_replacement i source.
Proof.
  unfold citation_line, marker_pattern, link_replacement.
  rewrite !string_app_assoc. reflexivity.
Qed.

Lemma citations_loop_table (sources : list (gmap string string)) : forall i citations,
  citations_loop i sources citations =
  citations ++ map (fun entry => entry.1 +:+ " " +:+ entry.2) (citation_table i sources).
Proof.
  induction sources as [|source rest IH]; intros i citations.
  - cbn. rewrite app_nil_r. reflexivity.
  - cbn [citations_loop citation_table map fst snd].
    rewrite IH, citation_line_table, <- app_assoc. reflexivity.
Qed.

(** X21: [format_sources_for_citation] writes one line per source, the
    marker of the source followed by the very link that
    [insert_citation_markers] puts in the place of that marker. *)
Theorem format_sources_for_citation_lines (sources : list (gmap string string)) :
  format_sources_for_citation sources =
  String.concat Py.nl
    (map (fun entry => entry.1 +:+ " " +:+ entry.2) (citation_table 1 sources)).
Proof.
  unfold format_sources_for_citation. destruct sources as [|source rest].
  - reflexivity.
  - rewrite citations_loop_table. reflexivity.
Qed.

Lemma citation_mapping_loop_lookup (sources : list (gmap string string)) :
  forall i mapping k,
  citation_mapping_loop i sources mapping !! k =
  match (if (k <? i)%nat then None else sources !! (k - i)%nat) with
  | Some source => Some (citation_entry k source)
  | None => mapping !! k
  end.
Proof.
  induction sources as [|source rest IH]; intros i mapping k.
  - cbn [citation_mapping_loop]. destruct (k <? i)%nat; reflexivity.
  - cbn [citation_mapping_loop]. rewrite IH.
    destruct (Nat.ltb_spec k i) as [Hlt|Hge].
    + destruct (Nat.ltb_spec k (S i)); [|lia].
      apply lookup_insert_ne. lia.
    + destruct (Nat.ltb_spec k (S i)) as [Hlt|Hgt].
      * assert (k = i) as -> by lia. rewrite Nat.sub_diag, lookup_insert_eq. reflexivity.
      * replace (k - i)%nat with (S (k - S i)) by lia. cbn [lookup list_lookup].
        destruct (rest !! (k - S i)%nat); [reflexivity|].
        apply lookup_insert_ne. lia.
Qed.

(** X22: [create_citation_mapping] has exactly the keys [1 .. n]: key [k]
    holds the title, URL and snippet of the [k]-th source (with the
    defaults ['Source k'], ['#'] and ['']), and every other number has no
    entry. *)
Theorem create_citation_mapping_lookup (sources : list (gmap string string)) (k : nat) :
  create_citation_mapping sources !! k =
  match k with
  | O => None
  | S j => citation_entry k <$> sources !! j
  end.
Proof.
  unfold create_citation_mapping. rewrite citation_mapping_loop_lookup, lookup_empty.
  destruct k as [|j]; [reflexivity|].
  cbn [Nat.ltb Nat.leb]. replace (S j - 1)%nat with j by lia.
  destruct (sources !! j); reflexivity.
Qed.

Lemma prefix_app_l (sub a b : string) :
  String.prefix sub a = true -> String.prefix sub (a +:+ b) = true.
Proof.
  intros H. apply prefix_split in H as [Y ->].
  rewrite string_app_assoc. apply prefix_app.
Qed.

Lemma contains_app_left (sub a b : string) :
  Py.contains sub a = true -> Py.contains sub (a +:+ b) = true.
Proof.
  induction a as [|x a IH]; intros H.
  - apply contains_prefix. apply (prefix_app_l sub "" b). exact H.
  - rewrite string_app_cons. cbn [Py.contains] in H |- *.
    apply orb_true_iff in H as [H|H]; apply orb_true_iff.
    + left. rewrite <- string_app_cons. apply prefix_app_l. exact H.
    + right. auto.
Qed.

Lemma contains_app_right (sub a b : string) :
  Py.contains sub b = true -> Py.contains sub (a +:+ b) = true.
Proof.
  intros H. induction a as [|x a IH].
  - exact H.
  - rewrite string_app_cons. cbn [Py.contains]. rewrite IH. apply orb_true_r.
Qed.

Lemma topic_loop_app (messages : list AnyMessage) : forall research_topic,
  topic_loop messages research_topic = research_topic +:+ topic_loop messages "".
Proof.
  induction messages as [|message rest IH]; intros research_topic.
  - cbn. induction research_topic as [|x t IHt]; [reflexivity|].
    rewrite string_app_cons, <- IHt. reflexivity.
  - cbn [topic_loop]. rewrite IH. rewrite (IH (match message with
      | human_message c => "" +:+ _ | ai_message c => "" +:+ _ | other_message _ => "" end)).
    destruct message; rewrite ?string_app_assoc; reflexivity.
Qed.

Lemma topic_loop_contains (messages : list AnyMessage) (message : AnyMessage) :
  In message messages ->
  (forall c, message <> other_message c) ->
  Py.contains (message_content message) (topic_loop messages "") = true.
Proof.
  intros Hin Hkind. induction messages as [|m rest IH]; [destruct Hin|].
  cbn [topic_loop]. rewrite topic_loop_app.
  destruct Hin as [->|Hin].
  - apply contains_app_left.
    destruct message as [c|c|c]; cbn [message_content].
    + apply (contains_app_right c "User: "), contains_app_left, contains_prefix, prefix_refl.
    + apply (contains_app_right c "Assistant: "), contains_app_left, contains_prefix, prefix_refl.
    + destruct (Hkind c eq_refl).
  - apply contains_app_right, IH, Hin.
Qed.

(** X23: no human or AI message is lost by [get_research_topic]: whatever
    the history, the content of each of them occurs in the topic. *)
Theorem get_research_topic_keeps_contents (messages : list AnyMessage)
    (message : AnyMessage)
    (Hin : In message messages)
    (Hkind : forall c, message <> other_message c) :
  Py.contains (message_content message) (get_research_topic messages) = true.
Proof.
  unfold get_research_topic.
  destruct messages as [|m [|m' rest]].
  - destruct Hin.
  - destruct Hin as [->|[]]. apply contains_prefix, prefix_refl.
  - apply topic_loop_contains; assumption.
Qed.

(** *** [Configuration.from_runnable_config] *)

Example upper_field_name : upper "max_research_loops" = "MAX_RESEARCH_LOOPS".
Proof. reflexivity. Qed.

Lemma raw_values_loop_lookup (environ : gmap string string)
    (configurable : gmap string value) (names : list string) :
  forall raw_values name,
  raw_values_loop environ configurable names raw_values !! name =
  if decide (name ∈ names) then Some (raw_value environ configurable name)
  else raw_values !! name.
Proof.
  induction names as [|n rest IH]; intros raw_values name.
  - cbn [raw_values_loop]. destruct (decide (name ∈ [])) as [Hin|_]; [|reflexivity].
    apply elem_of_nil in Hin. destruct Hin.
  - cbn [raw_values_loop]. rewrite IH.
    destruct (decide (name ∈ rest)) as [Hin|Hout].
    + destruct (decide (name ∈ n :: rest)) as [_|Hno]; [reflexivity|].
      destruct Hno. apply elem_of_cons. right. exact Hin.
    + destruct (decide (name = n)) as [->|Hne].
      * rewrite lookup_insert_eq.
        destruct (decide (n ∈ n :: rest)) as [_|Hno]; [reflexivity|].
        destruct Hno. apply elem_of_cons. left. reflexivity.
      * rewrite lookup_insert_ne by congruence.
        destruct (decide (name ∈ n :: rest)) as [Hin|_]; [|reflexivity].
        apply elem_of_cons in Hin as [Heq|Hin]; [congruence | contradiction].
Qed.

(** X24: the value that [from_runnable_config] passes on for a field is
    the environment variable named like the field in upper case whenever
    that variable is set, whatever the config says; otherwise it is the
    entry of the field under ['configurable'].  A field found in neither
    place, or [None] in the config, is left out, and so is every key of
    the config that is not a field of the model. *)
Theorem from_runnable_config_values_lookup (environ : gmap string string)
    (config : option RunnableConfig) (name : string) :
  from_runnable_config_values environ config !! name =
  if decide (name ∈ model_fields) then
    match environ !! upper name with
    | Some s => Some (v_str s)
    | None =>
        match configurable_of config !! name with
        | Some v => if is_none v then None else Some v
        | None => None
        end
    end
  else None.
Proof.
  unfold from_runnable_config_values. cbv zeta.
  rewrite map_lookup_filter, raw_values_loop_lookup, lookup_empty.
  destruct (decide (name ∈ model_fields)) as [_|_]; [|reflexivity].
  unfold raw_value.
  destruct (environ !! upper name) as [s|]; [reflexivity|].
  destruct (configurable_of config !! name) as [v|]; [|reflexivity].
  destruct v; reflexivity.
Qed.

Example from_runnable_config_environment_wins :
  from_runnable_config_values
    {[ "MAX_RESEARCH_LOOPS" := "5" ]}
    (Some {| configurable_entry :=
               Some {[ "max_research_loops" := v_int 3; "answer_model" := v_str "gpt-4o";
                       "reflection_model" := v_none; "temperature" := v_int 1 ]} |})
  = {[ "max_research_loops" := v_str "5"; "answer_model" := v_str "gpt-4o" ]}.
Proof. vm_compute. reflexivity. Qed.

(** *** The prompt of [web_research] and the text of [run_agent] *)

Lemma collect_results_content_grows (search_results : list SearchResult) (sub : string) :
  forall i sources search_content,
  Py.contains sub search_content = true ->
  Py.contains sub (snd (collect_results i search_results sources search_content)) = true.
Proof.
  induction search_results as [|r rest IH]; intros i sources search_content Hsub.
  - exact Hsub.
  - cbn [collect_results]. apply IH, contains_app_left, Hsub.
Qed.

Lemma collect_results_block (search_results : list SearchResult) :
  forall i sources search_content k result,
  search_results !! k = Some result ->
  Py.contains (search_block (i + k) result)
    (snd (collect_results i search_results sources search_content)) = true.
Proof.
  induction search_results as [|r rest IH]; intros i sources search_content k result Hk.
  - discriminate Hk.
  - cbn [collect_results]. destruct k as [|k].
    + injection Hk as ->. rewrite Nat.add_0_r.
      apply collect_results_content_grows, contains_app_r.
    + replace (i + S k)%nat with (S i + k)%nat by lia. apply IH. exact Hk.
Qed.

Lemma citation_table_lookup (sources : list (gmap string string)) : forall i k,
  citation_table i sources !! k =
  (fun source => (marker_pattern (i + k), link_replacement (i + k) source)) <$> sources !! k.
Proof.
  induction sources as [|source rest IH]; intros i k.
  - reflexivity.
  - destruct k as [|k]; cbn [citation_table lookup list_lookup].
    + rewrite Nat.add_0_r. reflexivity.
    + rewrite IH. replace (S i + k)%nat with (i + S k)%nat by lia. reflexivity.
Qed.

Lemma link_replacement_source_info (i : nat) (u t s : string) :
  link_replacement i (source_info u t s) = "[" +:+ t +:+ "](" +:+ u +:+ ")".
Proof. reflexivity. Qed.

(** X25: the number under which [web_research] shows a search result to
    the model is the number of the marker that [insert_citation_markers]
    replaces by the link to that very result: result [k] is printed in
    the prompt in a block that starts with the marker [[k+1]], and the
    entry [k] of the substitution table is that marker with the link made
    of the title and the URL of the same result. *)
Theorem prompt_numbers_match_sources (search_results : list SearchResult) (k : nat)
    (result : SearchResult)
    (Hk : search_results !! k = Some result) :
  Py.contains (search_block (S k) result)
    (snd (collect_results 1 search_results [] "")) = true /\
  String.prefix (Py.nl +:+ marker_pattern (S k) +:+ " " +:+ title result)
    (search_block (S k) result) = true /\
  citation_table 1 (fst (collect_results 1 search_results [] "")) !! k =
    Some (marker_pattern (S k), "[" +:+ title result +:+ "](" +:+ url result +:+ ")").
Proof.
  split; [|split].
  - apply (collect_results_block search_results 1 [] "" k result Hk).
  - assert (Hblock : search_block (S k) result =
      (Py.nl +:+ marker_pattern (S k) +:+ " " +:+ title result) +:+
      (Py.nl +:+ "URL: " +:+ url result +:+ Py.nl
       +:+ "Snippet: " +:+ snippet result +:+ Py.nl +:+ "---" +:+ Py.nl)).
    { unfold search_block, marker_pattern. rewrite !string_app_assoc. reflexivity. }
    rewrite Hblock. apply prefix_app.
  - rewrite citation_table_lookup, collect_results_sources. cbn [app].
    rewrite list_lookup_fmap, Hk. reflexivity.
Qed.

Lemma list_sources_app (sources : list gathered) : forall i response_content,
  list_sources i sources response_content = response_content +:+ list_sources i sources "".
Proof.
  induction sources as [|source rest IH]; intros i response_content.
  - cbn [list_sources]. induction response_content as [|x t IHt]; [reflexivity|].
    rewrite string_app_cons, <- IHt. reflexivity.
  - destruct source as [d|l]; cbn [list_sources].
    + rewrite IH. rewrite (IH _ ("" +:+ _)). rewrite !string_app_assoc. reflexivity.
    + apply IH.
Qed.

Lemma list_sources_line (sources : list gathered) : forall i k d,
  sources !! k = Some (source_dict d) ->
  Py.contains
    (pretty (i + k)%nat +:+ ". " +:+ Py.get d "title" "Unknown Title" +:+ Py.nl
       +:+ "   " +:+ Py.get d "url" "No URL" +:+ Py.nl)
    (list_sources i sources "") = true.
Proof.
  induction sources as [|source rest IH]; intros i k d Hk.
  - discriminate Hk.
  - destruct k as [|k].
    + injection Hk as ->. cbn [list_sources]. rewrite list_sources_app, Nat.add_0_r.
      apply contains_app_left, contains_prefix, prefix_refl.
    + replace (i + S k)%nat with (S i + k)%nat by lia.
      destruct source as [d'|l]; cbn [list_sources].
      * rewrite list_sources_app. apply contains_app_right, IH, Hk.
      * apply IH, Hk.
Qed.

(** X26: the text that [run_agent] shows for a final state is
    ['No answer generated.'] when the state has no AI message or its
    first AI message is empty, however many sources were gathered;
    otherwise it begins with the content of the first AI message, is that
    content alone when there are no sources, and lists every source dict
    under the number of its position in [sources_gathered], with
    ['Unknown Title'] and ['No URL'] for the keys it lacks. *)
Theorem response_starts_with_answer (result : OverallState) :
  match first_ai_content (messages result) with
  | EmptyString => response_of result = "No answer generated."
  | String c text =>
      String.prefix (String c text) (response_of result) = true /\
      (sources_gathered result = [] -> response_of result = String c text) /\
      (forall k d,
         sources_gathered result !! k = Some (source_dict d) ->
         Py.contains
           (pretty (S k) +:+ ". " +:+ Py.get d "title" "Unknown Title" +:+ Py.nl
              +:+ "   " +:+ Py.get d "url" "No URL" +:+ Py.nl)
           (response_of result) = true)
  end.
Proof.
  unfold response_of.
  destruct (first_ai_content (messages result)) as [|c text]; [reflexivity|].
  destruct (sources_gathered result) as [|source rest] eqn:Hsources.
  - split; [apply prefix_refl|]. split; [reflexivity|]. intros k d Hk. discriminate Hk.
  - rewrite list_sources_app, string_app_assoc. split; [apply prefix_app|].
    split; [discriminate|]. intros k d Hk.
    apply contains_app_right, contains_app_right.
    apply (list_sources_line (source :: rest) 1 k d Hk).
Qed.

(** *** Concrete cases of the further properties *)

Module Cases.

Import Demo.

Lemma insert_citation_markers_without_markers_witness :
  (forall i, (1 <= i <= 2)%nat ->
     Py.contains (marker_pattern i) "Nothing is cited here [3]." = false) /\
  insert_citation_markers "Nothing is cited here [3]."
    [source_info "u1" "X" ""; source_info "u2" "Y" ""]
  = "Nothing is cited here [3].".
Proof.
  assert (Habsent : forall i, (1 <= i <= 2)%nat ->
            Py.contains (marker_pattern i) "Nothing is cited here [3]." = false).
  { intros i Hi. assert (i = 1 \/ i = 2)%nat as [-> | ->] by lia; vm_compute; reflexivity. }
  split; [exact Habsent|].
  apply (insert_citation_markers_without_markers "Nothing is cited here [3]."
           [source_info "u1" "X" ""; source_info "u2" "Y" ""] Habsent).
Defined.

Example short_urls_of_a_batch :
  create_short_urls [src "a"; src "b"; src "a"; src ""; ∅] 7
  = {[ "a" := "https://search-results.com/id/7-0";
       "b" := "https://search-results.com/id/7-1" ]}.
Proof. vm_compute. reflexivity. Qed.

Lemma create_short_urls_injective_witness :
  create_short_urls [src "a"; src "b"; src "a"] 7 !! "a"
  = Some "https://search-results.com/id/7-0" /\
  "a" = "a".
Proof.
  assert (H : create_short_urls [src "a"; src "b"; src "a"] 7 !! "a"
              = Some "https://search-results.com/id/7-0") by (vm_compute; reflexivity).
  split; [exact H|].
  exact (create_short_urls_injective [src "a"; src "b"; src "a"] 7 "a" "a" _ H H).
Defined.

Example sources_formatted_with_defaults :
  format_sources_for_citation [source_info "u1" "X" ""; ∅]
  = "[1] [X](u1)" +:+ Py.nl +:+ "[2] [Source 2](#)".
Proof. vm_compute. reflexivity. Qed.

Example topic_of_a_history :
  get_research_topic history
  = "User: What is Rocq?" +:+ Py.nl +:+ "Assistant: A proof assistant." +:+ Py.nl
    +:+ "User: Who develops it?" +:+ Py.nl
  /\ get_research_topic [human_message "What is Rocq?"] = "What is Rocq?".
Proof. split; vm_compute; reflexivity. Qed.

Lemma get_research_topic_keeps_contents_witness :
  In (ai_message "A proof assistant.") history /\
  Py.contains "A proof assistant." (get_research_topic history) = true.
Proof.
  assert (Hin : In (ai_message "A proof assistant.") history)
    by (simpl; right; left; reflexivity).
  split; [exact Hin|].
  apply (get_research_topic_keeps_contents history (ai_message "A proof assistant.") Hin).
  intros c. discriminate.
Defined.

Lemma prompt_numbers_match_sources_witness :
  [mkSearchResult "X" "u1" "one"; mkSearchResult "Y" "u2" "two"] !! 1%nat
  = Some (mkSearchResult "Y" "u2" "two") /\
  citation_table 1
    (fst (collect_results 1
            [mkSearchResult "X" "u1" "one"; mkSearchResult "Y" "u2" "two"] [] "")) !! 1%nat
  = Some ("[2]", "[Y](u2)").
Proof.
  split; [reflexivity|].
  exact (proj2 (proj2 (prompt_numbers_match_sources
                         [mkSearchResult "X" "u1" "one"; mkSearchResult "Y" "u2" "two"]
                         1 (mkSearchResult "Y" "u2" "two") eq_refl))).
Defined.

Lemma satisfied_evaluator_gives_one_round_witness :
  generate_query unit (planner ["a"; "b"]) cfg (run_agent_input "question") env0
  = (Return ["a"; "b"], env0) /\
  exists st' answer env',
    graph unit api_none (planner ["a"; "b"]) (summarizer "s") (judge satisfied)
      (writer "answer") cfg 5 (run_agent_input "question") env0
    = (Return (Finalized st' answer), env') /\
    round_count st' = round_count (run_agent_input "question") + 1 /\
    dispatched env' =
      dispatched env0
      ++ continue_to_web_research (search_query (run_agent_input "question") ++ ["a"; "b"]).
Proof.
  split; [reflexivity|].
  apply (satisfied_evaluator_gives_one_round unit api_none (planner ["a"; "b"])
           (summarizer "s") (judge satisfied) (writer "answer") cfg 4
           (run_agent_input "question") env0 ["a"; "b"] env0 eq_refl).
  - discriminate.
  - intros m t s w. exists satisfied, w. split; reflexivity.
  - intros m t c w. exists "s", w. reflexivity.
  - intros m t s w. exists "answer", w. reflexivity.
Defined.

Lemma small_budget_gives_one_round_witness :
  budget cfg_one (run_agent_input "question")
  <= round_count (run_agent_input "question") + 1 /\
  generate_query unit (planner ["a"]) cfg_one (run_agent_input "question") env0
  = (Return ["a"], env0) /\
  exists st' answer env',
    graph unit api_none (planner ["a"]) (summarizer "s") (judge more_needed)
      (writer "answer") cfg_one 1 (run_agent_input "question") env0
    = (Return (Finalized st' answer), env') /\
    round_count st' = round_count (run_agent_input "question") + 1 /\
    dispatched env' =
      dispatched env0
      ++ continue_to_web_research (search_query (run_agent_input "question") ++ ["a"]).
Proof.
  assert (Hbudget : budget cfg_one (run_agent_input "question")
                    <= round_count (run_agent_input "question") + 1)
    by (vm_compute; discriminate).
  split; [exact Hbudget|]. split; [reflexivity|].
  apply (small_budget_gives_one_round unit api_none (planner ["a"])
           (summarizer "s") (judge more_needed) (writer "answer") cfg_one 0
           (run_agent_input "question") env0 ["a"] env0 Hbudget eq_refl).
  - discriminate.
  - intros m t s w. exists more_needed, w. reflexivity.
  - intros m t c w. exists "s", w. reflexivity.
  - intros m t s w. exists "answer", w. reflexivity.
Defined.

Lemma every_dispatch_is_accounted_for_witness :
  graph unit api_none (planner ["a"]) (summarizer "s") (judge satisfied)
    (writer "answer") cfg 1 (run_agent_input "question") env0
  = (Return (Finalized (first_round "question" None None None) (answer_with "answer" [])),
     mkEnv tt [] [send_web_research "a" 0]) /\
  length (web_research_result
            (merge (first_round "question" None None None) (answer_with "answer" [])))
  = 1%nat /\
  search_query (merge (first_round "question" None None None) (answer_with "answer" []))
  = ["a"; "a"].
Proof.
  assert (Hrun : graph unit api_none (planner ["a"]) (summarizer "s") (judge satisfied)
                   (writer "answer") cfg 1 (run_agent_input "question") env0
                 = (Return (Finalized (first_round "question" None None None)
                              (answer_with "answer" [])),
                    mkEnv tt [] [send_web_research "a" 0]))
    by (vm_compute; reflexivity).
  split; [exact Hrun|].
  destruct (every_dispatch_is_accounted_for unit api_none (planner ["a"]) (summarizer "s")
              (judge satisfied) (writer "answer") cfg 1 (run_agent_input "question")
              env0 ["a"] env0 _ _ _ eq_refl eq_refl Hrun eq_refl)
    as (Hfindings & Hqueries & _).
  split; [exact Hfindings | exact Hqueries].
Defined.

Lemma returned_state_lists_sources_twice_witness :
  graph unit api_two (planner ["a"]) (summarizer "See [1].") (judge satisfied)
    (writer "answer") cfg 1 (run_agent_input "question") env0
  = (Return (Finalized found_two (answer_with "answer" (sources_gathered found_two))),
     mkEnv tt [] [send_web_research "a" 0]) /\
  sources_gathered
    (merge found_two (answer_with "answer" (sources_gathered found_two)))
  = sources_gathered found_two ++ sources_gathered found_two /\
  length (sources_gathered found_two) = 2%nat.
Proof.
  assert (Hrun : graph unit api_two (planner ["a"]) (summarizer "See [1].") (judge satisfied)
                   (writer "answer") cfg 1 (run_agent_input "question") env0
                 = (Return (Finalized found_two
                              (answer_with "answer" (sources_gathered found_two))),
                    mkEnv tt [] [send_web_research "a" 0]))
    by (vm_compute; reflexivity).
  split; [exact Hrun|].
  destruct (returned_state_lists_sources_twice unit api_two (planner ["a"])
              (summarizer "See [1].") (judge satisfied) (writer "answer") cfg 1
              (run_agent_input "question") env0 _ _ _ eq_refl eq_refl Hrun eq_refl)
    as (_ & _ & _ & Htwice).
  split; [exact Htwice | reflexivity].
Defined.

Lemma planning_failure_ends_the_run_witness :
  generate_query unit (planner ["a"]) cfg no_messages env0
  = (Raise "IndexError: list index out of range", env0) /\
  graph unit api_none (planner ["a"]) (summarizer "s") (judge satisfied)
    (writer "answer") cfg 3 no_messages env0
  = (Raise "IndexError: list index out of range", env0).
Proof.
  split; [reflexivity|].
  exact (proj1 (planning_failure_ends_the_run unit api_none (planner ["a"]) (summarizer "s")
                  (judge satisfied) (writer "answer") cfg 3 no_messages env0
                  "IndexError: list index out of range" env0 eq_refl)).
Defined.

Lemma web_research_sources_follow_results_witness :
  api_two (search_params "q" 8) (world env0)
  = (Return {| organic_results := Some [item "X" "u1"; item "Y" "u2"] |}, tt) /\
  web_research unit api_two (summarizer "See [1] and [2].") cfg (search_for "q" 0) env0
  = (Return cited_finding, env0) /\
  sources_gathered cited_finding =
    [source_dict (source_info "u1" "X" ""); source_dict (source_info "u2" "Y" "")].
Proof.
  assert (Hret : web_research unit api_two (summarizer "See [1] and [2].") cfg
                   (search_for "q" 0) env0 = (Return cited_finding, env0))
    by (vm_compute; reflexivity).
  split; [reflexivity|]. split; [exact Hret|].
  exact (proj1 (web_research_sources_follow_results unit api_two (summarizer "See [1] and [2].")
                  cfg (search_for "q" 0) env0 _ tt _ _ eq_refl Hret)).
Defined.

Lemma run_agent_always_answers_witness :
  ((1 <= 2)%nat /\ (Z.to_nat (cfg_max_research_loops cfg) <= 2)%nat) /\
  exists shown env',
    run_agent unit api_none planner_down (summarizer "s") (judge satisfied)
      (writer "answer") cfg traceback 2 "question" env0
    = (Return (Some shown), env').
Proof.
  assert (Hfuel : (1 <= 2)%nat /\ (Z.to_nat (cfg_max_research_loops cfg) <= 2)%nat)
    by (split; vm_compute; lia).
  split; [exact Hfuel|].
  destruct (run_agent_always_answers unit api_none planner_down (summarizer "s")
              (judge satisfied) (writer "answer") cfg traceback 2 "question" env0 Hfuel)
    as (shown & env' & Hshown & _).
  exists shown, env'. exact Hshown.
Defined.

Example run_agent_reports_a_failure :
  run_agent unit api_none planner_down (summarizer "s") (judge satisfied)
    (writer "answer") cfg traceback 2 "question" env0
  = (Return (Some "Error running agent: Connection error."),
     mkEnv tt
       ["Full error details: Connection error.";
        "Traceback: Traceback (most recent call last): Connection error."] []).
Proof. vm_compute. reflexivity. Qed.

Example run_agent_shows_the_answer :
  fst (run_agent unit api_none (planner ["a"]) (summarizer "s") (judge satisfied)
         (writer "answer") cfg traceback 2 "question" env0)
  = Return (Some "answer").
Proof. vm_compute. reflexivity. Qed.

Lemma cli_main_prints_last_message_witness :
  ((1 <= 2)%nat /\
   (Z.to_nat (budget cfg (cli_input "question" 3 2 "gpt-4o")) <= 2)%nat) /\
  cli_main unit api_none (planner ["a"]) (summarizer "s") (judge satisfied)
    (writer "answer") cfg 2 "question" 3 2 "gpt-4o" env0
  = (Return (Some tt), mkEnv tt ["answer"] [send_web_research "a" 0]).
Proof.
  assert (Hfuel : (1 <= 2)%nat /\
            (Z.to_nat (budget cfg (cli_input "question" 3 2 "gpt-4o")) <= 2)%nat)
    by (split; vm_compute; lia).
  split; [exact Hfuel|].
  pose proof (cli_main_prints_last_message unit api_none (planner ["a"]) (summarizer "s")
                (judge satisfied) (writer "answer") cfg 2 "question" 3 2 "gpt-4o"
                env0 Hfuel) as Hmain.
  vm_compute in Hmain. destruct Hmain as (text & Htext & Hmain).
  injection Htext as <-. vm_compute. exact Hmain.
Defined.

Lemma no_planned_queries_no_answer_witness :
  planner [] (query_generator_model cfg) "question" (number_of_initial_queries cfg)
    (world env0) = (Return [], tt) /\
  run_agent unit api_two (planner []) (summarizer "s") (judge satisfied)
    (writer "answer") cfg traceback 2 "question" env0
  = (Return (Some "No answer generated."), env0).
Proof.
  split; [reflexivity|].
  exact (proj2 (no_planned_queries_no_answer unit api_two (planner []) (summarizer "s")
                  (judge satisfied) (writer "answer") cfg traceback 2 "question"
                  env0 tt eq_refl)).
Defined.

Lemma unsatisfied_without_follow_ups_gives_no_answer_witness :
  2 <= cfg_max_research_loops cfg /\
  exists st' env',
    graph unit api_two (planner ["a"]) (summarizer "See [1].") (judge stuck)
      (writer "answer") cfg 2 (run_agent_input "question") env0
    = (Return (Halted st'), env') /\
    run_agent unit api_two (planner ["a"]) (summarizer "See [1].") (judge stuck)
      (writer "answer") cfg traceback 2 "question" env0
    = (Return (Some "No answer generated."), env').
Proof.
  assert (Hbudget : 2 <= cfg_max_research_loops cfg) by (vm_compute; discriminate).
  split; [exact Hbudget|].
  destruct (unsatisfied_without_follow_ups_gives_no_answer unit api_two (planner ["a"])
              (summarizer "See [1].") (judge stuck) (writer "answer") cfg traceback
              1 "question" env0 Hbudget)
    as (st' & env' & Hrun & _ & _ & Hshown).
  - intros m t n w. exists ["a"], w. split; [reflexivity | discriminate].
  - intros m t s w. exists stuck, w. repeat split.
  - intros m t c w. exists "See [1].", w. reflexivity.
  - exists st', env'. split; [exact Hrun | exact Hshown].
Defined.


End Cases.
